(** * Karaka GPS timer card: protocol engine and exposure controller

    A shallow embedding of [gps.c] (packet synchroniser, Trimble and
    Magellan decoders, epoch correction, [set_time], the receive and
    watchdog interrupt handlers) and of the PPS interrupt handler of
    [main.c].  Globals of the firmware become the fields of one [State]
    record that every routine takes and returns; calls into the debug and
    command channel ([send_debug_string_P], [send_timestamp], ...) and into
    the download unit ([trigger_download]) are recorded as events appended
    to the [trace] field.

    The two source files are of different revisions: [main.c] counts the
    exposure down under [exposure_syncing] and the link state
    [GPS_TIME_GOOD], [gps.c] drives a [countdown_mode] whose PPS side
    ([trigger_countdown]) is not among the sources.  The record carries
    the variables of both.

    The transmit side of [gps.c] ([queue_send_byte], the data-register-empty
    interrupt, [gps_init], [send_gps_config]) has a record of its own,
    [Transmitter], and the string and number output of [display.c]
    ([write_string], [write_number]) writes to a list of LCD events.

    The development has three parts: the embedding, the lemmas and
    theorems about it (a packet synchroniser that resets its counter of
    skipped bytes for one protocol only, a Trimble decoder that is right
    on packets it sees whole and loses a DLE on some packets that arrive
    in pieces, a Magellan checksum over the sentence-type byte and what
    follows, an epoch correction that lands on a calendar date but not on
    the date 19 years and 229 days later), and worked runs on concrete
    byte streams. *)

From Stdlib Require Import ZArith List Bool Lia.
From Stdlib Require Ascii String.
Import ListNotations.
Import String.StringSyntax.
Delimit Scope string_scope with string.
Local Open Scope Z_scope.

(** ** Outcomes

    A routine of the model either finishes with a value, or reaches a point
    where the C program has no defined behaviour (an array index out of
    range, a remainder by zero), or exhausts the bound given to one of its
    loops. *)

Inductive result (A : Type) : Type :=
| Ok (a : A)
| Undef
| Fuel.

Arguments Ok {A} a.
Arguments Undef {A}.
Arguments Fuel {A}.

Definition bind {A B : Type} (c : result A) (k : A -> result B) : result B :=
  match c with
  | Ok a => k a
  | Undef => Undef
  | Fuel => Fuel
  end.

Declare Scope result_scope.
Delimit Scope result_scope with result.
Notation "x <- c ;; k" := (bind c (fun x => k))
  (at level 61, c at next level, right associativity) : result_scope.
Notation "' p <- c ;; k" := (bind c (fun x => let p := x in k))
  (at level 61, p pattern, c at next level, right associativity) : result_scope.
Local Open Scope result_scope.

(** ** Machine integers and arrays *)

(** [unsigned char] and (16 bit, on the ATmega128) [unsigned int]. *)
Definition u8 (x : Z) : Z := x mod 256.
Definition u16 (x : Z) : Z := x mod 65536.

(** Array read with the index already known to be in range. *)
Definition idx (a : list Z) (i : Z) : Z := nth (Z.to_nat i) a 0.

(** Array read and write with a run-time index: outside the array the C
    program is undefined. *)
Definition array_get (a : list Z) (i : Z) : result Z :=
  if (0 <=? i) && (i <? Z.of_nat (length a)) then Ok (idx a i) else Undef.

Fixpoint list_set (a : list Z) (n : nat) (v : Z) : list Z :=
  match a, n with
  | [], _ => []
  | _ :: t, O => v :: t
  | h :: t, S m => h :: list_set t m v
  end.

Definition array_set (a : list Z) (i : Z) (v : Z) : result (list Z) :=
  if (0 <=? i) && (i <? Z.of_nat (length a))
  then Ok (list_set a (Z.to_nat i) v) else Undef.

(** ** Constants *)

(** Modelled from the spec: [DLE] and [ETX] are macros of [gps.h], which is
    not among the sources.  The spec names the terminator pair DLE, ETX;
    the values are those of the Trimble configuration packet
    [trimble_init], which starts with 0x10 and ends with 0x10, 0x03. *)
Definition DLE : Z := 0x10.
Definition ETX : Z := 0x03.

Definition GPS_PACKET_LENGTH : Z := 32.

(** Character constants ['$'], ['A'], ['H']. *)
Definition chr_dollar : Z := 0x24.
Definition chr_A : Z := 0x41.
Definition chr_H : Z := 0x48.

(** Reload value of timer 1: overflow after 62500 ticks. *)
Definition TCNT1_RELOAD : Z := 0x0BDB.

(** ** Data model *)

Inductive packet_type : Type :=
| UNKNOWN_PACKET
| TRIMBLE_PACKET
| MAGELLAN_TIME_PACKET
| MAGELLAN_STATUS_PACKET.

Inductive gps_state_t : Type :=
| GPS_UNAVAILABLE
| GPS_SYNCING
| GPS_ACTIVE
| GPS_TIME_GOOD.

Inductive countdown_mode_t : Type :=
| COUNTDOWN_DISABLED
| COUNTDOWN_SYNCING
| COUNTDOWN_ENABLED
| COUNTDOWN_TRIGGERED.

Record timestamp : Type := mkTimestamp {
  hours : Z;
  minutes : Z;
  seconds : Z;
  day : Z;
  month : Z;
  year : Z;
  locked : bool
}.

(** The flash strings handed to [send_debug_string_P]. *)
Inductive debug_msg : Type :=
| gps_msg_missed_pps
| gps_msg_lost_serial
| gps_msg_unknown_mgl_packet
| gps_msg_bad_packet.

(** What the firmware sends to its collaborators. *)
Inductive event : Type :=
| DebugString (m : debug_msg)            (* send_debug_string_P(m) *)
| DebugSkippedBytes (n : Z)              (* send_debug_fmt_P(gps_fmt_skipped_bytes, n) *)
| DebugChecksumFailed (got expected : Z) (* send_debug_fmt_P(gps_fmt_checksum_failed, ..) *)
| DebugRaw (bytes : list Z)              (* send_debug_raw(gps_packet, gps_packet_length) *)
| SendTimestamp                          (* send_timestamp() *)
| SendDownloadTimestamp                  (* send_downloadtimestamp() *)
| TriggerDownload.                       (* trigger_download() *)

Definition is_unknown (t : packet_type) : bool :=
  match t with UNKNOWN_PACKET => true | _ => false end.

Definition event_eqb_missed_pps (e : event) : bool :=
  match e with DebugString gps_msg_missed_pps => true | _ => false end.


Definition event_eqb_trigger (e : event) : bool :=
  match e with TriggerDownload => true | _ => false end.

Definition count_events (p : event -> bool) (l : list event) : nat :=
  length (filter p l).

(** The globals of [gps.c] and [main.c], the timer register the watchdog
    uses, and the trace of calls to the collaborators (oldest first). *)
Record State : Type := mkState {
  gps_input_buffer : list Z;
  gps_input_read : Z;
  gps_input_write : Z;
  gps_packet_type : packet_type;
  gps_packet_length : Z;
  gps_packet : list Z;
  gps_magellan_length : Z;
  gps_magellan_locked : bool;
  bytes_to_sync : Z;
  gps_state : gps_state_t;
  countdown_mode : countdown_mode_t;
  exposure_total : Z;
  exposure_count : Z;
  exposure_syncing : bool;
  gps_record_synctime : bool;
  gps_last_timestamp : timestamp;
  gps_last_synctime : timestamp;
  TCNT1 : Z;
  trace : list event
}.

Definition set_gps_input_buffer (v : list Z) (s : State) : State :=
  mkState v (gps_input_read s) (gps_input_write s) (gps_packet_type s)
    (gps_packet_length s) (gps_packet s) (gps_magellan_length s)
    (gps_magellan_locked s) (bytes_to_sync s) (gps_state s) (countdown_mode s)
    (exposure_total s) (exposure_count s) (exposure_syncing s)
    (gps_record_synctime s) (gps_last_timestamp s) (gps_last_synctime s)
    (TCNT1 s) (trace s).
Arguments set_gps_input_buffer v s /.

Definition set_gps_input_read (v : Z) (s : State) : State :=
  mkState (gps_input_buffer s) v (gps_input_write s) (gps_packet_type s)
    (gps_packet_length s) (gps_packet s) (gps_magellan_length s)
    (gps_magellan_locked s) (bytes_to_sync s) (gps_state s) (countdown_mode s)
    (exposure_total s) (exposure_count s) (exposure_syncing s)
    (gps_record_synctime s) (gps_last_timestamp s) (gps_last_synctime s)
    (TCNT1 s) (trace s).
Arguments set_gps_input_read v s /.

Definition set_gps_input_write (v : Z) (s : State) : State :=
  mkState (gps_input_buffer s) (gps_input_read s) v (gps_packet_type s)
    (gps_packet_length s) (gps_packet s) (gps_magellan_length s)
    (gps_magellan_locked s) (bytes_to_sync s) (gps_state s) (countdown_mode s)
    (exposure_total s) (exposure_count s) (exposure_syncing s)
    (gps_record_synctime s) (gps_last_timestamp s) (gps_last_synctime s)
    (TCNT1 s) (trace s).
Arguments set_gps_input_write v s /.

Definition set_gps_packet_type (v : packet_type) (s : State) : State :=
  mkState (gps_input_buffer s) (gps_input_read s) (gps_input_write s) v
    (gps_packet_length s) (gps_packet s) (gps_magellan_length s)
    (gps_magellan_locked s) (bytes_to_sync s) (gps_state s) (countdown_mode s)
    (exposure_total s) (exposure_count s) (exposure_syncing s)
    (gps_record_synctime s) (gps_last_timestamp s) (gps_last_synctime s)
    (TCNT1 s) (trace s).
Arguments set_gps_packet_type v s /.

Definition set_gps_packet_length (v : Z) (s : State) : State :=
  mkState (gps_input_buffer s) (gps_input_read s) (gps_input_write s)
    (gps_packet_type s) v (gps_packet s) (gps_magellan_length s)
    (gps_magellan_locked s) (bytes_to_sync s) (gps_state s) (countdown_mode s)
    (exposure_total s) (exposure_count s) (exposure_syncing s)
    (gps_record_synctime s) (gps_last_timestamp s) (gps_last_synctime s)
    (TCNT1 s) (trace s).
Arguments set_gps_packet_length v s /.

Definition set_gps_packet (v : list Z) (s : State) : State :=
  mkState (gps_input_buffer s) (gps_input_read s) (gps_input_write s)
    (gps_packet_type s) (gps_packet_length s) v (gps_magellan_length s)
    (gps_magellan_locked s) (bytes_to_sync s) (gps_state s) (countdown_mode s)
    (exposure_total s) (exposure_count s) (exposure_syncing s)
    (gps_record_synctime s) (gps_last_timestamp s) (gps_last_synctime s)
    (TCNT1 s) (trace s).
Arguments set_gps_packet v s /.

Definition set_gps_magellan_length (v : Z) (s : State) : State :=
  mkState (gps_input_buffer s) (gps_input_read s) (gps_input_write s)
    (gps_packet_type s) (gps_packet_length s) (gps_packet s) v
    (gps_magellan_locked s) (bytes_to_sync s) (gps_state s) (countdown_mode s)
    (exposure_total s) (exposure_count s) (exposure_syncing s)
    (gps_record_synctime s) (gps_last_timestamp s) (gps_last_synctime s)
    (TCNT1 s) (trace s).
Arguments set_gps_magellan_length v s /.

Definition set_gps_magellan_locked (v : bool) (s : State) : State :=
  mkState (gps_input_buffer s) (gps_input_read s) (gps_input_write s)
    (gps_packet_type s) (gps_packet_length s) (gps_packet s)
    (gps_magellan_length s) v (bytes_to_sync s) (gps_state s)
    (countdown_mode s) (exposure_total s) (exposure_count s)
    (exposure_syncing s) (gps_record_synctime s) (gps_last_timestamp s)
    (gps_last_synctime s) (TCNT1 s) (trace s).
Arguments set_gps_magellan_locked v s /.

Definition set_bytes_to_sync (v : Z) (s : State) : State :=
  mkState (gps_input_buffer s) (gps_input_read s) (gps_input_write s)
    (gps_packet_type s) (gps_packet_length s) (gps_packet s)
    (gps_magellan_length s) (gps_magellan_locked s) v (gps_state s)
    (countdown_mode s) (exposure_total s) (exposure_count s)
    (exposure_syncing s) (gps_record_synctime s) (gps_last_timestamp s)
    (gps_last_synctime s) (TCNT1 s) (trace s).
Arguments set_bytes_to_sync v s /.

Definition set_gps_state (v : gps_state_t) (s : State) : State :=
  mkState (gps_input_buffer s) (gps_input_read s) (gps_input_write s)
    (gps_packet_type s) (gps_packet_length s) (gps_packet s)
    (gps_magellan_length s) (gps_magellan_locked s) (bytes_to_sync s) v
    (countdown_mode s) (exposure_total s) (exposure_count s)
    (exposure_syncing s) (gps_record_synctime s) (gps_last_timestamp s)
    (gps_last_synctime s) (TCNT1 s) (trace s).
Arguments set_gps_state v s /.

Definition set_countdown_mode (v : countdown_mode_t) (s : State) : State :=
  mkState (gps_input_buffer s) (gps_input_read s) (gps_input_write s)
    (gps_packet_type s) (gps_packet_length s) (gps_packet s)
    (gps_magellan_length s) (gps_magellan_locked s) (bytes_to_sync s)
    (gps_state s) v (exposure_total s) (exposure_count s) (exposure_syncing s)
    (gps_record_synctime s) (gps_last_timestamp s) (gps_last_synctime s)
    (TCNT1 s) (trace s).
Arguments set_countdown_mode v s /.

Definition set_exposure_count (v : Z) (s : State) : State :=
  mkState (gps_input_buffer s) (gps_input_read s) (gps_input_write s)
    (gps_packet_type s) (gps_packet_length s) (gps_packet s)
    (gps_magellan_length s) (gps_magellan_locked s) (bytes_to_sync s)
    (gps_state s) (countdown_mode s) (exposure_total s) v (exposure_syncing s)
    (gps_record_synctime s) (gps_last_timestamp s) (gps_last_synctime s)
    (TCNT1 s) (trace s).
Arguments set_exposure_count v s /.

Definition set_gps_record_synctime (v : bool) (s : State) : State :=
  mkState (gps_input_buffer s) (gps_input_read s) (gps_input_write s)
    (gps_packet_type s) (gps_packet_length s) (gps_packet s)
    (gps_magellan_length s) (gps_magellan_locked s) (bytes_to_sync s)
    (gps_state s) (countdown_mode s) (exposure_total s) (exposure_count s)
    (exposure_syncing s) v (gps_last_timestamp s) (gps_last_synctime s)
    (TCNT1 s) (trace s).
Arguments set_gps_record_synctime v s /.

Definition set_gps_last_timestamp (v : timestamp) (s : State) : State :=
  mkState (gps_input_buffer s) (gps_input_read s) (gps_input_write s)
    (gps_packet_type s) (gps_packet_length s) (gps_packet s)
    (gps_magellan_length s) (gps_magellan_locked s) (bytes_to_sync s)
    (gps_state s) (countdown_mode s) (exposure_total s) (exposure_count s)
    (exposure_syncing s) (gps_record_synctime s) v (gps_last_synctime s)
    (TCNT1 s) (trace s).
Arguments set_gps_last_timestamp v s /.

Definition set_gps_last_synctime (v : timestamp) (s : State) : State :=
  mkState (gps_input_buffer s) (gps_input_read s) (gps_input_write s)
    (gps_packet_type s) (gps_packet_length s) (gps_packet s)
    (gps_magellan_length s) (gps_magellan_locked s) (bytes_to_sync s)
    (gps_state s) (countdown_mode s) (exposure_total s) (exposure_count s)
    (exposure_syncing s) (gps_record_synctime s) (gps_last_timestamp s) v
    (TCNT1 s) (trace s).
Arguments set_gps_last_synctime v s /.

Definition set_TCNT1 (v : Z) (s : State) : State :=
  mkState (gps_input_buffer s) (gps_input_read s) (gps_input_write s)
    (gps_packet_type s) (gps_packet_length s) (gps_packet s)
    (gps_magellan_length s) (gps_magellan_locked s) (bytes_to_sync s)
    (gps_state s) (countdown_mode s) (exposure_total s) (exposure_count s)
    (exposure_syncing s) (gps_record_synctime s) (gps_last_timestamp s)
    (gps_last_synctime s) v (trace s).
Arguments set_TCNT1 v s /.

Definition set_trace (v : list event) (s : State) : State :=
  mkState (gps_input_buffer s) (gps_input_read s) (gps_input_write s)
    (gps_packet_type s) (gps_packet_length s) (gps_packet s)
    (gps_magellan_length s) (gps_magellan_locked s) (bytes_to_sync s)
    (gps_state s) (countdown_mode s) (exposure_total s) (exposure_count s)
    (exposure_syncing s) (gps_record_synctime s) (gps_last_timestamp s)
    (gps_last_synctime s) (TCNT1 s) v.
Arguments set_trace v s /.

(** Reduce projections of updated states, and nothing else. *)
Ltac state_simpl :=
  cbn [gps_input_buffer gps_input_read gps_input_write gps_packet_type
       gps_packet_length gps_packet gps_magellan_length gps_magellan_locked
       bytes_to_sync gps_state countdown_mode exposure_total exposure_count
       exposure_syncing gps_record_synctime gps_last_timestamp
       gps_last_synctime TCNT1 trace set_gps_input_buffer set_gps_input_read
       set_gps_input_write set_gps_packet_type set_gps_packet_length
       set_gps_packet set_gps_magellan_length set_gps_magellan_locked
       set_bytes_to_sync set_gps_state set_countdown_mode set_exposure_count
       set_gps_record_synctime set_gps_last_timestamp set_gps_last_synctime
       set_TCNT1 set_trace] in *.

Definition emit (e : event) (s : State) : State :=
  set_trace (trace s ++ [e]) s.
Arguments emit e s /.

Ltac st := unfold emit in *; state_simpl.

(** State at the end of [main]'s initialisation: [gps_init] has run and the
    statics have their initialisers. *)
Definition initial_state : State :=
  mkState (repeat 0 256) 0 0 UNKNOWN_PACKET 0 (repeat 0 32) 0 false 0
    GPS_UNAVAILABLE COUNTDOWN_DISABLED 0 0 true false
    (mkTimestamp 0 0 0 0 0 0 false) (mkTimestamp 0 0 0 0 0 0 false)
    TCNT1_RELOAD [].

(** ** Leap years and the epoch correction of the Magellan decoder *)

(** [is_leap_year] of gps.c. *)
Definition is_leap_year (y : Z) : bool :=
  if negb (y mod 4 =? 0) then false
  else if negb (y mod 100 =? 0) then true
  else if negb (y mod 400 =? 0) then false else true.

(** The initialiser of the array [days[13]]: twelve month lengths, the
    thirteenth element is zero. *)
Definition days_init : list Z :=
  [31; 28; 31; 30; 31; 30; 31; 31; 30; 31; 30; 31; 0].

(** [days[1] = is_leap_year(year) ? 29 : 28]. *)
Definition set_february (days : list Z) (y : Z) : list Z :=
  list_set days 1 (if is_leap_year y then 29 else 28).

(** The [while] loop of the correction.  [y] is an [unsigned int], [m], [d]
    and [c] (month, day, correction) are [unsigned char]; [d + c] is
    computed in [int]. *)
Fixpoint epoch_loop (fuel : nat) (days : list Z) (y m d c : Z)
  : result (Z * Z * Z) :=
  dm <- array_get days (m - 1) ;;
  if d + c >? dm then
    match fuel with
    | O => Fuel
    | S fuel' =>
        let m1 := u8 (m + 1) in
        let '(m2, y2, days2) :=
          if m1 >? 12 then (1, u16 (y + 1), set_february days (u16 (y + 1)))
          else (m1, y, days) in
        dm2 <- array_get days2 (m2 - 1) ;;
        epoch_loop fuel' days2 y2 m2 d (u8 (c - dm2))
    end
  else Ok (y, m, u8 (d + c)).

(** The correction block: add 19 years, then run the loop with a
    correction of 229 days.  [days] is a static array, but its only
    element that is ever written, [days[1]], is written here before the
    first read, so the block starts from the initialiser.  The result is
    (year, month, day). *)
Definition epoch_correction (fuel : nat) (raw_year raw_month raw_day : Z)
  : result (Z * Z * Z) :=
  let y := u16 (raw_year + 19) in
  epoch_loop fuel (set_february days_init y) y raw_month raw_day 229.

Section Firmware.

(** The exposure counters are declared in [main.h], which is not among the
    sources: their width is a parameter.  [counter_modulus] is two to the
    number of bits of [exposure_count]. *)
Variable counter_modulus : Z.

(** ** The PPS interrupt of main.c *)

(** [SIGNAL(SIG_INTERRUPT0)]. *)
Definition SIG_INTERRUPT0 (s : State) : State :=
  match gps_state s, exposure_syncing s with
  | GPS_TIME_GOOD, false =>
      let s1 := set_exposure_count ((exposure_count s - 1) mod counter_modulus) s in
      if exposure_count s1 =? 0 then
        emit TriggerDownload
          (set_gps_record_synctime true
             (set_exposure_count (exposure_total s1) s1))
      else s1
  | _, _ => s
  end.

(** ** Publishing a timestamp *)

(** Modelled from the spec: [trigger_countdown] is called by [set_time] but
    defined in the revision of main.c that has [countdown_mode], which is
    not among the sources.  Section 4.5: decrement the remaining
    exposure-window counter; if it reaches zero, reset the counter to the
    full exposure length, mark that the next valid timestamp is the
    synchronised exposure start, trigger the download signal; transition
    to Triggered.  The transition is modelled as part of every tick, not
    only of the last one of an exposure: [set_time] re-enables the counter
    "for the next PPS pulse" on every timestamp and takes a timestamp that
    finds the mode still Enabled for a missed pulse. *)
Definition trigger_countdown (s : State) : State :=
  let s1 := set_exposure_count ((exposure_count s - 1) mod counter_modulus) s in
  let s2 :=
    if exposure_count s1 =? 0 then
      emit TriggerDownload
        (set_gps_record_synctime true
           (set_exposure_count (exposure_total s1) s1))
    else s1 in
  set_countdown_mode COUNTDOWN_TRIGGERED s2.

(** Modelled from the spec: the PPS handler of the same revision; only the
    Enabled mode reacts to an edge (section 4.5). *)
Definition pps_edge (s : State) : State :=
  match countdown_mode s with
  | COUNTDOWN_ENABLED => trigger_countdown s
  | _ => s
  end.

(** [set_time] of gps.c.  [cli()] and [sei()] only mask interrupts and
    leave no mark in a sequential model.  The remainder by
    [exposure_total] is undefined in C when the divisor is zero. *)
Definition set_time (t : timestamp) (s : State) : result State :=
  let s1 :=
    match countdown_mode s with
    | COUNTDOWN_TRIGGERED => set_countdown_mode COUNTDOWN_ENABLED s
    | COUNTDOWN_ENABLED =>
        emit (DebugString gps_msg_missed_pps) (trigger_countdown s)
    | _ => s
    end in
  let s2 := set_gps_state GPS_ACTIVE (set_gps_last_timestamp t s1) in
  s3 <- match countdown_mode s2 with
        | COUNTDOWN_SYNCING =>
            if exposure_total s2 =? 0 then Undef
            else if seconds (gps_last_timestamp s2) mod exposure_total s2 =? 0
                 then Ok (set_countdown_mode COUNTDOWN_ENABLED s2)
                 else Ok s2
        | _ => Ok s2
        end ;;
  let s4 :=
    if gps_record_synctime s3 then
      emit SendDownloadTimestamp
        (set_gps_record_synctime false
           (set_gps_last_synctime (gps_last_timestamp s3) s3))
    else s3 in
  Ok (emit SendTimestamp s4).

(** ** Watchdog and receive interrupts *)

(** [ISR(TIMER1_OVF_vect)]. *)
Definition TIMER1_OVF_vect (s : State) : State :=
  emit (DebugString gps_msg_lost_serial) (set_gps_state GPS_UNAVAILABLE s).

(** [ISR(USART1_RX_vect)]; [udr1] is the byte read from the data
    register. *)
Definition USART1_RX_vect (udr1 : Z) (s : State) : result State :=
  let s1 := set_TCNT1 TCNT1_RELOAD s in
  let s2 :=
    match gps_state s1 with
    | GPS_UNAVAILABLE => set_gps_state GPS_SYNCING s1
    | _ => s1
    end in
  b <- array_set (gps_input_buffer s2) (gps_input_write s2) udr1 ;;
  Ok (set_gps_input_write (u8 (gps_input_write s2 + 1))
        (set_gps_input_buffer b s2)).

(** ** gps_process_buffer *)

(** [gps_input_buffer[(unsigned char)(gps_input_read - k)]]. *)
Definition behind (s : State) (k : Z) : Z :=
  idx (gps_input_buffer s) (u8 (gps_input_read s - k)).

(** The increment of the synchronising [for]:
    [gps_input_read++, bytes_to_sync++]. *)
Definition sync_next (s : State) : State :=
  set_bytes_to_sync (u8 (bytes_to_sync s + 1))
    (set_gps_input_read (u8 (gps_input_read s + 1)) s).

(** Tail of the Magellan branch once the sentence type is known. *)
Definition sync_magellan (t : packet_type) (len : Z) (s : State) : State :=
  let s1 := set_gps_magellan_length len (set_gps_packet_type t s) in
  let s2 :=
    if bytes_to_sync s1 >? 3
    then emit (DebugSkippedBytes (bytes_to_sync s1)) s1 else s1 in
  set_gps_input_read (u8 (gps_input_read s2 - 2)) (set_bytes_to_sync 0 s2).

(** "Sync to the start of a packet if necessary". *)
Fixpoint sync_loop (fuel : nat) (temp_write : Z) (s : State) : result State :=
  if is_unknown (gps_packet_type s) && negb (gps_input_read s =? temp_write)
  then
    match fuel with
    | O => Fuel
    | S fuel' =>
        if (behind s 1 =? chr_dollar) && (behind s 2 =? chr_dollar)
           && (behind s 3 =? 0x0A)
        then
          if behind s 0 =? chr_A
          then Ok (sync_magellan MAGELLAN_TIME_PACKET 13 s)
          else if behind s 0 =? chr_H
          then Ok (sync_magellan MAGELLAN_STATUS_PACKET 16 s)
          else sync_loop fuel' temp_write
                 (sync_next (emit (DebugString gps_msg_unknown_mgl_packet) s))
        else if (behind s 0 =? 0xAB) && (behind s 1 =? 0x8F)
                && (behind s 2 =? DLE) && (behind s 3 =? ETX)
                && (behind s 4 =? DLE)
        then Ok (set_gps_input_read (u8 (gps_input_read s - 2))
                   (set_gps_packet_type TRIMBLE_PACKET s))
        else sync_loop fuel' temp_write (sync_next s)
    end
  else Ok s.

(** [gps_packet[gps_packet_length++] = gps_input_buffer[gps_input_read]]. *)
Definition store_packet_byte (s : State) : result State :=
  p <- array_set (gps_packet s) (gps_packet_length s) (behind s 0) ;;
  Ok (set_gps_packet_length (u8 (gps_packet_length s + 1))
        (set_gps_packet p s)).

(** "Reset for next packet". *)
Definition reset_packet (s : State) : State :=
  set_gps_packet_length 0 (set_gps_packet_type UNKNOWN_PACKET s).

Definition bad_packet (s : State) : State :=
  emit (DebugRaw (firstn (Z.to_nat (gps_packet_length s)) (gps_packet s)))
    (emit (DebugString gps_msg_bad_packet) s).

(** [((hi << 8) & 0xFF00) | (lo & 0x00FF)]. *)
Definition be16 (hi lo : Z) : Z :=
  Z.lor (Z.land (Z.shiftl hi 8) 0xFF00) (Z.land lo 0x00FF).

(** The compound literal handed to [set_time] by the Trimble decoder. *)
Definition trimble_timestamp (p : list Z) : timestamp :=
  mkTimestamp (idx p 14) (idx p 13) (idx p 12) (idx p 15) (idx p 16)
    (be16 (idx p 17) (idx p 18)) (idx p 11 =? 0x03).

(** Body of [if (gps_packet_length == 21)] in the Trimble decoder. *)
Definition trimble_complete (s : State) : result State :=
  s1 <- (if (idx (gps_packet s) 20 =? ETX) && (idx (gps_packet s) 19 =? DLE)
         then set_time (trimble_timestamp (gps_packet s)) s
         else Ok (bad_packet s)) ;;
  Ok (reset_packet s1).

(** The Trimble [for] loop.  [Some b] in the result: the routine returned
    [b] from inside the loop; [None]: the loop was left. *)
Fixpoint trimble_loop (fuel : nat) (temp_write : Z) (s : State)
  : result (State * option bool) :=
  if gps_input_read s =? temp_write then Ok (s, None)
  else
    match fuel with
    | O => Fuel
    | S fuel' =>
        let s1 :=
          if (behind s 0 =? DLE) && (behind s 1 =? DLE)
          then set_gps_input_read (u8 (gps_input_read s + 1)) s else s in
        if gps_input_read s1 =? temp_write then Ok (s1, None)
        else
          s2 <- store_packet_byte s1 ;;
          if gps_packet_length s2 =? 21 then
            s3 <- trimble_complete s2 ;;
            Ok (s3, Some true)
          else
            trimble_loop fuel' temp_write
              (set_gps_input_read (u8 (gps_input_read s2 + 1)) s2)
    end.

(** The checksum loop: [csm = gps_packet[2]], then
    [for (i = 3; i < len - 2; i++) csm ^= gps_packet[i]]. *)
Definition magellan_checksum (p : list Z) (len : Z) : Z :=
  fold_left (fun csm i => Z.lxor csm (idx p (Z.of_nat i)))
    (seq 3 (Z.to_nat (len - 2 - 3))) (idx p 2).

(** Body of [if (gps_packet_length == gps_magellan_length)] up to, and
    without, the reset: the new state and [updated].  [fuel] bounds the
    loop of the epoch correction. *)
Definition magellan_complete (fuel : nat) (s : State)
  : result (State * bool) :=
  let p := gps_packet s in
  let len := gps_packet_length s in
  last <- array_get p (len - 1) ;;
  if last =? 0x0A then
    let csm := magellan_checksum p len in
    stored <- array_get p (len - 2) ;;
    if csm =? stored then
      match gps_packet_type s with
      | MAGELLAN_TIME_PACKET =>
          ' (y, m, d) <- epoch_correction fuel
                           (be16 (idx p 9) (idx p 10)) (idx p 8) (idx p 7) ;;
          s1 <- set_time
                  (mkTimestamp (idx p 4) (idx p 5) (idx p 6) d m y
                     (gps_magellan_locked s)) s ;;
          Ok (s1, true)
      | MAGELLAN_STATUS_PACKET =>
          let l := idx p 13 =? 6 in
          if negb (eqb (gps_magellan_locked s) l)
          then Ok (set_gps_magellan_locked l s, true)
          else Ok (s, false)
      | _ => Ok (bad_packet s, false)
      end
    else
      Ok (emit (DebugRaw (firstn (Z.to_nat len) p))
            (emit (DebugChecksumFailed csm stored) s), false)
  else Ok (bad_packet s, false).

(** The Magellan [for] loop, results as for [trimble_loop]. *)
Fixpoint magellan_loop (fuel : nat) (efuel : nat) (temp_write : Z) (s : State)
  : result (State * option bool) :=
  if gps_input_read s =? temp_write then Ok (s, None)
  else
    match fuel with
    | O => Fuel
    | S fuel' =>
        s1 <- store_packet_byte s ;;
        if gps_packet_length s1 =? gps_magellan_length s1 then
          ' (s2, updated) <- magellan_complete efuel s1 ;;
          Ok (reset_packet s2, Some updated)
        else
          magellan_loop fuel' efuel temp_write
            (set_gps_input_read (u8 (gps_input_read s1 + 1)) s1)
    end.

Definition returned (r : option bool) : bool :=
  match r with Some b => b | None => false end.

(** [gps_process_buffer].  The two loops over the receive buffer get 256
    iterations, which they never use up ([process_loops_bounded] below);
    [fuel] bounds the loop of the epoch correction, which need not
    terminate. *)
Definition gps_process_buffer (fuel : nat) (s : State) : result (State * bool) :=
  let temp_write := gps_input_write s in
  if gps_input_read s =? temp_write then Ok (s, false)
  else
    s1 <- sync_loop 256 temp_write s ;;
    match gps_packet_type s1 with
    | UNKNOWN_PACKET => Ok (s1, false)
    | TRIMBLE_PACKET =>
        ' (s2, r) <- trimble_loop 256 temp_write s1 ;;
        Ok (s2, returned r)
    | MAGELLAN_TIME_PACKET | MAGELLAN_STATUS_PACKET =>
        ' (s2, r) <- magellan_loop 256 fuel temp_write s1 ;;
        Ok (s2, returned r)
    end.


(** ** Auxiliary definitions used by the statements *)

(** XOR of all bytes of a list, and the bytes at indices [a] to [b - 1]. *)
Definition xor_all (l : list Z) : Z := fold_right Z.lxor 0 l.

Definition slice (p : list Z) (a b : nat) : list Z :=
  firstn (b - a) (skipn a p).

(** The checksum as the spec words it: over the span strictly between the
    sentence-type byte (index 2) and the checksum byte (index [len - 2]). *)
Definition checksum_exclusive (p : list Z) (len : Z) : Z :=
  xor_all (slice p 3 (Z.to_nat (len - 2))).

(** The checksum over the span that starts at the sentence-type byte and
    stops before the checksum byte. *)
Definition checksum_from_type_byte (p : list Z) (len : Z) : Z :=
  xor_all (slice p 2 (Z.to_nat (len - 2))).

(** The two checks a completed sentence has to pass. *)
Definition sentence_valid (p : list Z) (len : Z) : bool :=
  (idx p (len - 1) =? 0x0A) && (magellan_checksum p len =? idx p (len - 2)).

(** Number of unread bytes between the read cursor and [temp_write]. *)
Definition unread (temp_write : Z) (s : State) : Z :=
  u8 (temp_write - gps_input_read s).

(** Shape of the receive ring and of the packet buffer. *)
Definition buffers_ok (s : State) : Prop :=
  length (gps_input_buffer s) = 256%nat /\
  length (gps_packet s) = 32%nat /\
  0 <= gps_input_read s < 256 /\
  0 <= gps_input_write s < 256.

(** One pass of a decoder loop that stores the current byte, and the
    [gps_input_read++] of the loop header. *)
Definition take_byte (s : State) : State :=
  set_gps_packet_length (gps_packet_length s + 1)
    (set_gps_packet
       (list_set (gps_packet s) (Z.to_nat (gps_packet_length s)) (behind s 0))
       s).

Definition advance (s : State) : State :=
  set_gps_input_read (u8 (gps_input_read s + 1)) s.

(** The state in which the Magellan loop finds the sentence complete after
    storing [n] more bytes: the cursor is left on the last of them. *)
Fixpoint accumulate (n : nat) (s : State) : State :=
  match n with
  | O => s
  | S k =>
      match k with
      | O => take_byte s
      | S _ => accumulate k (advance (take_byte s))
      end
  end.

(** Drivers for whole runs: bytes arriving one interrupt at a time, and the
    main loop calling [gps_process_buffer] [n] times, or once after every
    received byte.  [updates] counts the calls that returned TRUE. *)
Fixpoint receive (bytes : list Z) (s : State) : result State :=
  match bytes with
  | [] => Ok s
  | b :: rest => s1 <- USART1_RX_vect b s ;; receive rest s1
  end.

Fixpoint process (fuel : nat) (n : nat) (s : State) : result (State * nat) :=
  match n with
  | O => Ok (s, O)
  | S k =>
      ' (s1, r) <- gps_process_buffer fuel s ;;
      ' (s2, c) <- process fuel k s1 ;;
      Ok (s2, ((if r : bool then 1 else 0) + c)%nat)
  end.

Fixpoint receive_and_process (fuel : nat) (bytes : list Z) (s : State)
  : result (State * nat) :=
  match bytes with
  | [] => Ok (s, O)
  | b :: rest =>
      s1 <- USART1_RX_vect b s ;;
      ' (s2, r) <- gps_process_buffer fuel s1 ;;
      ' (s3, c) <- receive_and_process fuel rest s2 ;;
      Ok (s3, ((if r : bool then 1 else 0) + c)%nat)
  end.

(** What the Magellan loop does with a complete sentence. *)
Definition magellan_finish (efuel : nat) (s : State)
  : result (State * option bool) :=
  ' (s2, updated) <- magellan_complete efuel s ;;
  Ok (reset_packet s2, Some updated).

(** Iterating the interrupt handlers. *)
Fixpoint pps_edges (n : nat) (s : State) : State :=
  match n with
  | O => s
  | S k => pps_edges k (SIG_INTERRUPT0 s)
  end.

Fixpoint watchdog_overflows (n : nat) (s : State) : State :=
  match n with
  | O => s
  | S k => watchdog_overflows k (TIMER1_OVF_vect s)
  end.

(** Two states that differ at most in the packet accumulator (bytes and
    length) and the read cursor. *)
Definition same_but_accumulator (s s' : State) : Prop :=
  gps_input_buffer s' = gps_input_buffer s /\
  gps_input_write s' = gps_input_write s /\
  gps_packet_type s' = gps_packet_type s /\
  gps_magellan_length s' = gps_magellan_length s /\
  gps_magellan_locked s' = gps_magellan_locked s /\
  bytes_to_sync s' = bytes_to_sync s /\
  gps_state s' = gps_state s /\
  countdown_mode s' = countdown_mode s /\
  exposure_total s' = exposure_total s /\
  exposure_count s' = exposure_count s /\
  exposure_syncing s' = exposure_syncing s /\
  gps_record_synctime s' = gps_record_synctime s /\
  gps_last_timestamp s' = gps_last_timestamp s /\
  gps_last_synctime s' = gps_last_synctime s /\
  TCNT1 s' = TCNT1 s /\
  trace s' = trace s.

(** Two states with the same receive ring and the same decoder statics. *)
Definition same_decoder (s s' : State) : Prop :=
  gps_input_buffer s' = gps_input_buffer s /\
  gps_input_read s' = gps_input_read s /\
  gps_input_write s' = gps_input_write s /\
  gps_packet_type s' = gps_packet_type s /\
  gps_packet_length s' = gps_packet_length s /\
  gps_packet s' = gps_packet s /\
  gps_magellan_length s' = gps_magellan_length s /\
  gps_magellan_locked s' = gps_magellan_locked s /\
  bytes_to_sync s' = bytes_to_sync s.

(** The calendar, to state what the epoch correction is for: the length
    of a month, the day after a date, and a date advanced by 19 years and
    229 days.  Dates are (year, month, day). *)
Definition month_length (y m : Z) : Z :=
  if m =? 2 then (if is_leap_year y then 29 else 28) else idx days_init (m - 1).

Definition valid_date (date : Z * Z * Z) : Prop :=
  let '(y, m, d) := date in 1 <= m <= 12 /\ 1 <= d <= month_length y m.

Definition next_day (date : Z * Z * Z) : Z * Z * Z :=
  let '(y, m, d) := date in
  if d <? month_length y m then (y, m, d + 1)
  else if m <? 12 then (y, m + 1, 1)
  else (y + 1, 1, 1).

Fixpoint add_days (n : nat) (date : Z * Z * Z) : Z * Z * Z :=
  match n with
  | O => date
  | S k => add_days k (next_day date)
  end.

Definition advance_19_years_229_days (raw_year raw_month raw_day : Z)
  : Z * Z * Z :=
  add_days 229 (raw_year + 19, raw_month, raw_day).

(** A test over every day 1..31 of every month of [n] years from [y0]. *)
Definition is_ok {A : Type} (r : result A) : bool :=
  match r with Ok _ => true | _ => false end.

Definition every_day (test : Z -> Z -> Z -> bool) (y0 : Z) (n : nat) : bool :=
  forallb (fun y =>
    forallb (fun m =>
      forallb (fun d => test (y0 + Z.of_nat y) (Z.of_nat m) (Z.of_nat d))
        (seq 1 31))
      (seq 1 12))
    (seq 0 n).

(** ** The Trimble framing, to state what the decoder is for *)

(** DLE stuffing as the spec describes it: a data byte equal to the
    framing byte is sent twice. *)
Definition stuff (data : list Z) : list Z :=
  flat_map (fun b => if b =? DLE then [DLE; DLE] else [b]) data.

(** The decoded packet (21 bytes when [data] has 18) and its bytes on the
    wire: the framing byte, the data, stuffed, and the terminator pair. *)
Definition trimble_packet (data : list Z) : list Z :=
  DLE :: data ++ [DLE; ETX].

Definition trimble_wire (data : list Z) : list Z :=
  DLE :: stuff data ++ [DLE; ETX].

(** The unread bytes of the ring, from the read cursor on, start with
    [w]. *)
Definition ring_holds (s : State) (w : list Z) : Prop :=
  forall i : nat, (i < length w)%nat ->
    idx (gps_input_buffer s) (u8 (gps_input_read s + Z.of_nat i)) = nth i w 0.

(** The Trimble loop from the point where it stores a byte: the rest of
    one pass, and the passes that follow. *)
Definition trimble_store (fuel : nat) (temp_write : Z) (s1 : State)
  : result (State * option bool) :=
  if gps_input_read s1 =? temp_write then Ok (s1, None)
  else
    s2 <- store_packet_byte s1 ;;
    if gps_packet_length s2 =? 21 then
      s3 <- trimble_complete s2 ;;
      Ok (s3, Some true)
    else
      trimble_loop fuel temp_write
        (set_gps_input_read (u8 (gps_input_read s2 + 1)) s2).

(** What one call of the Trimble loop stores out of the unread bytes [w],
    starting at a byte it stores: a 0x10 that follows a stored 0x10 is
    dropped and the byte after it is stored whatever it is.  [None]: the
    bytes end on a dropped byte. *)
Fixpoint unstuff (w : list Z) : option (list Z) :=
  match w with
  | [] => Some []
  | b :: rest =>
      match rest with
      | [] => Some [b]
      | c :: rest' =>
          if (c =? DLE) && (b =? DLE) then
            match rest' with
            | [] => None
            | _ :: _ => option_map (cons b) (unstuff rest')
            end
          else option_map (cons b) (unstuff rest)
      end
  end.

(** The state the loop is in when it has stored the last byte of [w]. *)
Fixpoint trimble_fill (w : list Z) (s : State) : State :=
  match w with
  | [] => s
  | b :: rest =>
      match rest with
      | [] => take_byte s
      | c :: rest' =>
          if (c =? DLE) && (b =? DLE)
          then trimble_fill rest' (advance (advance (take_byte s)))
          else trimble_fill rest (advance (take_byte s))
      end
  end.

(** ** Concrete streams and states for the worked runs *)

Definition no_timestamp : timestamp := mkTimestamp 0 0 0 0 0 0 false.

(** The terminator of the packet that came before. *)
Definition trimble_previous_end : list Z := [0x10; 0x03].

(** A Trimble timing packet as sent on the wire: 16:30:00 on 16 March
    2012, timing flag 3; the hour byte and the day byte are both 0x10 and
    are sent doubled. *)
Definition trimble_1630_on_16th : list Z :=
  [0x10; 0x8F; 0xAB; 0x00; 0x04; 0xE2; 0x64; 0x06; 0x8D; 0x00; 0x0F;
   0x03; 0x00; 0x1E; 0x10; 0x10; 0x10; 0x10; 0x03; 0x07; 0xDC; 0x10; 0x03].

(** The start of a Trimble timing packet for 12:30:00 on 15 March 2064, up
    to the high byte of the year; the low byte is 0x10, so the packet goes
    on with 0x10 0x10 (doubled) and the terminator 0x10 0x03. *)
Definition trimble_2064_head : list Z :=
  [0x10; 0x8F; 0xAB; 0x00; 0x04; 0xE2; 0x64; 0x06; 0x8D; 0x00; 0x0F;
   0x03; 0x00; 0x1E; 0x0C; 0x0F; 0x03; 0x08].

(** Magellan sentences with a given checksum byte: a status sentence with
    byte 13 equal to 6, and a time sentence for 12:30:00 on raw date
    1 January 1993.  Their computed checksums are 79 and 157. *)
Definition status_sentence (csum : Z) : list Z :=
  [0x24; 0x24; 0x48; 0x00; 1; 2; 3; 4; 5; 6; 7; 8; 9; 6; csum; 0x0A].

Definition time_sentence (csum : Z) : list Z :=
  [0x24; 0x24; 0x41; 0x00; 12; 30; 0; 1; 1; 0x07; 0xC9; csum; 0x0A].

Definition pad (l : list Z) (n : nat) : list Z :=
  l ++ repeat 0 (n - length l).

(** The decoder about to accumulate a sentence whose bytes are all unread
    at the start of the ring. *)
Definition sentence_unread (t : packet_type) (bytes : list Z) : State :=
  mkState (pad bytes 256) 0 (Z.of_nat (length bytes)) t 0 (repeat 0 32)
    (Z.of_nat (length bytes)) false 0 GPS_SYNCING COUNTDOWN_DISABLED 0 0
    true false no_timestamp no_timestamp TCNT1_RELOAD [].

(** The decoder with a sentence just completed in the packet buffer. *)
Definition sentence_complete (t : packet_type) (bytes : list Z) : State :=
  mkState (repeat 0 256) 0 0 t (Z.of_nat (length bytes)) (pad bytes 32)
    (Z.of_nat (length bytes)) false 0 GPS_SYNCING COUNTDOWN_DISABLED 0 0
    true false no_timestamp no_timestamp TCNT1_RELOAD [].

(** The exposure controller in a given link state and mode. *)
Definition controller_state (g : gps_state_t) (mode : countdown_mode_t)
    (total count : Z) (syncing : bool) : State :=
  mkState (repeat 0 256) 0 0 UNKNOWN_PACKET 0 (repeat 0 32) 0 false 0
    g mode total count syncing false no_timestamp no_timestamp
    TCNT1_RELOAD [].

(** The data bytes (after 0x8F 0xAB) of the packet for 16:30:00 on the
    16th, before stuffing. *)
Definition data_1630_on_16th : list Z :=
  [0x00; 0x04; 0xE2; 0x64; 0x06; 0x8D; 0x00; 0x0F; 0x03; 0x00; 0x1E; 0x10;
   0x10; 0x03; 0x07; 0xDC].

(** The previous terminator and the packet for 16:30:00 on the 16th in
    the ring, all of the packet unread, the cursor on the ETX. *)
Definition packet_1630_unread : State :=
  mkState (pad (trimble_previous_end ++ trimble_1630_on_16th) 256) 1 25
    UNKNOWN_PACKET 0 (repeat 0 32) 0 false 0 GPS_SYNCING COUNTDOWN_DISABLED
    0 0 true false no_timestamp no_timestamp TCNT1_RELOAD [].

(** A time sentence for 12:30:00 on the raw date 15 January 1980, with its
    checksum 230. *)
Definition time_sentence_1980 : list Z :=
  [0x24; 0x24; 0x41; 0x00; 12; 30; 0; 15; 1; 0x07; 0xBC; 230; 0x0A].

Definition armed_three : State :=
  controller_state GPS_TIME_GOOD COUNTDOWN_ENABLED 3 3 false.

Definition enabled_five_of_ten : State :=
  controller_state GPS_ACTIVE COUNTDOWN_ENABLED 10 5 false.

Definition timestamp_1630 : timestamp := mkTimestamp 16 30 0 16 3 2012 true.

(** Five bytes of a Trimble packet accumulated. *)
Definition partial_trimble : State :=
  sentence_complete TRIMBLE_PACKET [0x10; 0x8F; 0xAB; 0x01; 0x02].

(** ** The transmit side of gps.c *)

Section Transmit.

(** Bit numbers of the control register [UCSR1B].  [<avr/io.h>] defines
    them for the chip the firmware is built for; the model takes them as
    given. *)
Variables UDRIE1 RXEN1 TXEN1 RXCIE1 : Z.

(** The macro [_BV(bit)]: [1 << bit]. *)
Definition _BV (bit : Z) : Z := Z.shiftl 1 bit.

(** The send queue, the control register, and every byte assigned to the
    data register [UDR1], oldest first. *)
Record Transmitter : Type := mkTransmitter {
  gps_output_buffer : list Z;
  gps_output_read : Z;
  gps_output_write : Z;
  UCSR1B : Z;
  UDR1 : list Z
}.

Definition set_UCSR1B (v : Z) (tx : Transmitter) : Transmitter :=
  mkTransmitter (gps_output_buffer tx) (gps_output_read tx)
    (gps_output_write tx) v (UDR1 tx).

(** [queue_send_byte].  The comparison is made in [int], so
    [gps_output_read - 1] is -1, and never equal to the write cursor, when
    the read cursor is 0.  The waiting loop has no body: only the transmit
    interrupt can end it, and a call of the model, which contains no
    interrupt, does not return from it ([Fuel]). *)
Definition queue_send_byte (b : Z) (tx : Transmitter) : result Transmitter :=
  if gps_output_write tx =? gps_output_read tx - 1 then Fuel
  else
    buf <- array_set (gps_output_buffer tx) (gps_output_write tx) b ;;
    Ok (mkTransmitter buf (gps_output_read tx) (u8 (gps_output_write tx + 1))
          (if Z.land (UCSR1B tx) (_BV UDRIE1) =? 0
           then u8 (Z.lor (UCSR1B tx) (_BV UDRIE1))
           else UCSR1B tx)
          (UDR1 tx)).

(** [ISR(USART1_UDRE_vect)]. *)
Definition USART1_UDRE_vect (tx : Transmitter) : result Transmitter :=
  tx1 <- (if negb (gps_output_write tx =? gps_output_read tx) then
            b <- array_get (gps_output_buffer tx) (gps_output_read tx) ;;
            Ok (mkTransmitter (gps_output_buffer tx)
                  (u8 (gps_output_read tx + 1)) (gps_output_write tx)
                  (UCSR1B tx) (UDR1 tx ++ [b]))
          else Ok tx) ;;
  Ok (if gps_output_write tx1 =? gps_output_read tx1
      then set_UCSR1B (u8 (Z.land (UCSR1B tx1) (Z.lnot (_BV UDRIE1)))) tx1
      else tx1).

(** [gps_init], as far as it writes what the model holds: the control
    register, the watchdog timer and the two globals.  The baud rate, the
    frame format and the prescaler are not read back by the firmware. *)
Definition gps_init (s : State) (tx : Transmitter) : State * Transmitter :=
  (set_gps_state GPS_UNAVAILABLE
     (set_gps_record_synctime false (set_TCNT1 TCNT1_RELOAD s)),
   set_UCSR1B (u8 (Z.lor (Z.lor (_BV RXEN1) (_BV TXEN1)) (_BV RXCIE1))) tx).

(** The bytes of a string literal. *)
Definition flash_string (s : String.string) : list Z :=
  map (fun c => Z.of_N (Ascii.N_of_ascii c)) (String.list_ascii_of_string s).

(** One line of [mgl_init]: the text, then ["\r\n"]. *)
Definition mgl_line (s : String.string) : list Z :=
  flash_string s ++ [0x0D; 0x0A].

(** "Init Trimble: Enable only the 8F-AB primary timing packet". *)
Definition trimble_init : list Z :=
  [0x10; 0x8E; 0xA5; 0x00; 0x01; 0x00; 0x00; 0x10; 0x03].

(** [mgl_init], with the terminating zero of the string literal. *)
Definition mgl_init : list Z :=
  mgl_line "$PMGLI,00,G00,0,A"%string ++
  mgl_line "$PMGLI,00,B00,0,A"%string ++
  mgl_line "$PMGLI,00,B02,0,A"%string ++
  mgl_line "$PMGLI,00,D00,0,A"%string ++
  mgl_line "$PMGLI,00,E00,0,A"%string ++
  mgl_line "$PMGLI,00,F02,0,A"%string ++
  mgl_line "$PMGLI,00,R04,0,A"%string ++
  mgl_line "$PMGLI,00,S01,0,A"%string ++
  mgl_line "$PMGLI,00,A00,2,B"%string ++
  mgl_line "$PMGLI,00,H00,2,B"%string ++ [0].

(** [for (unsigned char i = 0; i < 9; i++)
       queue_send_byte(pgm_read_byte(&trimble_init[i]))]. *)
Fixpoint send_trimble_init (fuel : nat) (i : Z) (tx : Transmitter)
  : result Transmitter :=
  if i <? 9 then
    match fuel with
    | O => Fuel
    | S fuel' =>
        b <- array_get trimble_init i ;;
        tx1 <- queue_send_byte b tx ;;
        send_trimble_init fuel' (u8 (i + 1)) tx1
    end
  else Ok tx.

(** [do { queue_send_byte(b); b = pgm_read_byte(&mgl_init[++i]); }
    while (b != '\0')]. *)
Fixpoint send_mgl_init (fuel : nat) (i b : Z) (tx : Transmitter)
  : result Transmitter :=
  tx1 <- queue_send_byte b tx ;;
  b1 <- array_get mgl_init (u8 (i + 1)) ;;
  if negb (b1 =? 0) then
    match fuel with
    | O => Fuel
    | S fuel' => send_mgl_init fuel' (u8 (i + 1)) b1 tx1
    end
  else Ok tx1.

(** [send_gps_config].  The index is an [unsigned char]: neither loop can
    make more than 256 passes without repeating itself. *)
Definition send_gps_config (tx : Transmitter) : result Transmitter :=
  tx1 <- send_trimble_init 256 0 tx ;;
  b <- array_get mgl_init 0 ;;
  send_mgl_init 256 0 b tx1.

(** Shape of the send queue and of the eight-bit control register. *)
Definition tx_ok (tx : Transmitter) : Prop :=
  length (gps_output_buffer tx) = 256%nat /\
  0 <= gps_output_read tx < 256 /\
  0 <= gps_output_write tx < 256 /\
  0 <= UCSR1B tx < 256.

(** The number of bytes between the two cursors, and those bytes, oldest
    first. *)
Definition queued (tx : Transmitter) : Z :=
  u8 (gps_output_write tx - gps_output_read tx).

Definition pending (tx : Transmitter) : list Z :=
  map (fun i => idx (gps_output_buffer tx)
                  (u8 (gps_output_read tx + Z.of_nat i)))
    (seq 0 (Z.to_nat (queued tx))).

(** The test [queue_send_byte] makes before it switches the interrupt
    on. *)
Definition udrie (tx : Transmitter) : bool :=
  negb (Z.land (UCSR1B tx) (_BV UDRIE1) =? 0).

(** The interrupt is on exactly when the queue holds a byte. *)
Definition tx_idle_or_sending (tx : Transmitter) : Prop :=
  udrie tx = negb (queued tx =? 0).

(** Runs of the transmit side: the main loop queues a byte, or the data
    register becomes empty, which calls the handler when the interrupt is
    enabled. *)
Inductive tx_action : Type :=
| Queue (b : Z)
| DataRegisterEmpty.

Definition tx_step (a : tx_action) (tx : Transmitter) : result Transmitter :=
  match a with
  | Queue b => queue_send_byte b tx
  | DataRegisterEmpty => if udrie tx then USART1_UDRE_vect tx else Ok tx
  end.

Fixpoint tx_run (acts : list tx_action) (tx : Transmitter)
  : result Transmitter :=
  match acts with
  | [] => Ok tx
  | a :: rest => tx1 <- tx_step a tx ;; tx_run rest tx1
  end.

Definition queued_bytes (acts : list tx_action) : list Z :=
  flat_map (fun a => match a with Queue b => [b] | DataRegisterEmpty => [] end)
    acts.

(** The queue has room for every byte of a run: each [queue_send_byte]
    finds fewer than 255 bytes pending, where [q] bytes are pending at the
    start, a call adds one and a data-register-empty event takes one away
    unless the queue is empty. *)
Fixpoint has_room (acts : list tx_action) (q : Z) : bool :=
  match acts with
  | [] => true
  | Queue _ :: rest => (q <? 255) && has_room rest (q + 1)
  | DataRegisterEmpty :: rest => has_room rest (if q =? 0 then 0 else q - 1)
  end.

Fixpoint queue_bytes (l : list Z) (tx : Transmitter) : result Transmitter :=
  match l with
  | [] => Ok tx
  | b :: rest => tx1 <- queue_send_byte b tx ;; queue_bytes rest tx1
  end.

(** What [send_gps_config] is to put on the wire: the Trimble packet and
    the text of [mgl_init] without its terminating zero. *)
Definition gps_config_bytes : list Z :=
  trimble_init ++ removelast mgl_init.

End Transmit.

(** ** The number and string output of display.c *)

Section Display.

(** What reaches the LCD: [write_control(value, time)] and
    [write_byte(value)].  The strobe on [PORTF] and the waits are the same
    for every byte and are not modelled. *)
Inductive lcd_event : Type :=
| Control (value time : Z)
| Data (value : Z).

(** [nibble_to_ascii] is declared in [command.h], which is not among the
    sources. *)
Variable nibble_to_ascii : Z -> Z.

Definition write_control (value time : Z) (lcd : list lcd_event)
  : list lcd_event := lcd ++ [Control value time].

Definition write_byte (value : Z) (lcd : list lcd_event) : list lcd_event :=
  lcd ++ [Data value].

(** The first loop of [write_string]: copy from flash into [queue] until a
    zero byte or sixteen characters.  The result is the queue and
    [qcntr]. *)
Fixpoint write_string_copy (fuel : nat) (s : list Z) (queue : list Z)
    (qcntr : Z) : result (list Z * Z) :=
  if negb (idx s qcntr =? 0) && (qcntr <? 16) then
    match fuel with
    | O => Fuel
    | S fuel' =>
        q <- array_set queue qcntr (idx s qcntr) ;;
        write_string_copy fuel' s q (u8 (qcntr + 1))
    end
  else Ok (queue, qcntr).

(** The second loop: [while (sndcntr < qcntr) write_byte(queue[sndcntr++])]. *)
Fixpoint write_string_send (fuel : nat) (queue : list Z) (qcntr sndcntr : Z)
    (lcd : list lcd_event) : result (list lcd_event) :=
  if sndcntr <? qcntr then
    match fuel with
    | O => Fuel
    | S fuel' =>
        b <- array_get queue sndcntr ;;
        write_string_send fuel' queue qcntr (u8 (sndcntr + 1))
          (write_byte b lcd)
    end
  else Ok lcd.

(** [write_string].  [s] is the flash from the address of the string on; a
    read past its end gives zero.  [queue] is uninitialised: [garbage] is
    what it holds on entry. *)
Definition write_string (garbage : list Z) (s : list Z) (lcd : list lcd_event)
  : result (list lcd_event) :=
  ' (queue, qcntr) <- write_string_copy 256 s garbage 0 ;;
  write_string_send 256 queue qcntr 0 lcd.

(** The first loop of [write_number]: [div *= 10], [places - 1] times, in
    [unsigned int]. *)
Fixpoint write_number_div (fuel : nat) (i places div : Z) : result Z :=
  if i <? places then
    match fuel with
    | O => Fuel
    | S fuel' => write_number_div fuel' (u8 (i + 1)) places (u16 (div * 10))
    end
  else Ok div.

(** The second loop.  [number] is an [int] and [div] an [unsigned int]:
    quotient and remainder are taken on the 16-bit unsigned value of
    [number], which the model carries instead of the [int]; [p] is an
    [unsigned char]. *)
Fixpoint write_number_digits (fuel : nat) (number div : Z)
    (lcd : list lcd_event) : result (list lcd_event) :=
  if div >? 0 then
    match fuel with
    | O => Fuel
    | S fuel' =>
        let p := u8 (number / div) in
        write_number_digits fuel' (number mod div) (div / 10)
          (write_byte (nibble_to_ascii p) lcd)
    end
  else Ok lcd.

(** [write_number]. *)
Definition write_number (number places : Z) (lcd : list lcd_event)
  : result (list lcd_event) :=
  div <- write_number_div 256 1 places 1 ;;
  write_number_digits 16 (u16 number) div lcd.

(** The characters of a flash string: up to the first zero byte. *)
Fixpoint c_string (s : list Z) : list Z :=
  match s with
  | [] => []
  | c :: rest => if c =? 0 then [] else c :: c_string rest
  end.

(** The value of a list of decimal digits, most significant first. *)
Definition digits_value (ds : list Z) : Z :=
  fold_left (fun acc d => 10 * acc + d) ds 0.

End Display.

(** ** Auxiliary definitions for runs of the receive side *)

(** The shape the decoder keeps its statics in: the buffers have their
    sizes, the cursors and the counter of skipped bytes are bytes, and the
    packet accumulated so far is shorter than the packet it is to
    become. *)
Definition decoder_ok (s : State) : Prop :=
  buffers_ok s /\
  0 <= bytes_to_sync s < 256 /\
  match gps_packet_type s with
  | UNKNOWN_PACKET => gps_packet_length s = 0
  | TRIMBLE_PACKET => 0 <= gps_packet_length s < 21
  | MAGELLAN_TIME_PACKET =>
      gps_magellan_length s = 13 /\ 0 <= gps_packet_length s < 13
  | MAGELLAN_STATUS_PACKET =>
      gps_magellan_length s = 16 /\ 0 <= gps_packet_length s < 16
  end.

(** [set_time] takes a remainder by [exposure_total] in the mode
    [COUNTDOWN_SYNCING]. *)
Definition sync_safe (s : State) : Prop :=
  countdown_mode s = COUNTDOWN_SYNCING -> exposure_total s <> 0.

(** What happens to the receive side: a byte arrives, the main loop calls
    [gps_process_buffer], timer 1 overflows, a pulse arrives on INT0.  A
    run takes each of them as a whole. *)
Inductive stimulus : Type :=
| Byte (b : Z)
| Poll
| Overflow
| Pulse.

Definition react (fuel : nat) (i : stimulus) (s : State) : result State :=
  match i with
  | Byte b => USART1_RX_vect b s
  | Poll => ' (s1, _) <- gps_process_buffer fuel s ;; Ok s1
  | Overflow => Ok (TIMER1_OVF_vect s)
  | Pulse => Ok (SIG_INTERRUPT0 s)
  end.

Fixpoint run (fuel : nat) (ins : list stimulus) (s : State) : result State :=
  match ins with
  | [] => Ok s
  | i :: rest => s1 <- react fuel i s ;; run fuel rest s1
  end.

Definition event_eqb_timestamp (e : event) : bool :=
  match e with SendTimestamp => true | _ => false end.

(** The number of calls of [send_timestamp] so far. *)
Definition timestamps_sent (s : State) : nat :=
  count_events event_eqb_timestamp (trace s).

(** The leap years of the Gregorian calendar. *)
Definition gregorian_leap (y : Z) : Prop :=
  y mod 4 = 0 /\ (y mod 100 <> 0 \/ y mod 400 = 0).

(** The part of [decoder_ok] that does not depend on the packet being
    accumulated. *)
Definition ring_ok (s : State) : Prop :=
  buffers_ok s /\ 0 <= bytes_to_sync s < 256.

(** Two states with the same exposure controller. *)
Definition same_controller (s s' : State) : Prop :=
  countdown_mode s' = countdown_mode s /\
  exposure_total s' = exposure_total s.

(** Nothing was published between two states: no call of
    [send_timestamp], the same timestamp, the same link state. *)
Definition same_published (s s' : State) : Prop :=
  timestamps_sent s' = timestamps_sent s /\
  gps_last_timestamp s' = gps_last_timestamp s /\
  gps_state s' = gps_state s.

(** A timestamp was published, once. *)
Definition published_once (s s' : State) : Prop :=
  timestamps_sent s' = S (timestamps_sent s) /\ gps_state s' = GPS_ACTIVE.

(** ** The call that completes a Magellan sentence *)

(** The number of bytes the Magellan sentence in progress still lacks. *)
Definition still_missing (s : State) : nat :=
  Z.to_nat (gps_magellan_length s - gps_packet_length s).

(** A call that leaves its synchronising loop in the state [s1] completes
    a Magellan sentence: a sentence is in progress in [s1], recognised by
    an earlier call or by this one, and the bytes it lacks are all
    unread. *)
Definition completes_sentence (temp_write : Z) (s1 : State) : bool :=
  match gps_packet_type s1 with
  | MAGELLAN_TIME_PACKET | MAGELLAN_STATUS_PACKET =>
      Z.of_nat (still_missing s1) <=? unread temp_write s1
  | _ => false
  end.

(** The state in which such a call finds the sentence complete; its
    [gps_packet] holds the sentence. *)
Definition completed (s1 : State) : State :=
  accumulate (still_missing s1) s1.

(** The state a run of stimuli takes the firmware to from start-up. *)
Definition reached (fuel : nat) (ins : list stimulus) : State :=
  match run fuel ins initial_state with
  | Ok s => s
  | _ => initial_state
  end.

(** ** More concrete data for the worked runs *)

(** The receive side with [bytes] at the start of the ring, the cursors at
    [rd] and [wr], and no packet in progress or a Trimble packet begun. *)
Definition ring_state (bytes : list Z) (rd wr : Z) (t : packet_type) : State :=
  mkState (pad bytes 256) rd wr t 0 (repeat 0 32) 0 false 0 GPS_SYNCING
    COUNTDOWN_DISABLED 0 0 true false no_timestamp no_timestamp
    TCNT1_RELOAD [].


Definition time_sentence_day_32 : list Z :=
  [0x24; 0x24; 0x41; 0x00; 12; 30; 0; 32; 1; 0x07; 0xC9; 188; 0x0A].


(** A line feed, the start of a Magellan sentence, and a sentence type the
    firmware does not decode. *)
Definition magellan_other_sentence : list Z := [0x0A; 0x24; 0x24; 0x58].

(** A run: a status sentence arrives, the main loop polls twice, the
    watchdog fires, a pulse arrives. *)
Definition status_run : list stimulus :=
  map Byte ([0x0A] ++ status_sentence 79) ++ [Poll; Poll; Overflow; Pulse].

Definition time_run (sentence : list Z) : list stimulus :=
  map Byte ([0x0A] ++ sentence) ++ [Poll].

(** The exposure controller waiting for a multiple of ten seconds. *)
Definition syncing_ten : State :=
  controller_state GPS_ACTIVE COUNTDOWN_SYNCING 10 10 false.

(** The transmit side on an ATmega with [UDRIE1] = 5, [RXEN1] = 4,
    [TXEN1] = 3, [RXCIE1] = 7: idle after [gps_init], with two bytes
    pending, and with 255 bytes pending and the read cursor at 1 and
    at 0. *)
Definition tx_idle : Transmitter := mkTransmitter (repeat 0 256) 0 0 0x98 [].

Definition tx_two_pending : Transmitter :=
  mkTransmitter (pad [0x10; 0x8E] 256) 0 2 0xB8 [].

Definition tx_full_at_1 : Transmitter :=
  mkTransmitter (repeat 7 256) 1 0 0xB8 [].

Definition tx_full_at_0 : Transmitter :=
  mkTransmitter (repeat 7 256) 0 255 0xB8 [].

Definition tx_actions : list tx_action :=
  [Queue 0x10; Queue 0x8E; DataRegisterEmpty; Queue 0xA5; DataRegisterEmpty].

(** A header of the display, as it lies in flash, and a [nibble_to_ascii]
    for the decimal digits. *)
Definition header_syncing : list Z := flash_string "SYNCING TO GPS"%string ++ [0].

Definition digit_to_ascii (p : Z) : Z := p + 0x30.

(** The exposure controller of main.c counting down from three, the
    countdown mode of gps.c not in use. *)
Definition counting_three : State :=
  controller_state GPS_TIME_GOOD COUNTDOWN_DISABLED 3 3 false.

(** The receive side after start-up when a line feed and a whole sentence
    have arrived and the main loop has not yet called
    [gps_process_buffer]. *)
Definition sentence_buffered (sentence : list Z) : State :=
  reached 0 (map Byte ([0x0A] ++ sentence)).



(** The exposure controller after a PPS edge, waiting for the
    timestamp. *)
Definition triggered_five_of_ten : State :=
  controller_state GPS_ACTIVE COUNTDOWN_TRIGGERED 10 5 false.

(** Three hundred bytes queued, each sent before the next is queued. *)
Definition tx_pairs : list tx_action :=
  flat_map (fun _ : nat => [Queue 0x41; DataRegisterEmpty]) (seq 0 300).

(** ** Basic facts *)

Lemma list_set_length (a : list Z) (n : nat) (v : Z) :
  length (list_set a n v) = length a.
Proof.
  revert n; induction a as [|h t IH]; intros [|n]; simpl; auto.
Qed.

Lemma nth_list_set_same (a : list Z) (n : nat) (v d : Z) :
  (n < length a)%nat -> nth n (list_set a n v) d = v.
Proof.
  revert n; induction a as [|h t IH]; intros [|n] Hn; simpl in *; try lia; auto.
  apply IH; lia.
Qed.

Lemma nth_list_set_other (a : list Z) (n m : nat) (v d : Z) :
  n <> m -> nth m (list_set a n v) d = nth m a d.
Proof.
  revert n m; induction a as [|h t IH]; intros [|n] [|m] Hnm; simpl; auto;
    try congruence.
Qed.

Lemma idx_list_set_same (a : list Z) (i v : Z) :
  0 <= i < Z.of_nat (length a) -> idx (list_set a (Z.to_nat i) v) i = v.
Proof.
  intros Hi; unfold idx; apply nth_list_set_same; lia.
Qed.

Lemma idx_list_set_other (a : list Z) (i j v : Z) :
  0 <= i -> 0 <= j -> i <> j ->
  idx (list_set a (Z.to_nat i) v) j = idx a j.
Proof.
  intros Hi Hj Hij; unfold idx; apply nth_list_set_other; lia.
Qed.

Lemma array_set_ok (a : list Z) (i v : Z) :
  0 <= i < Z.of_nat (length a) ->
  array_set a i v = Ok (list_set a (Z.to_nat i) v).
Proof.
  intros Hi; unfold array_set.
  replace (0 <=? i) with true by (symmetry; apply Z.leb_le; lia).
  replace (i <? Z.of_nat (length a)) with true by (symmetry; apply Z.ltb_lt; lia).
  reflexivity.
Qed.

Lemma array_get_ok (a : list Z) (i : Z) :
  0 <= i < Z.of_nat (length a) -> array_get a i = Ok (idx a i).
Proof.
  intros Hi; unfold array_get.
  replace (0 <=? i) with true by (symmetry; apply Z.leb_le; lia).
  replace (i <? Z.of_nat (length a)) with true by (symmetry; apply Z.ltb_lt; lia).
  reflexivity.
Qed.

Lemma u8_range (x : Z) : 0 <= u8 x < 256.
Proof. unfold u8; apply Z.mod_pos_bound; lia. Qed.

Lemma u8_small (x : Z) : 0 <= x < 256 -> u8 x = x.
Proof. intros H; unfold u8; apply Z.mod_small; lia. Qed.

(** ** The PPS countdown of main.c *)

Lemma SIG_INTERRUPT0_decrement (s : State) :
  gps_state s = GPS_TIME_GOOD -> exposure_syncing s = false ->
  1 < exposure_count s < counter_modulus ->
  SIG_INTERRUPT0 s = set_exposure_count (exposure_count s - 1) s.
Proof.
  intros Hg Hs Hc; unfold SIG_INTERRUPT0; rewrite Hg, Hs.
  rewrite Z.mod_small by lia; simpl.
  destruct (Z.eqb_spec (exposure_count s - 1) 0); [lia | reflexivity].
Qed.

Lemma SIG_INTERRUPT0_fire (s : State) :
  gps_state s = GPS_TIME_GOOD -> exposure_syncing s = false ->
  exposure_count s = 1 -> 1 < counter_modulus ->
  SIG_INTERRUPT0 s =
  emit TriggerDownload
    (set_gps_record_synctime true (set_exposure_count (exposure_total s) s)).
Proof.
  intros Hg Hs Hc Hm; unfold SIG_INTERRUPT0; rewrite Hg, Hs, Hc.
  rewrite Z.mod_small by lia; simpl.
  destruct s; reflexivity.
Qed.

Lemma pps_edges_decrement (k : nat) (s : State) :
  gps_state s = GPS_TIME_GOOD -> exposure_syncing s = false ->
  Z.of_nat k < exposure_count s < counter_modulus ->
  pps_edges k s = set_exposure_count (exposure_count s - Z.of_nat k) s.
Proof.
  revert s; induction k as [|k IH]; intros s Hg Hs Hc.
  - simpl; rewrite Z.sub_0_r; destruct s; reflexivity.
  - cbn [pps_edges]. rewrite SIG_INTERRUPT0_decrement by (auto; lia).
    rewrite IH; [| simpl; auto | simpl; auto | simpl; lia].
    rewrite Nat2Z.inj_succ. destruct s; simpl; f_equal; lia.
Qed.

(** C7: from the armed state (link state TimeGood, not syncing) with the
    counter and the exposure length both N, 0 < N, each of the first N-1
    PPS edges only decrements the counter, and the N-th edge calls
    [trigger_download], puts the counter back to N and sets
    [gps_record_synctime]; nothing else changes. *)
Theorem pps_countdown_fires_on_nth_edge (n : nat) (s : State) :
  gps_state s = GPS_TIME_GOOD ->
  exposure_syncing s = false ->
  exposure_total s = Z.of_nat (S n) ->
  exposure_count s = Z.of_nat (S n) ->
  Z.of_nat (S n) < counter_modulus ->
  (forall k : nat, (k <= n)%nat ->
     pps_edges k s = set_exposure_count (Z.of_nat (S n) - Z.of_nat k) s) /\
  pps_edges (S n) s =
    emit TriggerDownload (set_gps_record_synctime true s) /\
  exposure_count (pps_edges (S n) s) = Z.of_nat (S n) /\
  gps_record_synctime (pps_edges (S n) s) = true /\
  trace (pps_edges (S n) s) = trace s ++ [TriggerDownload].
Proof.
  intros Hg Hs Ht Hc Hm.
  assert (Hk : forall k : nat, (k <= n)%nat ->
     pps_edges k s = set_exposure_count (Z.of_nat (S n) - Z.of_nat k) s).
  { intros k Hk. rewrite pps_edges_decrement by (auto; lia).
    rewrite Hc; reflexivity. }
  assert (Hn : pps_edges (S n) s =
               emit TriggerDownload (set_gps_record_synctime true s)).
  { replace (S n) with (n + 1)%nat by lia.
    assert (Hsplit : forall a b t, pps_edges (a + b) t = pps_edges b (pps_edges a t)).
    { induction a as [|a IHa]; intros b t; simpl; auto. }
    rewrite Hsplit, (Hk n) by lia. cbn [pps_edges].
    rewrite SIG_INTERRUPT0_fire; [| state_simpl; auto; lia ..].
    destruct s; simpl in *; subst; reflexivity. }
  split; [exact Hk|]. split; [exact Hn|].
  rewrite Hn; simpl; auto.
Qed.

(** ** The watchdog and the receive interrupt *)

Lemma watchdog_overflows_state (n : nat) (s : State) :
  watchdog_overflows (S n) s =
  set_trace (trace s ++ repeat (DebugString gps_msg_lost_serial) (S n))
    (set_gps_state GPS_UNAVAILABLE s).
Proof.
  revert s; induction n as [|n IH]; intros s.
  - reflexivity.
  - change (watchdog_overflows (S (S n)) s)
      with (watchdog_overflows (S n) (TIMER1_OVF_vect s)).
    rewrite IH. unfold TIMER1_OVF_vect. st.
    rewrite <- app_assoc. reflexivity.
Qed.

(** C8, as the code has it: during a silence every overflow of timer 1
    runs the handler; from the first overflow on the link state is
    Unavailable, so it changes at most once, and each overflow adds one
    "connection lost" diagnostic and touches nothing else.  The next
    received byte moves the link state to Syncing, reloads the timer and
    appends the byte to the receive ring; the packet accumulator (type,
    length, bytes, expected length), the read cursor and the skipped-byte
    counter stay as they were. *)
Theorem watchdog_then_byte_keeps_partial_packet (n : nat) (b : Z) (s : State) :
  0 <= gps_input_write s < Z.of_nat (length (gps_input_buffer s)) ->
  (forall k : nat, gps_state (watchdog_overflows (S k) s) = GPS_UNAVAILABLE) /\
  watchdog_overflows (S n) s =
    set_trace (trace s ++ repeat (DebugString gps_msg_lost_serial) (S n))
      (set_gps_state GPS_UNAVAILABLE s) /\
  exists s',
    USART1_RX_vect b (watchdog_overflows (S n) s) = Ok s' /\
    gps_state s' = GPS_SYNCING /\
    TCNT1 s' = TCNT1_RELOAD /\
    idx (gps_input_buffer s') (gps_input_write s) = b /\
    gps_input_write s' = u8 (gps_input_write s + 1) /\
    gps_input_read s' = gps_input_read s /\
    gps_packet_type s' = gps_packet_type s /\
    gps_packet_length s' = gps_packet_length s /\
    gps_packet s' = gps_packet s /\
    gps_magellan_length s' = gps_magellan_length s /\
    bytes_to_sync s' = bytes_to_sync s.
Proof.
  intros Hw. split; [|split].
  - intros k. rewrite watchdog_overflows_state. reflexivity.
  - apply watchdog_overflows_state.
  - rewrite watchdog_overflows_state. unfold USART1_RX_vect. st.
    rewrite array_set_ok by exact Hw. cbn [bind].
    eexists; split; [reflexivity|]. st.
    repeat split; try reflexivity.
    apply idx_list_set_same; exact Hw.
Qed.

(** ** set_time and the missed PPS edge *)

Lemma count_events_app (p : event -> bool) (l1 l2 : list event) :
  count_events p (l1 ++ l2) = (count_events p l1 + count_events p l2)%nat.
Proof. unfold count_events; rewrite filter_app, length_app; reflexivity. Qed.

Lemma count_events_snoc (p : event -> bool) (l : list event) (e : event) :
  count_events p (l ++ [e]) =
  (count_events p l + if p e then 1 else 0)%nat.
Proof.
  rewrite count_events_app; unfold count_events; simpl.
  destruct (p e); reflexivity.
Qed.




(** With the transition to Triggered taken as part of every tick, a PPS
    edge that arrives after the forced tick finds the mode Triggered and
    is ignored. *)
Lemma late_pps_edge_ignored_after_forced_tick (t : timestamp) (s s' : State) :
  countdown_mode s = COUNTDOWN_ENABLED ->
  set_time t s = Ok s' ->
  countdown_mode s' = COUNTDOWN_TRIGGERED /\ pps_edge s' = s'.
Proof.
  intros Hm. unfold set_time, trigger_countdown. rewrite Hm. st. cbn [bind].
  intros H; injection H as <-.
  destruct ((exposure_count s - 1) mod counter_modulus =? 0); st;
    unfold pps_edge; st; [auto|].
  destruct (gps_record_synctime s); st; auto.
Qed.



(** ** The Magellan checksum *)

Lemma xor_all_cons (x : Z) (l : list Z) :
  xor_all (x :: l) = Z.lxor x (xor_all l).
Proof. reflexivity. Qed.

Lemma skipn_nth_cons (p : list Z) (a : nat) :
  (a < length p)%nat -> skipn a p = nth a p 0 :: skipn (S a) p.
Proof.
  revert a; induction p as [|h t IH]; intros [|a] Ha; simpl in *; try lia; auto.
  apply IH; lia.
Qed.

Lemma checksum_loop_span (p : list Z) (n a : nat) (c : Z) :
  (a + n <= length p)%nat ->
  fold_left (fun csm i => Z.lxor csm (idx p (Z.of_nat i))) (seq a n) c =
  Z.lxor c (xor_all (firstn n (skipn a p))).
Proof.
  revert a c; induction n as [|n IH]; intros a c Hlen.
  - simpl. rewrite Z.lxor_0_r. reflexivity.
  - cbn [seq fold_left]. rewrite IH by lia.
    rewrite (skipn_nth_cons p a) by lia.
    cbn [firstn]. rewrite xor_all_cons, Z.lxor_assoc.
    unfold idx. rewrite Nat2Z.id. reflexivity.
Qed.

Lemma magellan_checksum_from_type_byte (p : list Z) (len : Z) :
  5 <= len <= Z.of_nat (length p) ->
  magellan_checksum p len = checksum_from_type_byte p len.
Proof.
  intros Hlen. unfold magellan_checksum, checksum_from_type_byte, slice.
  rewrite checksum_loop_span by lia.
  rewrite (skipn_nth_cons p 2) by lia.
  replace (Z.to_nat (len - 2) - 2)%nat with (S (Z.to_nat (len - 2 - 3))) by lia.
  cbn [firstn]. rewrite xor_all_cons. reflexivity.
Qed.

Lemma magellan_checksum_exclusive (p : list Z) (len : Z) :
  5 <= len <= Z.of_nat (length p) ->
  magellan_checksum p len = Z.lxor (idx p 2) (checksum_exclusive p len).
Proof.
  intros Hlen. unfold magellan_checksum, checksum_exclusive, slice.
  rewrite checksum_loop_span by lia.
  replace (Z.to_nat (len - 2) - 3)%nat with (Z.to_nat (len - 2 - 3)) by lia.
  reflexivity.
Qed.

Lemma skipn_list_set (l : list Z) (a i : nat) (v : Z) :
  (a <= i)%nat -> skipn a (list_set l i v) = list_set (skipn a l) (i - a) v.
Proof.
  revert a i; induction l as [|h t IH]; intros [|a] [|i] Hai;
    simpl; auto; try lia.
  apply IH; lia.
Qed.

Lemma firstn_list_set (l : list Z) (n i : nat) (v : Z) :
  firstn n (list_set l i v) = list_set (firstn n l) i v.
Proof.
  revert n i; induction l as [|h t IH]; intros [|n] [|i]; simpl; auto.
  f_equal; apply IH.
Qed.

Lemma xor_all_list_set (l : list Z) (i : nat) (v : Z) :
  (i < length l)%nat ->
  xor_all (list_set l i v) = Z.lxor (Z.lxor (xor_all l) (nth i l 0)) v.
Proof.
  revert i; induction l as [|h t IH]; intros [|i] Hi; simpl in *; try lia.
  - fold (xor_all t).
    rewrite (Z.lxor_comm h (xor_all t)), (Z.lxor_assoc (xor_all t) h h),
      Z.lxor_nilpotent, Z.lxor_0_r.
    apply Z.lxor_comm.
  - fold (xor_all t) (xor_all (list_set t i v)).
    rewrite IH by lia. rewrite !Z.lxor_assoc. reflexivity.
Qed.

Lemma xor_toggle_changes (x a v : Z) :
  v <> a -> Z.lxor (Z.lxor x a) v <> x.
Proof.
  intros Hva Heq. apply Hva. symmetry. apply Z.lxor_eq.
  assert (H : Z.lxor x (Z.lxor (Z.lxor x a) v) = Z.lxor x x) by (f_equal; exact Heq).
  rewrite Z.lxor_nilpotent in H.
  rewrite <- !Z.lxor_assoc, Z.lxor_nilpotent, Z.lxor_0_l in H. exact H.
Qed.

(** Changing one byte between the sentence-type byte and the checksum
    byte changes the computed checksum. *)
Lemma magellan_checksum_mutation (p : list Z) (len i v : Z) :
  5 <= len <= Z.of_nat (length p) ->
  2 <= i < len - 2 ->
  v <> idx p i ->
  magellan_checksum (list_set p (Z.to_nat i) v) len <> magellan_checksum p len.
Proof.
  intros Hlen Hi Hv.
  rewrite !magellan_checksum_from_type_byte
    by (rewrite ?list_set_length; lia).
  unfold checksum_from_type_byte, slice.
  rewrite skipn_list_set, firstn_list_set by lia.
  rewrite xor_all_list_set
    by (rewrite length_firstn, length_skipn; lia).
  apply xor_toggle_changes.
  rewrite nth_firstn.
  replace (Z.to_nat i - 2 <? Z.to_nat (len - 2) - 2)%nat with true
    by (symmetry; apply Nat.ltb_lt; lia).
  rewrite nth_skipn.
  replace (2 + (Z.to_nat i - 2))%nat with (Z.to_nat i) by lia.
  exact Hv.
Qed.

(** ** Accumulating a Magellan sentence *)

Lemma store_packet_byte_ok (s : State) :
  length (gps_packet s) = 32%nat ->
  0 <= gps_packet_length s < 32 ->
  store_packet_byte s = Ok (take_byte s).
Proof.
  intros Hp Hl. unfold store_packet_byte, take_byte.
  rewrite array_set_ok by lia. cbn [bind].
  rewrite u8_small by lia. reflexivity.
Qed.

Lemma unread_positive_neq (tw : Z) (s : State) :
  1 <= unread tw s -> gps_input_read s <> tw.
Proof.
  unfold unread, u8. intros H E. rewrite E, Z.sub_diag in H.
  rewrite Z.mod_0_l in H by lia. lia.
Qed.

Lemma unread_advance (tw : Z) (s : State) :
  0 <= gps_input_read s < 256 -> 0 <= tw < 256 ->
  1 <= unread tw s ->
  unread tw (advance s) = unread tw s - 1.
Proof.
  unfold unread, advance, u8. st. intros Hr Ht H.
  Z.to_euclidean_division_equations. lia.
Qed.

Lemma magellan_loop_completes (n fuel efuel : nat) (tw : Z) (s : State) :
  length (gps_packet s) = 32%nat ->
  0 <= gps_input_read s < 256 -> 0 <= tw < 256 ->
  0 <= gps_packet_length s ->
  gps_packet_length s + Z.of_nat n = gps_magellan_length s ->
  gps_magellan_length s <= 32 ->
  (1 <= n)%nat -> Z.of_nat n <= unread tw s -> (n <= fuel)%nat ->
  magellan_loop fuel efuel tw s = magellan_finish efuel (accumulate n s).
Proof.
  revert fuel s; induction n as [|k IH]; intros fuel s Hp Hr Ht Hl Hn Hm H1 Hu Hf;
    [lia|].
  destruct fuel as [|fuel]; [lia|].
  cbn [magellan_loop].
  destruct (Z.eqb_spec (gps_input_read s) tw) as [E|_];
    [exfalso; revert E; apply unread_positive_neq; lia|].
  rewrite store_packet_byte_ok by (auto; lia). cbn [bind].
  destruct k as [|k].
  - cbn [accumulate]. unfold take_byte at 1 2. st.
    replace (gps_packet_length s + 1 =? gps_magellan_length s) with true
      by (symmetry; apply Z.eqb_eq; lia).
    reflexivity.
  - unfold take_byte at 1 2. st.
    replace (gps_packet_length s + 1 =? gps_magellan_length s) with false
      by (symmetry; apply Z.eqb_neq; lia).
    change (accumulate (S (S k)) s)
      with (accumulate (S k) (advance (take_byte s))).
    apply IH; unfold advance, take_byte; st;
      try rewrite list_set_length; auto; try lia.
    + apply u8_range.
    + pose proof (unread_advance tw s Hr Ht ltac:(lia)) as Ha.
      unfold unread, advance in *; st. lia.
Qed.

Lemma sync_loop_known (fuel : nat) (tw : Z) (s : State) :
  gps_packet_type s <> UNKNOWN_PACKET -> sync_loop fuel tw s = Ok s.
Proof.
  intros Ht. destruct fuel; cbn [sync_loop];
    destruct (gps_packet_type s); try congruence; reflexivity.
Qed.

Lemma unread_bound (tw : Z) (s : State) : 0 <= unread tw s < 256.
Proof. apply u8_range. Qed.

(** A call that finds a Magellan sentence in progress and enough unread
    bytes to complete it runs the completion block on the accumulated
    sentence. *)
Lemma gps_process_buffer_magellan (fuel n : nat) (s : State) :
  buffers_ok s ->
  gps_packet_type s = MAGELLAN_TIME_PACKET \/
  gps_packet_type s = MAGELLAN_STATUS_PACKET ->
  0 <= gps_packet_length s ->
  gps_packet_length s + Z.of_nat n = gps_magellan_length s ->
  gps_magellan_length s <= 32 ->
  (1 <= n)%nat -> Z.of_nat n <= unread (gps_input_write s) s ->
  gps_process_buffer fuel s =
  (' (s2, r) <- magellan_finish fuel (accumulate n s) ;; Ok (s2, returned r)).
Proof.
  intros (Hb & Hp & Hr & Hw) Ht Hl Hn Hm H1 Hu.
  unfold gps_process_buffer.
  destruct (Z.eqb_spec (gps_input_read s) (gps_input_write s)) as [E|_];
    [exfalso; revert E; apply unread_positive_neq; lia|].
  rewrite sync_loop_known by (destruct Ht as [E|E]; rewrite E; discriminate).
  cbn [bind].
  pose proof (unread_bound (gps_input_write s) s) as Hub.
  assert (Hloop : magellan_loop 256 fuel (gps_input_write s) s =
                  magellan_finish fuel (accumulate n s))
    by (apply magellan_loop_completes; auto; lia).
  destruct Ht as [E|E]; rewrite E, Hloop; reflexivity.
Qed.

Lemma same_but_accumulator_refl (s : State) : same_but_accumulator s s.
Proof. unfold same_but_accumulator; repeat split. Qed.

Lemma same_but_accumulator_trans (s1 s2 s3 : State) :
  same_but_accumulator s1 s2 -> same_but_accumulator s2 s3 ->
  same_but_accumulator s1 s3.
Proof.
  unfold same_but_accumulator; intros H12 H23.
  repeat match goal with H : _ /\ _ |- _ => destruct H end.
  repeat split; congruence.
Qed.

Lemma accumulate_frame (n : nat) (s : State) :
  same_but_accumulator s (accumulate n s) /\
  gps_packet_length (accumulate n s) = gps_packet_length s + Z.of_nat n /\
  length (gps_packet (accumulate n s)) = length (gps_packet s).
Proof.
  revert s; induction n as [|k IH]; intros s.
  - cbn [accumulate]. split; [apply same_but_accumulator_refl|]. split; [lia|auto].
  - destruct k as [|k].
    + cbn [accumulate]. unfold take_byte; st.
      split; [unfold same_but_accumulator; st; repeat split|].
      split; [lia | apply list_set_length].
    + change (accumulate (S (S k)) s)
        with (accumulate (S k) (advance (take_byte s))).
      destruct (IH (advance (take_byte s))) as (Hs & Hl & Hp).
      split; [|split].
      * eapply same_but_accumulator_trans; [|exact Hs].
        unfold same_but_accumulator, advance, take_byte; st; repeat split.
      * rewrite Hl. unfold advance, take_byte; st. lia.
      * rewrite Hp. unfold advance, take_byte; st. apply list_set_length.
Qed.

(** A completed sentence that fails the terminator or the checksum test
    only leaves diagnostics behind. *)
Lemma magellan_complete_rejects (efuel : nat) (s : State) :
  2 <= gps_packet_length s <= Z.of_nat (length (gps_packet s)) ->
  sentence_valid (gps_packet s) (gps_packet_length s) = false ->
  exists tr,
    magellan_complete efuel s = Ok (set_trace (trace s ++ tr) s, false).
Proof.
  intros Hl Hv. unfold magellan_complete, sentence_valid in *.
  rewrite array_get_ok by lia. cbn [bind].
  destruct (idx (gps_packet s) (gps_packet_length s - 1) =? 10).
  - rewrite array_get_ok by lia. cbn [bind].
    cbn [andb] in Hv. rewrite Hv.
    eexists. unfold bad_packet; st. rewrite <- app_assoc. reflexivity.
  - eexists. unfold bad_packet; st. rewrite <- app_assoc. reflexivity.
Qed.


(** ** What set_time publishes *)

Lemma trigger_countdown_frame (s : State) :
  same_decoder s (trigger_countdown s) /\
  exists tr, trace (trigger_countdown s) = trace s ++ tr.
Proof.
  unfold trigger_countdown, same_decoder. st.
  destruct ((exposure_count s - 1) mod counter_modulus =? 0); st.
  - repeat split. eexists; reflexivity.
  - repeat split. exists []. rewrite app_nil_r. reflexivity.
Qed.

Lemma set_time_publishes (t : timestamp) (s s' : State) :
  set_time t s = Ok s' ->
  same_decoder s s' /\
  gps_last_timestamp s' = t /\
  gps_state s' = GPS_ACTIVE /\
  exists tr, trace s' = trace s ++ tr ++ [SendTimestamp].
Proof.
  unfold set_time.
  set (s1 := match countdown_mode s with
             | COUNTDOWN_ENABLED => _
             | COUNTDOWN_TRIGGERED => _
             | _ => s
             end).
  assert (H1 : same_decoder s s1 /\ exists tr, trace s1 = trace s ++ tr).
  { subst s1. destruct (countdown_mode s).
    - unfold same_decoder; repeat split. exists []; rewrite app_nil_r; reflexivity.
    - unfold same_decoder; repeat split. exists []; rewrite app_nil_r; reflexivity.
    - destruct (trigger_countdown_frame s) as (Hd & tr & Htr).
      unfold same_decoder in *. st.
      repeat match goal with H : _ /\ _ |- _ => destruct H end.
      repeat split; auto.
      exists (tr ++ [DebugString gps_msg_missed_pps]).
      rewrite Htr, app_assoc. reflexivity.
    - unfold same_decoder; st; repeat split.
      exists []; rewrite app_nil_r; reflexivity. }
  clearbody s1. destruct H1 as (Hd & tr1 & Htr1).
  unfold same_decoder in *.
  repeat match goal with H : _ /\ _ |- _ => destruct H end.
  st.
  assert (Hfin : forall s3,
            gps_input_buffer s3 = gps_input_buffer s ->
            gps_input_read s3 = gps_input_read s ->
            gps_input_write s3 = gps_input_write s ->
            gps_packet_type s3 = gps_packet_type s ->
            gps_packet_length s3 = gps_packet_length s ->
            gps_packet s3 = gps_packet s ->
            gps_magellan_length s3 = gps_magellan_length s ->
            gps_magellan_locked s3 = gps_magellan_locked s ->
            bytes_to_sync s3 = bytes_to_sync s ->
            gps_last_timestamp s3 = t -> gps_state s3 = GPS_ACTIVE ->
            trace s3 = trace s ++ tr1 ->
            Ok (emit SendTimestamp
                  (if gps_record_synctime s3
                   then emit SendDownloadTimestamp
                          (set_gps_record_synctime false
                             (set_gps_last_synctime (gps_last_timestamp s3) s3))
                   else s3)) = Ok s' ->
            (gps_input_buffer s' = gps_input_buffer s /\
             gps_input_read s' = gps_input_read s /\
             gps_input_write s' = gps_input_write s /\
             gps_packet_type s' = gps_packet_type s /\
             gps_packet_length s' = gps_packet_length s /\
             gps_packet s' = gps_packet s /\
             gps_magellan_length s' = gps_magellan_length s /\
             gps_magellan_locked s' = gps_magellan_locked s /\
             bytes_to_sync s' = bytes_to_sync s) /\
            gps_last_timestamp s' = t /\ gps_state s' = GPS_ACTIVE /\
            exists tr, trace s' = trace s ++ tr ++ [SendTimestamp]).
  { intros s3 ? ? ? ? ? ? ? ? ? ? ? Htr3 Heq.
    injection Heq as <-.
    destruct (gps_record_synctime s3); st; repeat split; auto.
    - exists (tr1 ++ [SendDownloadTimestamp]).
      rewrite Htr3, <- !app_assoc. reflexivity.
    - exists tr1. rewrite Htr3, <- !app_assoc. reflexivity. }
  destruct (countdown_mode s1); cbn [bind]; try (apply Hfin; st; auto).
  destruct (exposure_total s1 =? 0); cbn [bind]; [discriminate|].
  destruct (seconds t mod exposure_total s1 =? 0); cbn [bind];
    apply Hfin; st; auto.
Qed.

Lemma set_time_defined (t : timestamp) (s : State) :
  (countdown_mode s = COUNTDOWN_SYNCING -> exposure_total s <> 0) ->
  exists s', set_time t s = Ok s'.
Proof.
  intros Hs. unfold set_time.
  destruct (countdown_mode s) eqn:Hm; st; rewrite ?Hm; cbn [bind];
    try (eexists; reflexivity).
  - destruct (Z.eqb_spec (exposure_total s) 0) as [E|_];
      [exfalso; apply Hs; auto|].
    destruct (seconds t mod exposure_total s =? 0); cbn [bind];
      eexists; reflexivity.
Qed.

(** ** Accepted Magellan sentences *)

Lemma set_locked_same (s : State) (l : bool) :
  gps_magellan_locked s = l -> set_gps_magellan_locked l s = s.
Proof. intros <-. destruct s; reflexivity. Qed.

Lemma magellan_complete_status (efuel : nat) (s : State) :
  2 <= gps_packet_length s <= Z.of_nat (length (gps_packet s)) ->
  gps_packet_type s = MAGELLAN_STATUS_PACKET ->
  sentence_valid (gps_packet s) (gps_packet_length s) = true ->
  magellan_complete efuel s =
  Ok (set_gps_magellan_locked (idx (gps_packet s) 13 =? 6) s,
      negb (eqb (gps_magellan_locked s) (idx (gps_packet s) 13 =? 6))).
Proof.
  intros Hl Ht Hv. unfold sentence_valid in Hv.
  apply andb_true_iff in Hv as (Hv1 & Hv2).
  unfold magellan_complete.
  rewrite array_get_ok by lia. cbn [bind]. rewrite Hv1.
  rewrite array_get_ok by lia. cbn [bind]. rewrite Hv2, Ht.
  destruct (eqb (gps_magellan_locked s) (idx (gps_packet s) 13 =? 6)) eqn:E;
    cbn [negb]; [|reflexivity].
  apply eqb_prop in E. rewrite set_locked_same by exact E. reflexivity.
Qed.

Lemma magellan_complete_time (efuel : nat) (s : State) (y m d : Z) :
  2 <= gps_packet_length s <= Z.of_nat (length (gps_packet s)) ->
  gps_packet_type s = MAGELLAN_TIME_PACKET ->
  sentence_valid (gps_packet s) (gps_packet_length s) = true ->
  epoch_correction efuel
    (be16 (idx (gps_packet s) 9) (idx (gps_packet s) 10))
    (idx (gps_packet s) 8) (idx (gps_packet s) 7) = Ok (y, m, d) ->
  magellan_complete efuel s =
  (s1 <- set_time
           (mkTimestamp (idx (gps_packet s) 4) (idx (gps_packet s) 5)
              (idx (gps_packet s) 6) d m y (gps_magellan_locked s)) s ;;
   Ok (s1, true)).
Proof.
  intros Hl Ht Hv He. unfold sentence_valid in Hv.
  apply andb_true_iff in Hv as (Hv1 & Hv2).
  unfold magellan_complete.
  rewrite array_get_ok by lia. cbn [bind]. rewrite Hv1.
  rewrite array_get_ok by lia. cbn [bind]. rewrite Hv2, Ht, He.
  reflexivity.
Qed.

(** C5, as the code has it: the checksum that the decoder computes for a
    completed sentence is the XOR of the bytes from the sentence-type byte
    (index 2, included) up to the checksum byte (index len - 2, excluded),
    that is the XOR of the span strictly between them XORed with the
    sentence-type byte; a sentence ending in 0x0A whose stored checksum
    byte differs from that value is rejected with the computed and the
    stored value logged, and a status sentence whose stored byte equals it
    is decoded. *)
Theorem magellan_checksum_covers_type_byte (efuel : nat) (s : State) :
  5 <= gps_packet_length s <= Z.of_nat (length (gps_packet s)) ->
  idx (gps_packet s) (gps_packet_length s - 1) = 0x0A ->
  magellan_checksum (gps_packet s) (gps_packet_length s) =
    checksum_from_type_byte (gps_packet s) (gps_packet_length s) /\
  magellan_checksum (gps_packet s) (gps_packet_length s) =
    Z.lxor (idx (gps_packet s) 2)
      (checksum_exclusive (gps_packet s) (gps_packet_length s)) /\
  (idx (gps_packet s) (gps_packet_length s - 2) <>
     checksum_from_type_byte (gps_packet s) (gps_packet_length s) ->
   magellan_complete efuel s =
   Ok (set_trace
         (trace s ++
          [DebugChecksumFailed
             (checksum_from_type_byte (gps_packet s) (gps_packet_length s))
             (idx (gps_packet s) (gps_packet_length s - 2));
           DebugRaw (firstn (Z.to_nat (gps_packet_length s)) (gps_packet s))])
         s, false)) /\
  (idx (gps_packet s) (gps_packet_length s - 2) =
     checksum_from_type_byte (gps_packet s) (gps_packet_length s) ->
   gps_packet_type s = MAGELLAN_STATUS_PACKET ->
   magellan_complete efuel s =
   Ok (set_gps_magellan_locked (idx (gps_packet s) 13 =? 6) s,
       negb (eqb (gps_magellan_locked s) (idx (gps_packet s) 13 =? 6)))).
Proof.
  intros Hl Hlf.
  pose proof (magellan_checksum_from_type_byte _ _ Hl) as Hc.
  split; [exact Hc|]. split; [apply magellan_checksum_exclusive; exact Hl|].
  split.
  - intros Hne. unfold magellan_complete.
    rewrite array_get_ok by lia. cbn [bind]. rewrite Hlf. cbn [Z.eqb Pos.eqb].
    rewrite array_get_ok by lia. cbn [bind]. rewrite Hc.
    destruct (Z.eqb_spec
                (checksum_from_type_byte (gps_packet s) (gps_packet_length s))
                (idx (gps_packet s) (gps_packet_length s - 2))) as [E|_];
      [congruence|].
    st. rewrite <- app_assoc. reflexivity.
  - intros He Ht. apply magellan_complete_status; auto; [lia|].
    unfold sentence_valid. rewrite Hlf, Hc, He, !Z.eqb_refl. reflexivity.
Qed.

(** ** The locked flag of the Magellan decoder *)

Lemma magellan_complete_lock (efuel : nat) (s s' : State) (u : bool) :
  magellan_complete efuel s = Ok (s', u) ->
  gps_packet s' = gps_packet s /\
  gps_magellan_length s' = gps_magellan_length s /\
  (gps_magellan_locked s' = gps_magellan_locked s \/
   gps_magellan_locked s' = (idx (gps_packet s) 13 =? 6) /\
   gps_packet_type s = MAGELLAN_STATUS_PACKET /\
   sentence_valid (gps_packet s) (gps_packet_length s) = true /\
   u = true).
Proof.
  unfold magellan_complete, sentence_valid.
  destruct (array_get (gps_packet s) (gps_packet_length s - 1)) as [last| |] eqn:E1;
    cbn [bind]; try discriminate.
  assert (Hlast : last = idx (gps_packet s) (gps_packet_length s - 1)).
  { unfold array_get in E1.
    destruct ((0 <=? gps_packet_length s - 1) &&
              (gps_packet_length s - 1 <? Z.of_nat (length (gps_packet s))));
      congruence. }
  rewrite <- Hlast.
  destruct (last =? 10) eqn:El.
  2:{ intros H; injection H as <- <-. unfold bad_packet; st. auto. }
  destruct (array_get (gps_packet s) (gps_packet_length s - 2)) as [stored| |] eqn:E2;
    cbn [bind]; try discriminate.
  assert (Hst : stored = idx (gps_packet s) (gps_packet_length s - 2)).
  { unfold array_get in E2.
    destruct ((0 <=? gps_packet_length s - 2) &&
              (gps_packet_length s - 2 <? Z.of_nat (length (gps_packet s))));
      congruence. }
  rewrite <- Hst.
  destruct (magellan_checksum (gps_packet s) (gps_packet_length s) =? stored) eqn:Ec.
  2:{ intros H; injection H as <- <-. st. auto. }
  destruct (gps_packet_type s) eqn:Ht.
  - intros H; injection H as <- <-. unfold bad_packet; st. auto.
  - intros H; injection H as <- <-. unfold bad_packet; st. auto.
  - destruct (epoch_correction _ _ _ _) as [[[y m] d]| |]; cbn [bind];
      try discriminate.
    destruct (set_time _ s) as [s1| |] eqn:Hs; cbn [bind]; try discriminate.
    intros H; injection H as <- <-.
    apply set_time_publishes in Hs as (Hd & _).
    unfold same_decoder in Hd.
    repeat match goal with H : _ /\ _ |- _ => destruct H end. auto.
  - destruct (negb (eqb (gps_magellan_locked s) (idx (gps_packet s) 13 =? 6)));
      intros H; injection H as <- <-; st; auto 8.
Qed.

Lemma store_packet_byte_lock (s s1 : State) :
  store_packet_byte s = Ok s1 ->
  gps_magellan_locked s1 = gps_magellan_locked s /\
  gps_magellan_length s1 = gps_magellan_length s.
Proof.
  unfold store_packet_byte.
  destruct (array_set _ _ _); cbn [bind]; try discriminate.
  intros H; injection H as <-. st. auto.
Qed.

Lemma sync_loop_lock (fuel : nat) (tw : Z) (s s' : State) :
  sync_loop fuel tw s = Ok s' ->
  gps_magellan_locked s' = gps_magellan_locked s.
Proof.
  revert s; induction fuel as [|fuel IH]; intros s; cbn [sync_loop].
  - destruct (is_unknown (gps_packet_type s) &&
              negb (gps_input_read s =? tw)); [discriminate|].
    intros H; injection H as <-; reflexivity.
  - destruct (is_unknown (gps_packet_type s) &&
              negb (gps_input_read s =? tw));
      [|intros H; injection H as <-; reflexivity].
    destruct ((behind s 1 =? chr_dollar) && (behind s 2 =? chr_dollar) &&
              (behind s 3 =? 10)).
    + destruct (behind s 0 =? chr_A);
        [intros H; injection H as <-; unfold sync_magellan; st;
         destruct (bytes_to_sync s >? 3); reflexivity|].
      destruct (behind s 0 =? chr_H);
        [intros H; injection H as <-; unfold sync_magellan; st;
         destruct (bytes_to_sync s >? 3); reflexivity|].
      intros H. apply IH in H. exact H.
    + destruct ((behind s 0 =? 171) && (behind s 1 =? 143) &&
                (behind s 2 =? DLE) && (behind s 3 =? ETX) &&
                (behind s 4 =? DLE)).
      * intros H; injection H as <-; reflexivity.
      * intros H. apply IH in H. exact H.
Qed.

Lemma trimble_complete_lock (s s' : State) :
  trimble_complete s = Ok s' ->
  gps_magellan_locked s' = gps_magellan_locked s.
Proof.
  unfold trimble_complete.
  destruct ((idx (gps_packet s) 20 =? ETX) && (idx (gps_packet s) 19 =? DLE)).
  - destruct (set_time _ s) as [s1| |] eqn:Hs; cbn [bind]; try discriminate.
    intros H; injection H as <-.
    apply set_time_publishes in Hs as (Hd & _). unfold same_decoder in Hd.
    unfold reset_packet; st. tauto.
  - cbn [bind]. intros H; injection H as <-. reflexivity.
Qed.

Lemma trimble_loop_lock (fuel : nat) (tw : Z) (s s' : State) (r : option bool) :
  trimble_loop fuel tw s = Ok (s', r) ->
  gps_magellan_locked s' = gps_magellan_locked s.
Proof.
  revert s; induction fuel as [|fuel IH]; intros s; cbn [trimble_loop].
  - destruct (gps_input_read s =? tw); [|discriminate].
    intros H; injection H as <- <-; reflexivity.
  - destruct (gps_input_read s =? tw);
      [intros H; injection H as <- <-; reflexivity|].
    set (s1 := if (behind s 0 =? DLE) && (behind s 1 =? DLE)
               then set_gps_input_read (u8 (gps_input_read s + 1)) s else s).
    assert (H1 : gps_magellan_locked s1 = gps_magellan_locked s)
      by (subst s1; destruct ((behind s 0 =? DLE) && (behind s 1 =? DLE));
          reflexivity).
    clearbody s1.
    destruct (gps_input_read s1 =? tw);
      [intros H; injection H as <- <-; exact H1|].
    destruct (store_packet_byte s1) as [s2| |] eqn:Hst; cbn [bind];
      try discriminate.
    apply store_packet_byte_lock in Hst as (Hst & _).
    destruct (gps_packet_length s2 =? 21).
    + destruct (trimble_complete s2) as [s3| |] eqn:Hc; cbn [bind];
        try discriminate.
      intros H; injection H as <- <-.
      apply trimble_complete_lock in Hc. congruence.
    + intros H. apply IH in H. st. congruence.
Qed.

Lemma magellan_loop_lock (fuel efuel : nat) (tw : Z) (s s' : State)
      (r : option bool) :
  magellan_loop fuel efuel tw s = Ok (s', r) ->
  gps_magellan_locked s' = gps_magellan_locked s \/
  gps_magellan_locked s' = (idx (gps_packet s') 13 =? 6) /\
  sentence_valid (gps_packet s') (gps_magellan_length s') = true /\
  r = Some true.
Proof.
  revert s; induction fuel as [|fuel IH]; intros s; cbn [magellan_loop].
  - destruct (gps_input_read s =? tw); [|discriminate].
    intros H; injection H as <- <-; auto.
  - destruct (gps_input_read s =? tw);
      [intros H; injection H as <- <-; auto|].
    destruct (store_packet_byte s) as [s1| |] eqn:Hst; cbn [bind];
      try discriminate.
    apply store_packet_byte_lock in Hst as (Hst & _).
    destruct (Z.eqb_spec (gps_packet_length s1) (gps_magellan_length s1))
      as [Elen|_].
    + destruct (magellan_complete efuel s1) as [[s2 u]| |] eqn:Hc; cbn [bind];
        try discriminate.
      intros H; injection H as <- <-.
      apply magellan_complete_lock in Hc as (Hp & Hm & Hc).
      unfold reset_packet; st. rewrite Hp, Hm.
      destruct Hc as [Hc|(Hc & _ & Hv & ->)]; [left; congruence|].
      right. rewrite <- Elen. auto.
    + intros H. apply IH in H. st. rewrite <- Hst. exact H.
Qed.

(** A call changes the locked flag of the Magellan decoder only by
    decoding a status sentence that passed both checks. *)
Lemma gps_process_buffer_lock (fuel : nat) (s s' : State) (r : bool) :
  gps_process_buffer fuel s = Ok (s', r) ->
  gps_magellan_locked s' = gps_magellan_locked s \/
  gps_magellan_locked s' = (idx (gps_packet s') 13 =? 6) /\
  sentence_valid (gps_packet s') (gps_magellan_length s') = true /\
  r = true.
Proof.
  unfold gps_process_buffer.
  destruct (gps_input_read s =? gps_input_write s);
    [intros H; injection H as <- <-; auto|].
  destruct (sync_loop 256 (gps_input_write s) s) as [s1| |] eqn:Hs;
    cbn [bind]; try discriminate.
  apply sync_loop_lock in Hs. rewrite <- Hs.
  destruct (gps_packet_type s1).
  - intros H; injection H as <- <-; auto.
  - destruct (trimble_loop 256 _ s1) as [[s2 r2]| |] eqn:Hl; cbn [bind];
      try discriminate.
    intros H; injection H as <- <-. apply trimble_loop_lock in Hl. auto.
  - destruct (magellan_loop 256 fuel _ s1) as [[s2 r2]| |] eqn:Hl; cbn [bind];
      try discriminate.
    intros H; injection H as <- <-. apply magellan_loop_lock in Hl.
    destruct Hl as [Hl|(? & ? & ->)]; auto.
  - destruct (magellan_loop 256 fuel _ s1) as [[s2 r2]| |] eqn:Hl; cbn [bind];
      try discriminate.
    intros H; injection H as <- <-. apply magellan_loop_lock in Hl.
    destruct Hl as [Hl|(? & ? & ->)]; auto.
Qed.

(** ** The epoch correction *)

Lemma february_table (y : Z) :
  set_february days_init y =
  [31; if is_leap_year y then 29 else 28; 31; 30; 31; 30; 31; 31; 30; 31; 30;
   31; 0].
Proof. reflexivity. Qed.

Lemma february_table_again (y y' : Z) :
  set_february (set_february days_init y) y' = set_february days_init y'.
Proof. reflexivity. Qed.

Lemma days_lookup (y m : Z) :
  1 <= m <= 12 ->
  array_get (set_february days_init y) (m - 1) = Ok (month_length y m).
Proof.
  intros Hm.
  assert (H : m = 1 \/ m = 2 \/ m = 3 \/ m = 4 \/ m = 5 \/ m = 6 \/ m = 7 \/
              m = 8 \/ m = 9 \/ m = 10 \/ m = 11 \/ m = 12) by lia.
  repeat (destruct H as [->|H]); try subst m; reflexivity.
Qed.

Lemma month_length_bounds (y m : Z) :
  1 <= m <= 12 -> 28 <= month_length y m <= 31.
Proof.
  intros Hm.
  assert (H : m = 1 \/ m = 2 \/ m = 3 \/ m = 4 \/ m = 5 \/ m = 6 \/ m = 7 \/
              m = 8 \/ m = 9 \/ m = 10 \/ m = 11 \/ m = 12) by lia.
  repeat (destruct H as [->|H]); try subst m; unfold month_length;
    cbn [Z.eqb Pos.eqb];
    first [ destruct (is_leap_year y); lia
          | vm_compute; split; discriminate ].
Qed.

(** Whenever the loop of the correction is left, it is left on a date of
    the calendar. *)
Lemma epoch_loop_valid_date (fuel : nat) (y m d c y' m' d' : Z) :
  1 <= m <= 12 -> 1 <= d -> 0 <= c ->
  epoch_loop fuel (set_february days_init y) y m d c = Ok (y', m', d') ->
  valid_date (y', m', d').
Proof.
  revert y m c; induction fuel as [|fuel IH]; intros y m c Hm Hd Hc;
    cbn [epoch_loop]; rewrite days_lookup by exact Hm; cbn [bind];
    pose proof (month_length_bounds y m Hm) as Hb;
    (destruct (Z.gtb_spec (d + c) (month_length y m)) as [Hgt|Hle];
     [| intros H; injection H as <- <- <-;
        unfold valid_date; rewrite u8_small by lia; lia]).
  - discriminate.
  - pose proof (u8_range (m + 1)) as Hu.
    destruct (Z.gtb_spec (u8 (m + 1)) 12) as [Hw|Hw].
    + rewrite february_table_again.
      rewrite days_lookup by lia. cbn [bind].
      apply IH; try lia. apply u8_range.
    + assert (Hm1 : u8 (m + 1) = m + 1) by (apply u8_small; lia).
      rewrite days_lookup by lia. cbn [bind].
      apply IH; try lia. apply u8_range.
Qed.

Lemma epoch_correction_valid_date (fuel : nat) (ry rm rd y m d : Z) :
  1 <= rm <= 12 -> 1 <= rd ->
  epoch_correction fuel ry rm rd = Ok (y, m, d) ->
  valid_date (y, m, d).
Proof.
  intros Hm Hd. unfold epoch_correction.
  apply epoch_loop_valid_date; auto; lia.
Qed.

(** With a day byte above 31 the loop is never left: whatever bound the
    model is given, it is used up. *)
Lemma epoch_loop_diverges (fuel : nat) (y m d c : Z) :
  1 <= m <= 12 -> 32 <= d -> 0 <= c ->
  epoch_loop fuel (set_february days_init y) y m d c = Fuel.
Proof.
  revert y m c; induction fuel as [|fuel IH]; intros y m c Hm Hd Hc;
    cbn [epoch_loop]; rewrite days_lookup by exact Hm; cbn [bind];
    pose proof (month_length_bounds y m Hm) as Hb;
    (destruct (Z.gtb_spec (d + c) (month_length y m)) as [Hgt|Hle]; [|lia]).
  - reflexivity.
  - pose proof (u8_range (m + 1)) as Hu.
    destruct (Z.gtb_spec (u8 (m + 1)) 12) as [Hw|Hw].
    + rewrite february_table_again.
      rewrite days_lookup by lia. cbn [bind].
      apply IH; try lia. apply u8_range.
    + assert (Hm1 : u8 (m + 1) = m + 1) by (apply u8_small; lia).
      rewrite days_lookup by lia. cbn [bind].
      apply IH; try lia. apply u8_range.
Qed.

(** ** Resynchronising *)

(** A Trimble preamble ends the scan with the skipped-byte counter and
    the trace as they are; a Magellan preamble zeroes the counter. *)
Lemma sync_loop_trimble_preamble (fuel : nat) (tw : Z) (s : State) :
  gps_packet_type s = UNKNOWN_PACKET -> gps_input_read s <> tw ->
  behind s 1 <> chr_dollar ->
  behind s 0 = 0xAB -> behind s 1 = 0x8F -> behind s 2 = DLE ->
  behind s 3 = ETX -> behind s 4 = DLE ->
  exists s',
    sync_loop (S fuel) tw s = Ok s' /\
    gps_packet_type s' = TRIMBLE_PACKET /\
    gps_input_read s' = u8 (gps_input_read s - 2) /\
    bytes_to_sync s' = bytes_to_sync s /\
    trace s' = trace s.
Proof.
  intros Ht Hr Hd H0 H1 H2 H3 H4. cbn [sync_loop].
  rewrite Ht. cbn [is_unknown andb].
  destruct (Z.eqb_spec (gps_input_read s) tw) as [E|_]; [contradiction|].
  cbn [negb].
  destruct (Z.eqb_spec (behind s 1) chr_dollar) as [E|_]; [contradiction|].
  cbn [andb]. rewrite H0, H1, H2, H3, H4. cbn.
  eexists; split; [reflexivity|]. st. auto.
Qed.

Lemma sync_loop_magellan_preamble (fuel : nat) (tw : Z) (s : State) :
  gps_packet_type s = UNKNOWN_PACKET -> gps_input_read s <> tw ->
  behind s 1 = chr_dollar -> behind s 2 = chr_dollar -> behind s 3 = 0x0A ->
  behind s 0 = chr_A \/ behind s 0 = chr_H ->
  exists s',
    sync_loop (S fuel) tw s = Ok s' /\
    gps_packet_type s' <> UNKNOWN_PACKET /\
    gps_input_read s' = u8 (gps_input_read s - 2) /\
    bytes_to_sync s' = 0 /\
    trace s' =
      trace s ++ (if bytes_to_sync s >? 3
                  then [DebugSkippedBytes (bytes_to_sync s)] else []).
Proof.
  intros Ht Hr H1 H2 H3 H0. cbn [sync_loop].
  rewrite Ht. cbn [is_unknown andb].
  destruct (Z.eqb_spec (gps_input_read s) tw) as [E|_]; [contradiction|].
  cbn [negb]. rewrite H1, H2, H3. cbn [Z.eqb Pos.eqb chr_dollar andb].
  destruct H0 as [H0|H0]; rewrite H0; cbn [Z.eqb Pos.eqb chr_A chr_H];
    (eexists; split; [reflexivity|]); unfold sync_magellan; st;
    destruct (bytes_to_sync s >? 3); st;
    rewrite ?app_nil_r; repeat split; discriminate.
Qed.

(** ** The loops over the receive ring terminate *)

Lemma unread_zero_or_positive (tw : Z) (s : State) :
  0 <= gps_input_read s < 256 -> 0 <= tw < 256 ->
  gps_input_read s <> tw -> 1 <= unread tw s.
Proof.
  unfold unread, u8. intros Hr Ht Hne.
  Z.to_euclidean_division_equations. lia.
Qed.

Lemma bind_fuel {A B : Type} (c : result A) (k : A -> result B) :
  bind c k = Fuel -> c = Fuel \/ exists a, c = Ok a /\ k a = Fuel.
Proof. destruct c; cbn [bind]; eauto; discriminate. Qed.

Lemma set_time_no_fuel (t : timestamp) (s : State) : set_time t s <> Fuel.
Proof.
  unfold set_time. intros H. apply bind_fuel in H as [H|(a & _ & H)];
    [|discriminate].
  revert H. st.
  repeat match goal with
         | |- context [match ?c with _ => _ end] => destruct c
         end; discriminate.
Qed.

Lemma sync_loop_bounded (fuel : nat) (tw : Z) (s : State) :
  0 <= gps_input_read s < 256 -> 0 <= tw < 256 ->
  unread tw s <= Z.of_nat fuel ->
  sync_loop fuel tw s <> Fuel.
Proof.
  revert s; induction fuel as [|fuel IH]; intros s Hr Ht Hu; cbn [sync_loop].
  - destruct (is_unknown (gps_packet_type s)); cbn [andb]; [|discriminate].
    destruct (Z.eqb_spec (gps_input_read s) tw) as [E|E]; cbn [negb];
      [discriminate|].
    pose proof (unread_zero_or_positive tw s Hr Ht E). lia.
  - destruct (is_unknown (gps_packet_type s)); cbn [andb]; [|discriminate].
    destruct (Z.eqb_spec (gps_input_read s) tw) as [E|E]; cbn [negb];
      [discriminate|].
    pose proof (unread_zero_or_positive tw s Hr Ht E) as H1.
    pose proof (unread_advance tw s Hr Ht H1) as Ha.
    unfold unread, advance in Ha; st.
    assert (Hnext : forall s0,
              gps_input_read s0 = gps_input_read s ->
              sync_loop fuel tw (sync_next s0) <> Fuel).
    { intros s0 E0. apply IH; unfold sync_next; st; rewrite ?E0.
      - apply u8_range.
      - exact Ht.
      - unfold unread in *; st. lia. }
    destruct ((behind s 1 =? chr_dollar) && (behind s 2 =? chr_dollar) &&
              (behind s 3 =? 10)).
    + destruct (behind s 0 =? chr_A); [discriminate|].
      destruct (behind s 0 =? chr_H); [discriminate|].
      apply Hnext. reflexivity.
    + destruct ((behind s 0 =? 171) && (behind s 1 =? 143) &&
                (behind s 2 =? DLE) && (behind s 3 =? ETX) &&
                (behind s 4 =? DLE)); [discriminate|].
      apply Hnext. reflexivity.
Qed.

Lemma store_packet_byte_read (s s1 : State) :
  store_packet_byte s = Ok s1 -> gps_input_read s1 = gps_input_read s.
Proof.
  unfold store_packet_byte.
  destruct (array_set _ _ _); cbn [bind]; try discriminate.
  intros H; injection H as <-. reflexivity.
Qed.

Lemma store_packet_byte_no_fuel (s : State) : store_packet_byte s <> Fuel.
Proof.
  unfold store_packet_byte, array_set.
  destruct ((0 <=? gps_packet_length s) &&
            (gps_packet_length s <? Z.of_nat (length (gps_packet s))));
    cbn [bind]; discriminate.
Qed.

Lemma trimble_loop_bounded (fuel : nat) (tw : Z) (s : State) :
  0 <= gps_input_read s < 256 -> 0 <= tw < 256 ->
  unread tw s <= Z.of_nat fuel ->
  trimble_loop fuel tw s <> Fuel.
Proof.
  revert s; induction fuel as [|fuel IH]; intros s Hr Ht Hu;
    cbn [trimble_loop];
    (destruct (Z.eqb_spec (gps_input_read s) tw) as [E|E]; [discriminate|]);
    pose proof (unread_zero_or_positive tw s Hr Ht E) as H1; [lia|].
  pose proof (unread_advance tw s Hr Ht H1) as Ha.
  set (s1 := if (behind s 0 =? DLE) && (behind s 1 =? DLE)
             then set_gps_input_read (u8 (gps_input_read s + 1)) s else s).
  assert (Hs1 : 0 <= gps_input_read s1 < 256 /\
                unread tw s1 <= Z.of_nat fuel + 1).
  { subst s1. destruct ((behind s 0 =? DLE) && (behind s 1 =? DLE)).
    - split; [st; apply u8_range|]. unfold unread, advance in *; st. lia.
    - split; [exact Hr|lia]. }
  clearbody s1. destruct Hs1 as (Hr1 & Hu1).
  destruct (Z.eqb_spec (gps_input_read s1) tw) as [E1|E1]; [discriminate|].
  intros H. apply bind_fuel in H as [H|(s2 & Hst & H)];
    [exact (store_packet_byte_no_fuel _ H)|].
  apply store_packet_byte_read in Hst.
  destruct (gps_packet_length s2 =? 21).
  - apply bind_fuel in H as [H|(s3 & _ & H)]; [|discriminate].
    unfold trimble_complete in H.
    apply bind_fuel in H as [H|(s3 & _ & H)]; [|discriminate].
    destruct ((idx (gps_packet s2) 20 =? ETX) && (idx (gps_packet s2) 19 =? DLE));
      [exact (set_time_no_fuel _ _ H)|discriminate].
  - revert H. apply IH; st; rewrite ?Hst.
    + apply u8_range.
    + exact Ht.
    + pose proof (unread_zero_or_positive tw s1 Hr1 Ht E1) as H2.
      pose proof (unread_advance tw s1 Hr1 Ht H2) as Ha1.
      unfold unread, advance in *; st. lia.
Qed.

Lemma magellan_complete_fuel (efuel : nat) (s : State) :
  magellan_complete efuel s = Fuel ->
  epoch_correction efuel
    (be16 (idx (gps_packet s) 9) (idx (gps_packet s) 10))
    (idx (gps_packet s) 8) (idx (gps_packet s) 7) = Fuel.
Proof.
  unfold magellan_complete, array_get.
  destruct ((0 <=? gps_packet_length s - 1) &&
            (gps_packet_length s - 1 <? Z.of_nat (length (gps_packet s))));
    cbn [bind]; try discriminate.
  destruct (idx (gps_packet s) (gps_packet_length s - 1) =? 10);
    try discriminate.
  destruct ((0 <=? gps_packet_length s - 2) &&
            (gps_packet_length s - 2 <? Z.of_nat (length (gps_packet s))));
    cbn [bind]; try discriminate.
  destruct (magellan_checksum (gps_packet s) (gps_packet_length s) =?
            idx (gps_packet s) (gps_packet_length s - 2)); try discriminate.
  destruct (gps_packet_type s); try discriminate.
  - intros H. apply bind_fuel in H as [H|([[y m] d] & _ & H)]; [exact H|].
    apply bind_fuel in H as [H|(s1 & _ & H)];
      [destruct (set_time_no_fuel _ _ H)|discriminate].
  - destruct (negb _); discriminate.
Qed.

Lemma magellan_loop_bounded (fuel efuel : nat) (tw : Z) (s : State) :
  0 <= gps_input_read s < 256 -> 0 <= tw < 256 ->
  unread tw s <= Z.of_nat fuel ->
  magellan_loop fuel efuel tw s = Fuel ->
  exists y m d, epoch_correction efuel y m d = Fuel.
Proof.
  revert s; induction fuel as [|fuel IH]; intros s Hr Ht Hu;
    cbn [magellan_loop];
    (destruct (Z.eqb_spec (gps_input_read s) tw) as [E|E]; [discriminate|]);
    pose proof (unread_zero_or_positive tw s Hr Ht E) as H1; [lia|].
  pose proof (unread_advance tw s Hr Ht H1) as Ha.
  intros H. apply bind_fuel in H as [H|(s1 & Hst & H)];
    [destruct (store_packet_byte_no_fuel _ H)|].
  apply store_packet_byte_read in Hst.
  destruct (gps_packet_length s1 =? gps_magellan_length s1).
  - apply bind_fuel in H as [H|([s2 u] & _ & H)]; [|discriminate].
    apply magellan_complete_fuel in H. eauto.
  - revert H. apply IH; st; rewrite ?Hst.
    + apply u8_range.
    + exact Ht.
    + unfold unread, advance in *; st. lia.
Qed.

Lemma sync_loop_read_range (fuel : nat) (tw : Z) (s s' : State) :
  0 <= gps_input_read s < 256 ->
  sync_loop fuel tw s = Ok s' -> 0 <= gps_input_read s' < 256.
Proof.
  revert s; induction fuel as [|fuel IH]; intros s Hr; cbn [sync_loop].
  - destruct (is_unknown (gps_packet_type s) && negb (gps_input_read s =? tw));
      [discriminate|]. intros H; injection H as <-; exact Hr.
  - destruct (is_unknown (gps_packet_type s) && negb (gps_input_read s =? tw));
      [|intros H; injection H as <-; exact Hr].
    destruct ((behind s 1 =? chr_dollar) && (behind s 2 =? chr_dollar) &&
              (behind s 3 =? 10)).
    + destruct (behind s 0 =? chr_A);
        [intros H; injection H as <-; unfold sync_magellan; st;
         destruct (bytes_to_sync s >? 3); st; apply u8_range|].
      destruct (behind s 0 =? chr_H);
        [intros H; injection H as <-; unfold sync_magellan; st;
         destruct (bytes_to_sync s >? 3); st; apply u8_range|].
      apply IH. unfold sync_next; st. apply u8_range.
    + destruct ((behind s 0 =? 171) && (behind s 1 =? 143) &&
                (behind s 2 =? DLE) && (behind s 3 =? ETX) &&
                (behind s 4 =? DLE)).
      * intros H; injection H as <-; st. apply u8_range.
      * apply IH. unfold sync_next; st. apply u8_range.
Qed.

(** The 256 iterations given to the loops over the receive ring are never
    used up: a call runs out of fuel only inside the epoch correction. *)
Lemma process_loops_bounded (fuel : nat) (s : State) :
  0 <= gps_input_read s < 256 -> 0 <= gps_input_write s < 256 ->
  gps_process_buffer fuel s = Fuel ->
  exists y m d, epoch_correction fuel y m d = Fuel.
Proof.
  intros Hr Hw. unfold gps_process_buffer.
  destruct (gps_input_read s =? gps_input_write s); [discriminate|].
  intros H. apply bind_fuel in H as [H|(s1 & Hs & H)].
  - exfalso. revert H. apply sync_loop_bounded; auto.
    pose proof (unread_bound (gps_input_write s) s). simpl. lia.
  - apply sync_loop_read_range in Hs; [|exact Hr].
    pose proof (unread_bound (gps_input_write s) s1) as Hub.
    destruct (gps_packet_type s1); try discriminate.
    + apply bind_fuel in H as [H|([s2 r] & _ & H)]; [|discriminate].
      exfalso. revert H. apply trimble_loop_bounded; auto. simpl; lia.
    + apply bind_fuel in H as [H|([s2 r] & _ & H)]; [|discriminate].
      revert H. apply magellan_loop_bounded; auto. simpl; lia.
    + apply bind_fuel in H as [H|([s2 r] & _ & H)]; [|discriminate].
      revert H. apply magellan_loop_bounded; auto. simpl; lia.
Qed.

(** ** The Trimble decoder on a packet that is wholly unread *)

Lemma unstuff_cons_plain (x : Z) (w : list Z) :
  x <> DLE -> w <> [] ->
  unstuff (x :: w) = option_map (cons x) (unstuff w).
Proof.
  intros Hx Hw. destruct w as [|c w']; [contradiction|].
  cbn [unstuff]. destruct (Z.eqb_spec x DLE) as [E|_]; [contradiction|].
  rewrite andb_false_r. reflexivity.
Qed.

Lemma unstuff_stuff (data : list Z) :
  unstuff (stuff data ++ [DLE; ETX]) = Some (data ++ [DLE; ETX]).
Proof.
  induction data as [|y l IH]; [reflexivity|].
  unfold stuff in *. cbn [flat_map].
  destruct (Z.eqb_spec y DLE) as [->|Hy].
  - cbn [app unstuff]. rewrite Z.eqb_refl. cbn [andb].
    destruct (flat_map _ l ++ [DLE; ETX]) as [|e r] eqn:E;
      [apply app_eq_nil in E as (_ & E); discriminate|].
    rewrite IH. reflexivity.
  - cbn [app]. rewrite unstuff_cons_plain; auto.
    + rewrite IH. reflexivity.
    + intros E. apply app_eq_nil in E as (_ & E). discriminate.
Qed.

Lemma unstuff_two (b c : Z) (r : list Z) :
  unstuff (b :: c :: r) =
  if (c =? DLE) && (b =? DLE)
  then match r with
       | [] => None
       | _ :: _ => option_map (cons b) (unstuff r)
       end
  else option_map (cons b) (unstuff (c :: r)).
Proof. reflexivity. Qed.

Lemma unstuff_next_plain (b x : Z) (w : list Z) :
  x <> DLE ->
  unstuff (b :: x :: w) = option_map (cons b) (unstuff (x :: w)).
Proof.
  intros Hx.
  change (unstuff (b :: x :: w))
    with (if (x =? DLE) && (b =? DLE)
          then match w with
               | [] => None
               | _ :: _ => option_map (cons b) (unstuff w)
               end
          else option_map (cons b) (unstuff (x :: w))).
  destruct (Z.eqb_spec x DLE) as [E|_]; [contradiction|]. reflexivity.
Qed.

(** One call that sees the whole wire form of a packet stores the packet:
    the framing byte, the data bytes, each once, and the terminator. *)
Lemma unstuff_wire (p1 : Z) (data : list Z) :
  p1 <> DLE ->
  unstuff (trimble_wire (p1 :: data)) = Some (trimble_packet (p1 :: data)).
Proof.
  intros Hp. unfold trimble_wire, trimble_packet, stuff. cbn [flat_map].
  destruct (Z.eqb_spec p1 DLE) as [E|_]; [contradiction|].
  cbn [app]. rewrite unstuff_next_plain by exact Hp.
  rewrite unstuff_cons_plain; auto.
  - fold (stuff data). rewrite unstuff_stuff. reflexivity.
  - intros E. apply app_eq_nil in E as (_ & E). discriminate.
Qed.

Lemma unstuff_length_pos (b : Z) (r d : list Z) :
  unstuff (b :: r) = Some d -> (1 <= length d)%nat.
Proof.
  cbn [unstuff]. destruct r as [|c r'].
  - intros H; injection H as <-. simpl. lia.
  - destruct ((c =? DLE) && (b =? DLE)).
    + destruct r' as [|e r'']; [discriminate|].
      destruct (unstuff (e :: r'')); cbn [option_map]; [|discriminate].
      intros H; injection H as <-. simpl. lia.
    + destruct (unstuff (c :: r')); cbn [option_map]; [|discriminate].
      intros H; injection H as <-. simpl. lia.
Qed.

Lemma u8_u8_add (a b : Z) : u8 (u8 a + b) = u8 (a + b).
Proof. unfold u8. apply Zplus_mod_idemp_l. Qed.

Lemma ring_holds_same_ring (s s' : State) (w : list Z) :
  gps_input_buffer s' = gps_input_buffer s ->
  gps_input_read s' = gps_input_read s ->
  ring_holds s w -> ring_holds s' w.
Proof. unfold ring_holds. intros -> ->. auto. Qed.

Lemma ring_holds_head (s : State) (b : Z) (r : list Z) :
  ring_holds s (b :: r) -> behind s 0 = b.
Proof.
  intros H. specialize (H 0%nat ltac:(simpl; lia)).
  unfold behind. rewrite Z.sub_0_r. rewrite Z.add_0_r in H. exact H.
Qed.

Lemma ring_holds_tail (s : State) (b : Z) (r : list Z) :
  ring_holds s (b :: r) -> ring_holds (advance s) r.
Proof.
  unfold ring_holds, advance. st. intros H i Hi.
  rewrite u8_u8_add.
  specialize (H (S i) ltac:(simpl; lia)). cbn [nth] in H.
  rewrite <- H. f_equal. f_equal. lia.
Qed.

Lemma behind_advance_1 (s : State) :
  behind (advance s) 1 = behind s 0.
Proof.
  unfold behind, advance. st. f_equal.
  unfold u8. rewrite Zminus_mod_idemp_l. f_equal. lia.
Qed.

Lemma trimble_loop_pass (fuel : nat) (tw : Z) (s : State) :
  gps_input_read s <> tw ->
  trimble_loop (S fuel) tw s =
  trimble_store fuel tw
    (if (behind s 0 =? DLE) && (behind s 1 =? DLE) then advance s else s).
Proof.
  intros Hr. cbn [trimble_loop].
  destruct (Z.eqb_spec (gps_input_read s) tw) as [E|_]; [contradiction|].
  reflexivity.
Qed.

Lemma advance_facts (tw : Z) (s : State) :
  0 <= gps_input_read s < 256 -> 0 <= tw < 256 -> 1 <= unread tw s ->
  gps_packet_length (advance s) = gps_packet_length s /\
  length (gps_packet (advance s)) = length (gps_packet s) /\
  0 <= gps_input_read (advance s) < 256 /\
  unread tw (advance s) = unread tw s - 1.
Proof.
  intros Hr Ht Hu. repeat split; try reflexivity.
  - unfold advance; st. apply u8_range.
  - unfold advance; st. apply u8_range.
  - apply unread_advance; assumption.
Qed.

Lemma take_byte_facts (tw : Z) (s : State) :
  gps_packet_length (take_byte s) = gps_packet_length s + 1 /\
  length (gps_packet (take_byte s)) = length (gps_packet s) /\
  gps_input_read (take_byte s) = gps_input_read s /\
  unread tw (take_byte s) = unread tw s.
Proof.
  repeat split; try reflexivity. unfold take_byte; st. apply list_set_length.
Qed.

Lemma trimble_store_fills (n : nat) :
  forall (w d : list Z) (fuel : nat) (tw : Z) (s : State),
    (length w <= n)%nat -> w <> [] ->
    ring_holds s w -> unstuff w = Some d ->
    0 <= gps_packet_length s ->
    gps_packet_length s + Z.of_nat (length d) = 21 ->
    length (gps_packet s) = 32%nat ->
    0 <= gps_input_read s < 256 -> 0 <= tw < 256 ->
    Z.of_nat (length w) <= unread tw s ->
    (length w <= S fuel)%nat ->
    trimble_store fuel tw s =
    (s3 <- trimble_complete (trimble_fill w s) ;; Ok (s3, Some true)).
Proof.
  induction n as [|n IH]; intros w d fuel tw s Hn Hw Hring Hd Hl0 Hl Hp Hr Ht Hu Hf;
    destruct w as [|b rest]; try contradiction; cbn [length] in *; [lia|].
  assert (Hne : gps_input_read s <> tw)
    by (apply unread_positive_neq; lia).
  pose proof (unstuff_length_pos _ _ _ Hd) as Hdpos.
  unfold trimble_store.
  destruct (Z.eqb_spec (gps_input_read s) tw) as [E|_]; [contradiction|].
  rewrite store_packet_byte_ok by (auto; lia). cbn [bind].
  destruct (take_byte_facts tw s) as (Hlen1 & Hp1 & Hr1 & Hu1).
  rewrite Hlen1.
  destruct (advance_facts tw (take_byte s)) as (Hlen2 & Hp2 & Hr2 & Hu2);
    [rewrite Hr1; exact Hr | exact Ht | rewrite Hu1; lia |].
  assert (Hring1 : ring_holds (advance (take_byte s)) rest).
  { apply (ring_holds_same_ring (advance s)); try reflexivity.
    eapply ring_holds_tail; exact Hring. }
  assert (Hb1 : behind (advance (take_byte s)) 1 = b).
  { change (behind (advance (take_byte s)) 1) with (behind (advance s) 1).
    rewrite behind_advance_1. eapply ring_holds_head; exact Hring. }
  destruct rest as [|c rest'].
  - cbn [unstuff] in Hd. injection Hd as <-. cbn [length] in Hl.
    replace (gps_packet_length s + 1 =? 21) with true
      by (symmetry; apply Z.eqb_eq; lia).
    reflexivity.
  - assert (Hc0 : behind (advance (take_byte s)) 0 = c)
      by (eapply ring_holds_head; exact Hring1).
    assert (Hne1 : gps_input_read (advance (take_byte s)) <> tw)
      by (apply unread_positive_neq; cbn [length] in Hu; lia).
    destruct fuel as [|fuel]; [cbn [length] in Hf; lia|].
    rewrite unstuff_two in Hd. cbn [trimble_fill].
    destruct ((c =? DLE) && (b =? DLE)) eqn:Hskip.
    + destruct rest' as [|e rest'']; [discriminate|].
      destruct (unstuff (e :: rest'')) as [d'|] eqn:Hd'; cbn [option_map] in Hd;
        [|discriminate].
      injection Hd as <-. cbn [length] in Hl, Hu, Hf, Hn.
      pose proof (unstuff_length_pos _ _ _ Hd') as Hd'pos.
      replace (gps_packet_length s + 1 =? 21) with false
        by (symmetry; apply Z.eqb_neq; lia).
      change (set_gps_input_read (u8 (gps_input_read (take_byte s) + 1))
                (take_byte s)) with (advance (take_byte s)).
      rewrite trimble_loop_pass by exact Hne1.
      rewrite Hc0, Hb1, Hskip.
      destruct (advance_facts tw (advance (take_byte s)))
        as (Hlen3 & Hp3 & Hr3 & Hu3); [exact Hr2 | exact Ht | lia |].
      apply (IH (e :: rest'') d'); cbn [length]; try assumption; try lia.
      * discriminate.
      * eapply ring_holds_tail; exact Hring1.
    + destruct (unstuff (c :: rest')) as [d'|] eqn:Hd'; cbn [option_map] in Hd;
        [|discriminate].
      injection Hd as <-. cbn [length] in Hl, Hu, Hf, Hn.
      pose proof (unstuff_length_pos _ _ _ Hd') as Hd'pos.
      replace (gps_packet_length s + 1 =? 21) with false
        by (symmetry; apply Z.eqb_neq; lia).
      change (set_gps_input_read (u8 (gps_input_read (take_byte s) + 1))
                (take_byte s)) with (advance (take_byte s)).
      rewrite trimble_loop_pass by exact Hne1.
      rewrite Hc0, Hb1, Hskip.
      apply (IH (c :: rest') d'); cbn [length]; try assumption; try lia.
      discriminate.
Qed.

Lemma trimble_fill_packet (n : nat) :
  forall (w d : list Z) (s : State),
    (length w <= n)%nat ->
    ring_holds s w -> unstuff w = Some d ->
    0 <= gps_packet_length s ->
    gps_packet_length s + Z.of_nat (length d) <= 32 ->
    length (gps_packet s) = 32%nat ->
    same_but_accumulator s (trimble_fill w s) /\
    gps_packet_length (trimble_fill w s) =
      gps_packet_length s + Z.of_nat (length d) /\
    length (gps_packet (trimble_fill w s)) = 32%nat /\
    (forall j : Z, 0 <= j < gps_packet_length s ->
       idx (gps_packet (trimble_fill w s)) j = idx (gps_packet s) j) /\
    (forall i : nat, (i < length d)%nat ->
       idx (gps_packet (trimble_fill w s)) (gps_packet_length s + Z.of_nat i) =
       nth i d 0).
Proof.
  induction n as [|n IH]; intros w d s Hn Hring Hd Hl0 Hl Hp;
    destruct w as [|b rest]; cbn [length] in Hn; try lia.
  - cbn [unstuff] in Hd. injection Hd as <-. cbn [trimble_fill length].
    split; [apply same_but_accumulator_refl|]. split; [lia|].
    split; [exact Hp|]. split; [auto|]. intros i Hi; cbn [length] in Hi; lia.
  - cbn [unstuff] in Hd. injection Hd as <-. cbn [trimble_fill length].
    split; [apply same_but_accumulator_refl|]. split; [lia|].
    split; [exact Hp|]. split; [auto|]. intros i Hi; cbn [length] in Hi; lia.
  - pose proof (ring_holds_head _ _ _ Hring) as Hb.
    assert (Hstore : forall s',
              gps_packet s' = gps_packet (take_byte s) ->
              gps_packet_length s' = gps_packet_length s + 1 ->
              forall d' sf,
                d = b :: d' ->
                gps_packet_length sf = gps_packet_length s' + Z.of_nat (length d') ->
                (forall j : Z, 0 <= j < gps_packet_length s' ->
                   idx (gps_packet sf) j = idx (gps_packet s') j) ->
                (forall i : nat, (i < length d')%nat ->
                   idx (gps_packet sf) (gps_packet_length s' + Z.of_nat i) =
                   nth i d' 0) ->
                gps_packet_length sf = gps_packet_length s + Z.of_nat (length d) /\
                (forall j : Z, 0 <= j < gps_packet_length s ->
                   idx (gps_packet sf) j = idx (gps_packet s) j) /\
                (forall i : nat, (i < length d)%nat ->
                   idx (gps_packet sf) (gps_packet_length s + Z.of_nat i) =
                   nth i d 0)).
    { intros s' Hpk Hlen d' sf -> Hlf Hold Hnew. cbn [length] in *.
      split; [lia|]. split.
      - intros j Hj. rewrite Hold by lia. rewrite Hpk.
        unfold take_byte; st. apply idx_list_set_other; lia.
      - intros [|i] Hi.
        + rewrite Z.add_0_r. rewrite Hold by lia. rewrite Hpk.
          unfold take_byte; st. cbn [nth]. rewrite Hb.
          apply idx_list_set_same. lia.
        + cbn [nth]. rewrite <- Hnew by lia. f_equal. lia. }
    assert (Hframe : forall sf,
              same_but_accumulator (advance (take_byte s)) sf ->
              same_but_accumulator s sf).
    { intros sf. apply same_but_accumulator_trans.
      unfold same_but_accumulator, advance, take_byte; st; repeat split. }
    assert (Hframe2 : forall sf,
              same_but_accumulator (advance (advance (take_byte s))) sf ->
              same_but_accumulator s sf).
    { intros sf. apply same_but_accumulator_trans.
      unfold same_but_accumulator, advance, take_byte; st; repeat split. }
    assert (Hp1 : length (gps_packet (take_byte s)) = 32%nat)
      by (unfold take_byte; st; rewrite list_set_length; exact Hp).
    assert (Hring1 : ring_holds (advance (take_byte s)) rest).
    { apply (ring_holds_same_ring (advance s)); try reflexivity.
      eapply ring_holds_tail; exact Hring. }
    destruct rest as [|c rest'].
    + cbn [unstuff] in Hd. injection Hd as <-. cbn [trimble_fill].
      cbn [length] in Hl.
      split; [unfold same_but_accumulator, take_byte; st; repeat split|].
      split; [reflexivity|]. split; [exact Hp1|].
      split.
      * intros j Hj. unfold take_byte; st. apply idx_list_set_other; lia.
      * intros [|i] Hi; cbn [length] in Hi; [|lia].
        rewrite Z.add_0_r. unfold take_byte; st. rewrite Hb.
        apply idx_list_set_same. lia.
    + rewrite unstuff_two in Hd. cbn [trimble_fill].
      destruct ((c =? DLE) && (b =? DLE)).
      * destruct rest' as [|e rest'']; [discriminate|].
        destruct (unstuff (e :: rest'')) as [d'|] eqn:Hd'; cbn [option_map] in Hd;
          [|discriminate].
        injection Hd as <-. cbn [length] in Hl, Hn.
        destruct (IH (e :: rest'') d' (advance (advance (take_byte s))))
          as (Hs & Hlf & Hpf & Hold & Hnew); auto.
        -- cbn [length]; lia.
        -- eapply ring_holds_tail; exact Hring1.
        -- unfold advance, take_byte; st. lia.
        -- unfold advance, take_byte; st. lia.
        -- destruct (Hstore (advance (advance (take_byte s))) eq_refl eq_refl
                       d' _ eq_refl Hlf Hold Hnew) as (H1 & H2 & H3).
           split; [apply Hframe2; exact Hs|]. split; [exact H1|].
           split; [exact Hpf|]. split; assumption.
      * destruct (unstuff (c :: rest')) as [d'|] eqn:Hd'; cbn [option_map] in Hd;
          [|discriminate].
        injection Hd as <-. cbn [length] in Hl, Hn.
        destruct (IH (c :: rest') d' (advance (take_byte s)))
          as (Hs & Hlf & Hpf & Hold & Hnew); auto.
        -- cbn [length]; lia.
        -- unfold advance, take_byte; st. lia.
        -- unfold advance, take_byte; st. lia.
        -- destruct (Hstore (advance (take_byte s)) eq_refl eq_refl
                       d' _ eq_refl Hlf Hold Hnew) as (H1 & H2 & H3).
           split; [apply Hframe; exact Hs|]. split; [exact H1|].
           split; [exact Hpf|]. split; assumption.
Qed.

Lemma trimble_wire_length (data : list Z) :
  (length data + 3 <= length (trimble_wire data))%nat.
Proof.
  unfold trimble_wire. cbn [length]. rewrite length_app. cbn [length].
  assert (H : (length data <= length (stuff data))%nat).
  { unfold stuff. induction data as [|y l IH]; cbn [flat_map length]; [lia|].
    rewrite length_app. destruct (y =? DLE); cbn [length]; lia. }
  lia.
Qed.

Lemma trimble_loop_decodes (tw : Z) (s : State) (p1 : Z) (data : list Z) :
  length (gps_input_buffer s) = 256%nat -> length (gps_packet s) = 32%nat ->
  0 <= gps_input_read s < 256 -> 0 <= tw < 256 ->
  gps_packet_length s = 0 ->
  behind s 1 <> DLE -> p1 <> DLE -> length data = 17%nat ->
  ring_holds s (trimble_wire (p1 :: data)) ->
  Z.of_nat (length (trimble_wire (p1 :: data))) <= unread tw s ->
  (countdown_mode s = COUNTDOWN_SYNCING -> exposure_total s <> 0) ->
  exists s',
    trimble_loop 256 tw s = Ok (s', Some true) /\
    gps_last_timestamp s' = trimble_timestamp (trimble_packet (p1 :: data)) /\
    gps_state s' = GPS_ACTIVE /\
    gps_packet_type s' = UNKNOWN_PACKET /\
    gps_packet_length s' = 0 /\
    bytes_to_sync s' = bytes_to_sync s /\
    gps_magellan_locked s' = gps_magellan_locked s /\
    (forall i : nat, (i < 21)%nat ->
       idx (gps_packet s') (Z.of_nat i) =
       nth i (trimble_packet (p1 :: data)) 0).
Proof.
  intros Hb Hp Hr Hw Hlen Hprev Hp1 Hdata Hring Hu Hsync.
  pose proof (unstuff_wire p1 data Hp1) as Hd.
  pose proof (trimble_wire_length (p1 :: data)) as Hwl. cbn [length] in Hwl.
  pose proof (unread_bound tw s) as Hub.
  assert (Hplen : length (trimble_packet (p1 :: data)) = 21%nat)
    by (unfold trimble_packet; cbn [length]; rewrite length_app; cbn [length]; lia).
  assert (Hne : gps_input_read s <> tw)
    by (apply unread_positive_neq; lia).
  change 256%nat with (S 255). rewrite trimble_loop_pass by exact Hne.
  destruct (Z.eqb_spec (behind s 1) DLE) as [E|_]; [contradiction|].
  rewrite andb_false_r.
  rewrite (trimble_store_fills _ (trimble_wire (p1 :: data))
             (trimble_packet (p1 :: data)) 255 tw s (le_n _));
    auto; try lia; [|unfold trimble_wire; discriminate].
  destruct (trimble_fill_packet _ (trimble_wire (p1 :: data))
              (trimble_packet (p1 :: data)) s (le_n _) Hring Hd)
    as (Hs & Hlf & Hpf & _ & Hnew); try lia.
  rewrite Hlen, Z.add_0_l in *.
  set (sf := trimble_fill (trimble_wire (p1 :: data)) s) in *.
  assert (Hidx : forall i : nat, (i < 21)%nat ->
            idx (gps_packet sf) (Z.of_nat i) =
            nth i (trimble_packet (p1 :: data)) 0)
    by (intros i Hi; apply Hnew; lia).
  assert (Hpk : forall k : Z, 0 <= k < 21 ->
            idx (gps_packet sf) k = idx (trimble_packet (p1 :: data)) k).
  { intros k Hk. rewrite <- (Z2Nat.id k) at 1 by lia.
    rewrite Hidx by lia. reflexivity. }
  assert (Hts : trimble_timestamp (gps_packet sf) =
                trimble_timestamp (trimble_packet (p1 :: data))).
  { unfold trimble_timestamp. rewrite !Hpk by lia. reflexivity. }
  assert (Hterm : idx (trimble_packet (p1 :: data)) 20 = ETX /\
                  idx (trimble_packet (p1 :: data)) 19 = DLE).
  { do 18 (destruct data as [|? data]; try discriminate Hdata).
    split; reflexivity. }
  unfold trimble_complete. rewrite !Hpk by lia.
  destruct Hterm as (-> & ->). rewrite !Z.eqb_refl. cbn [andb].
  unfold same_but_accumulator in Hs.
  repeat match goal with H : _ /\ _ |- _ => destruct H end.
  destruct (set_time_defined (trimble_timestamp (gps_packet sf)) sf) as (s1 & Hs1);
    [intros Hc; replace (exposure_total sf) with (exposure_total s) by auto;
     apply Hsync; congruence|].
  rewrite Hs1. cbn [bind returned].
  apply set_time_publishes in Hs1 as (Hdec & Hlast & Hact & _).
  unfold same_decoder in Hdec.
  repeat match goal with H : _ /\ _ |- _ => destruct H end.
  exists (reset_packet s1). unfold reset_packet; st.
  repeat split; try congruence.
  intros i Hi. replace (gps_packet s1) with (gps_packet sf) by auto.
  apply Hidx; exact Hi.
Qed.

(** What holds of the Trimble decoder: when the decoder is synchronised
    on the first byte of a packet and the whole wire form of the packet is
    unread at one call, that call publishes the timestamp encoded in the
    packet, returns TRUE and empties the accumulator. *)
Lemma trimble_packet_decoded_when_unread
      (fuel : nat) (s : State) (p1 : Z) (data : list Z) :
  buffers_ok s ->
  gps_packet_type s = TRIMBLE_PACKET -> gps_packet_length s = 0 ->
  behind s 1 <> DLE -> p1 <> DLE -> length data = 17%nat ->
  ring_holds s (trimble_wire (p1 :: data)) ->
  Z.of_nat (length (trimble_wire (p1 :: data))) <= unread (gps_input_write s) s ->
  (countdown_mode s = COUNTDOWN_SYNCING -> exposure_total s <> 0) ->
  exists s',
    gps_process_buffer fuel s = Ok (s', true) /\
    gps_last_timestamp s' = trimble_timestamp (trimble_packet (p1 :: data)) /\
    gps_state s' = GPS_ACTIVE /\
    gps_packet_type s' = UNKNOWN_PACKET /\
    gps_packet_length s' = 0.
Proof.
  intros (Hb & Hp & Hr & Hw) Hty Hlen Hprev Hp1 Hdata Hring Hu Hsync.
  pose proof (trimble_wire_length (p1 :: data)) as Hwl. cbn [length] in Hwl.
  destruct (trimble_loop_decodes (gps_input_write s) s p1 data)
    as (s' & Hloop & Hts & Hst & Hpt & Hpl & _); auto.
  unfold gps_process_buffer.
  destruct (Z.eqb_spec (gps_input_read s) (gps_input_write s)) as [E|_];
    [exfalso; revert E; apply unread_positive_neq; lia|].
  rewrite sync_loop_known by (rewrite Hty; discriminate).
  cbn [bind]. rewrite Hty, Hloop. cbn [bind returned].
  exists s'. auto.
Qed.

Lemma sync_loop_skip (fuel : nat) (tw : Z) (s : State) :
  gps_packet_type s = UNKNOWN_PACKET -> gps_input_read s <> tw ->
  behind s 1 <> chr_dollar -> behind s 0 <> 0xAB ->
  sync_loop (S fuel) tw s = sync_loop fuel tw (sync_next s).
Proof.
  intros Ht Hr Hd Hab. cbn [sync_loop]. rewrite Ht. cbn [is_unknown andb].
  destruct (Z.eqb_spec (gps_input_read s) tw) as [E|_]; [contradiction|].
  cbn [negb].
  destruct (Z.eqb_spec (behind s 1) chr_dollar) as [E|_]; [contradiction|].
  cbn [andb].
  destruct (Z.eqb_spec (behind s 0) 171) as [E|_]; [contradiction|].
  reflexivity.
Qed.

Lemma behind_at (s s0 : State) (i k : Z) :
  gps_input_buffer s = gps_input_buffer s0 ->
  u8 (gps_input_read s) = u8 (gps_input_read s0 + i) ->
  behind s k = idx (gps_input_buffer s0) (u8 (gps_input_read s0 + i - k)).
Proof.
  intros Hb Hr. unfold behind. rewrite Hb. f_equal.
  unfold u8 in *. rewrite <- Zminus_mod_idemp_l, Hr, Zminus_mod_idemp_l.
  reflexivity.
Qed.

Lemma ring_holds_at (s : State) (w : list Z) (j : Z) :
  ring_holds s w -> 0 <= j < Z.of_nat (length w) ->
  idx (gps_input_buffer s) (u8 (gps_input_read s + j)) = idx w j.
Proof.
  intros H Hj. specialize (H (Z.to_nat j) ltac:(lia)).
  rewrite Z2Nat.id in H by lia. exact H.
Qed.

Lemma sync_loop_trimble_match (fuel : nat) (tw : Z) (s : State) :
  gps_packet_type s = UNKNOWN_PACKET -> gps_input_read s <> tw ->
  behind s 1 <> chr_dollar ->
  behind s 0 = 0xAB -> behind s 1 = 0x8F -> behind s 2 = DLE ->
  behind s 3 = ETX -> behind s 4 = DLE ->
  sync_loop (S fuel) tw s =
  Ok (set_gps_input_read (u8 (gps_input_read s - 2))
        (set_gps_packet_type TRIMBLE_PACKET s)).
Proof.
  intros Ht Hr Hd H0 H1 H2 H3 H4. cbn [sync_loop].
  rewrite Ht. cbn [is_unknown andb].
  destruct (Z.eqb_spec (gps_input_read s) tw) as [E|_]; [contradiction|].
  cbn [negb].
  destruct (Z.eqb_spec (behind s 1) chr_dollar) as [E|_]; [contradiction|].
  cbn [andb]. rewrite H0, H1, H2, H3, H4. reflexivity.
Qed.

Lemma unread_shift (tw r r' i : Z) :
  0 <= r < 256 -> 0 <= tw < 256 -> r' = u8 (r + i) ->
  0 <= i <= u8 (tw - r) ->
  u8 (tw - r') = u8 (tw - r) - i.
Proof.
  unfold u8. intros Hr Ht -> Hi.
  Z.to_euclidean_division_equations. lia.
Qed.

Lemma u8_idem (x : Z) : u8 (u8 x) = u8 x.
Proof. unfold u8. apply Zmod_mod. Qed.

(** The same from the state a completed packet leaves behind: the read
    cursor on the ETX of the previous packet, the accumulator empty.  The
    scan passes the ETX and the first two bytes of the packet, recognises
    the preamble and rewinds; the counter of skipped bytes goes up by
    three. *)
Lemma trimble_packet_decoded_after_previous
      (fuel : nat) (s : State) (data : list Z) :
  buffers_ok s ->
  gps_packet_type s = UNKNOWN_PACKET -> gps_packet_length s = 0 ->
  behind s 1 = DLE -> length data = 16%nat ->
  ring_holds s (ETX :: trimble_wire (0x8F :: 0xAB :: data)) ->
  Z.of_nat (length (ETX :: trimble_wire (0x8F :: 0xAB :: data)))
    <= unread (gps_input_write s) s ->
  (countdown_mode s = COUNTDOWN_SYNCING -> exposure_total s <> 0) ->
  exists s',
    gps_process_buffer fuel s = Ok (s', true) /\
    gps_last_timestamp s' =
      trimble_timestamp (trimble_packet (0x8F :: 0xAB :: data)) /\
    gps_state s' = GPS_ACTIVE /\
    gps_packet_type s' = UNKNOWN_PACKET /\
    gps_packet_length s' = 0 /\
    bytes_to_sync s' = u8 (u8 (u8 (bytes_to_sync s + 1) + 1) + 1).
Proof.
  intros (Hb & Hp & Hr & Hw) Hty Hlen Hprev Hdata Hring Hu Hsync.
  set (tw := gps_input_write s) in *.
  set (w := trimble_wire (0x8F :: 0xAB :: data)) in *.
  pose proof (trimble_wire_length (0x8F :: 0xAB :: data)) as Hwl.
  fold w in Hwl. cbn [length] in Hwl, Hu.
  pose proof (unread_bound tw s) as Hub.
  assert (Hat : forall j : Z, 0 <= j < Z.of_nat (S (length w)) ->
            idx (gps_input_buffer s) (u8 (gps_input_read s + j)) =
            idx (ETX :: w) j)
    by (intros j Hj; apply ring_holds_at; [exact Hring | cbn [length]; lia]).
  assert (Hbehind : forall sx i k,
            gps_input_buffer sx = gps_input_buffer s ->
            u8 (gps_input_read sx) = u8 (gps_input_read s + i) ->
            0 <= i - k < Z.of_nat (S (length w)) ->
            behind sx k = idx (ETX :: w) (i - k)).
  { intros sx i k Hbx Hrx Hik. rewrite (behind_at sx s i k Hbx Hrx).
    replace (gps_input_read s + i - k) with (gps_input_read s + (i - k)) by lia.
    apply Hat; exact Hik. }
  assert (Hnext : forall sx i,
            u8 (gps_input_read sx) = u8 (gps_input_read s + i) ->
            u8 (gps_input_read (sync_next sx)) = u8 (gps_input_read s + (i + 1))).
  { intros sx i Hrx. unfold sync_next; st.
    rewrite u8_idem.
    rewrite <- (u8_u8_add (gps_input_read sx)), Hrx, u8_u8_add.
    f_equal. lia. }
  assert (Hneq : forall sx i,
            0 <= gps_input_read sx < 256 ->
            u8 (gps_input_read sx) = u8 (gps_input_read s + i) ->
            0 <= i < unread tw s -> gps_input_read sx <> tw).
  { intros sx i Hrx Hux Hi. apply unread_positive_neq. unfold unread.
    rewrite (unread_shift tw (gps_input_read s) (gps_input_read sx) i); auto;
      [fold (unread tw s); lia | | fold (unread tw s); lia].
    rewrite <- Hux. symmetry; apply u8_small; exact Hrx. }
  set (sa := sync_next s). set (sb := sync_next sa). set (sc := sync_next sb).
  assert (Hr0 : u8 (gps_input_read s) = u8 (gps_input_read s + 0))
    by (f_equal; lia).
  pose proof (Hnext s 0 Hr0) as Hra. fold sa in Hra.
  pose proof (Hnext sa _ Hra) as Hrb. fold sb in Hrb.
  pose proof (Hnext sb _ Hrb) as Hrc. fold sc in Hrc.
  cbn [Z.add Pos.add Pos.succ] in Hra, Hrb, Hrc.
  assert (Hwhd : exists rest, w = DLE :: 0x8F :: 0xAB :: rest).
  { subst w. unfold trimble_wire, stuff. cbn [flat_map]. cbn.
    eexists; reflexivity. }
  destruct Hwhd as (rest & Hw3).
  assert (HrA : 0 <= gps_input_read sa < 256) by (apply u8_range).
  assert (HrB : 0 <= gps_input_read sb < 256) by (apply u8_range).
  assert (HrC : 0 <= gps_input_read sc < 256) by (apply u8_range).
  unfold gps_process_buffer. fold tw.
  destruct (Z.eqb_spec (gps_input_read s) tw) as [E|_];
    [exfalso; revert E; apply unread_positive_neq; lia|].
  change 256%nat with (S (S (S (S 252)))).
  rewrite sync_loop_skip; auto;
    [ | apply unread_positive_neq; lia
      | rewrite Hprev; discriminate
      | rewrite (Hbehind s 0 0) by (auto; lia); cbn; discriminate ].
  fold sa.
  rewrite sync_loop_skip; auto;
    [ | apply (Hneq sa 1); auto; lia
      | rewrite (Hbehind sa 1 1) by (auto; lia); cbn; discriminate
      | rewrite (Hbehind sa 1 0) by (auto; lia); rewrite Hw3; cbn; discriminate ].
  fold sb.
  rewrite sync_loop_skip; auto;
    [ | apply (Hneq sb 2); auto; lia
      | rewrite (Hbehind sb 2 1) by (auto; lia); rewrite Hw3; cbn; discriminate
      | rewrite (Hbehind sb 2 0) by (auto; lia); rewrite Hw3; cbn; discriminate ].
  fold sc.
  rewrite sync_loop_trimble_match; auto;
    [ | apply (Hneq sc 3); auto; lia
      | rewrite (Hbehind sc 3 1) by (auto; lia); rewrite Hw3; cbn; discriminate
      | rewrite (Hbehind sc 3 0) by (auto; lia); rewrite Hw3; reflexivity
      | rewrite (Hbehind sc 3 1) by (auto; lia); rewrite Hw3; reflexivity
      | rewrite (Hbehind sc 3 2) by (auto; lia); rewrite Hw3; reflexivity
      | rewrite (Hbehind sc 3 3) by (auto; lia); reflexivity
      | rewrite (behind_at sc s 3 4) by auto;
        replace (gps_input_read s + 3 - 4) with (gps_input_read s - 1) by lia;
        exact Hprev ].
  cbn [bind].
  set (s1 := set_gps_input_read (u8 (gps_input_read sc - 2))
               (set_gps_packet_type TRIMBLE_PACKET sc)).
  change (gps_packet_type s1) with TRIMBLE_PACKET. cbv iota.
  assert (Hr1 : u8 (gps_input_read s1) = u8 (gps_input_read s + 1)).
  { subst s1; st. rewrite u8_idem. unfold u8 in *.
    rewrite <- Zminus_mod_idemp_l, Hrc, Zminus_mod_idemp_l. f_equal. lia. }
  assert (Hr1' : 0 <= gps_input_read s1 < 256) by (subst s1; st; apply u8_range).
  destruct (trimble_loop_decodes tw s1 0x8F (0xAB :: data))
    as (s' & Hloop & Hts & Hst & Hpt & Hpl & Hbs & _); auto.
  - rewrite (behind_at s1 s 1 1) by auto.
    replace (gps_input_read s + 1 - 1) with (gps_input_read s + 0) by lia.
    rewrite Hat by lia. cbn. discriminate.
  - discriminate.
  - cbn [length]. lia.
  - fold w. intros i Hi.
    replace (gps_input_buffer s1) with (gps_input_buffer s) by reflexivity.
    rewrite <- u8_u8_add, Hr1, u8_u8_add.
    replace (gps_input_read s + 1 + Z.of_nat i)
      with (gps_input_read s + Z.of_nat (S i)) by lia.
    apply (Hring (S i)). cbn [length]. lia.
  - fold w. unfold unread.
    rewrite (unread_shift tw (gps_input_read s) (gps_input_read s1) 1); auto;
      [fold (unread tw s); lia | | fold (unread tw s); lia].
    rewrite <- Hr1. symmetry; apply u8_small; exact Hr1'.
  - rewrite Hloop. cbn [bind returned]. exists s'.
    repeat split; auto.
Qed.

(** Where the decoding goes wrong when a packet arrives in pieces: a call
    that finds a single unread 0x10 behind another 0x10 drops it, whether
    the 0x10 before it was stored or was itself dropped as padding by the
    call before. *)
Lemma trimble_call_drops_dle_after_dle (fuel : nat) (s : State) :
  buffers_ok s ->
  gps_packet_type s = TRIMBLE_PACKET ->
  behind s 0 = DLE -> behind s 1 = DLE ->
  unread (gps_input_write s) s = 1 ->
  gps_process_buffer fuel s = Ok (advance s, false).
Proof.
  intros (Hb & Hp & Hr & Hw) Hty H0 H1 Hu.
  assert (Hne : gps_input_read s <> gps_input_write s)
    by (apply unread_positive_neq; lia).
  assert (Heq : gps_input_read (advance s) = gps_input_write s).
  { pose proof (unread_advance (gps_input_write s) s Hr Hw ltac:(lia)) as Ha.
    rewrite Hu in Ha. unfold unread, advance, u8 in *; st.
    Z.to_euclidean_division_equations. lia. }
  unfold gps_process_buffer.
  destruct (Z.eqb_spec (gps_input_read s) (gps_input_write s)) as [E|_];
    [contradiction|].
  rewrite sync_loop_known by (rewrite Hty; discriminate).
  cbn [bind]. rewrite Hty.
  change 256%nat with (S 255). rewrite trimble_loop_pass by exact Hne.
  rewrite H0, H1, Z.eqb_refl. cbn [andb].
  unfold trimble_store. rewrite Heq, Z.eqb_refl. reflexivity.
Qed.

Lemma every_day_true (test : Z -> Z -> Z -> bool) (y0 : Z) (n : nat) (y m d : Z) :
  every_day test y0 n = true ->
  y0 <= y < y0 + Z.of_nat n -> 1 <= m <= 12 -> 1 <= d <= 31 ->
  test y m d = true.
Proof.
  intros H Hy Hm Hd. unfold every_day in H. rewrite forallb_forall in H.
  specialize (H (Z.to_nat (y - y0)) ltac:(apply in_seq; lia)).
  rewrite forallb_forall in H.
  specialize (H (Z.to_nat m) ltac:(apply in_seq; lia)).
  rewrite forallb_forall in H.
  specialize (H (Z.to_nat d) ltac:(apply in_seq; lia)).
  rewrite !Z2Nat.id in H by lia.
  replace (y0 + (y - y0)) with y in H by lia. exact H.
Qed.

Lemma epoch_correction_checked_1980_2099 :
  every_day (fun y m d => is_ok (epoch_correction 3000 y m d)) 1980 120 = true.
Proof. vm_compute. reflexivity. Qed.

(** For the raw years 1980 to 2099 the loop of the epoch correction is
    left within 3000 passes for every day 1..31 of every month, on a date
    of the calendar. *)
Lemma epoch_correction_terminates_1980_2099 (y m d : Z) :
  1980 <= y <= 2099 -> 1 <= m <= 12 -> 1 <= d <= 31 ->
  exists date, epoch_correction 3000 y m d = Ok date /\ valid_date date.
Proof.
  intros Hy Hm Hd.
  pose proof (every_day_true _ 1980 120 y m d
                epoch_correction_checked_1980_2099
                ltac:(lia) Hm Hd) as H.
  cbv beta in H.
  destruct (epoch_correction 3000 y m d) as [[[y' m'] d']| |] eqn:E;
    try discriminate H.
  eexists; split; [reflexivity|].
  eapply epoch_correction_valid_date; [| |exact E]; lia.
Qed.

(** ** Runs of the receive side keep the decoder in shape *)

Lemma set_time_controller (t : timestamp) (s s' : State) :
  set_time t s = Ok s' ->
  exposure_total s' = exposure_total s /\
  (countdown_mode s' = COUNTDOWN_SYNCING -> countdown_mode s = COUNTDOWN_SYNCING) /\
  timestamps_sent s' = S (timestamps_sent s).
Proof.
  destruct s as [ib ir iw pt pl pk ml mk bts gs cm et ec es rs lt ls tc tr].
  unfold set_time, trigger_countdown, timestamps_sent, emit.
  state_simpl.
  destruct cm; state_simpl.
  all: repeat first
         [ progress (cbn [bind]; state_simpl)
         | match goal with
           | |- context [if ?c then _ else _] => destruct c; state_simpl
           end ].
  all: try discriminate.
  all: intros H; injection H as <-; state_simpl.
  all: rewrite ?count_events_snoc, ?count_events_app;
       cbn [event_eqb_timestamp count_events filter length];
       repeat split; try discriminate; try lia; auto.
Qed.

Lemma ring_ok_same (s s' : State) :
  same_decoder s s' -> ring_ok s -> ring_ok s'.
Proof.
  unfold same_decoder, ring_ok, buffers_ok.
  intros (E1 & E2 & E3 & E4 & E5 & E6 & E7 & E8 & E9).
  rewrite E1, E2, E3, E6, E9. auto.
Qed.

Lemma set_time_inv (t : timestamp) (s : State) :
  sync_safe s ->
  exists s',
    set_time t s = Ok s' /\ same_decoder s s' /\ sync_safe s' /\
    timestamps_sent s' = S (timestamps_sent s) /\
    gps_last_timestamp s' = t /\ gps_state s' = GPS_ACTIVE.
Proof.
  intros Hs. destruct (set_time_defined t s Hs) as (s' & E).
  exists s'. split; [exact E|].
  destruct (set_time_publishes t s s' E) as (Hd & Ht & Hg & _).
  destruct (set_time_controller t s s' E) as (He & Hm & Hc).
  repeat split; try assumption; try apply Hd.
  unfold sync_safe in *. intros H. rewrite He. auto.
Qed.

Lemma epoch_loop_defined (fuel : nat) :
  forall y m d c : Z,
    1 <= m <= 13 ->
    epoch_loop fuel (set_february days_init y) y m d c <> Undef.
Proof.
  induction fuel as [|fuel IH]; intros y m d c Hm; cbn [epoch_loop];
    rewrite february_table;
    (rewrite array_get_ok by (cbn [length]; lia)); cbn [bind];
    match goal with |- context [?a >? ?b] => destruct (a >? b) end;
    try discriminate.
  rewrite u8_small by lia.
  destruct (Z.gtb_spec (m + 1) 12) as [Hgt|Hle].
  - rewrite <- (february_table y), february_table_again, february_table.
    rewrite array_get_ok by (cbn [length]; lia). cbn [bind].
    rewrite <- february_table. apply IH. lia.
  - rewrite array_get_ok by (cbn [length]; lia). cbn [bind].
    rewrite <- february_table. apply IH. lia.
Qed.

Lemma epoch_loop_undefined (fuel : nat) (days : list Z) (y m d c : Z) :
  length days = 13%nat -> ~ (1 <= m <= 13) ->
  epoch_loop fuel days y m d c = Undef.
Proof.
  intros Hl Hm. destruct fuel; cbn [epoch_loop]; unfold array_get; rewrite Hl;
    destruct (Z.leb_spec 0 (m - 1)); destruct (Z.ltb_spec (m - 1) (Z.of_nat 13));
    cbn [andb bind]; try reflexivity; lia.
Qed.

Lemma epoch_correction_defined (fuel : nat) (y m d : Z) :
  1 <= m <= 13 -> epoch_correction fuel y m d <> Undef.
Proof. unfold epoch_correction. apply epoch_loop_defined. Qed.

(** X9: the month byte indexes the table of month lengths.  The epoch
    correction reads [days[month - 1]] before anything else: with the
    month byte of the sentence outside 1..13 the read is outside the
    array of 13 elements, and with the month byte inside 1..13 every read
    of the table is inside it, however long the loop runs. *)
Theorem epoch_correction_month_index (fuel : nat) (y m d : Z) :
  (1 <= m <= 13 -> epoch_correction fuel y m d <> Undef) /\
  (~ (1 <= m <= 13) -> epoch_correction fuel y m d = Undef).
Proof.
  split.
  - apply epoch_correction_defined.
  - unfold epoch_correction.
    apply epoch_loop_undefined. rewrite february_table. reflexivity.
Qed.

Lemma take_byte_ring (s : State) :
  ring_ok s -> ring_ok (take_byte s) /\ same_controller s (take_byte s).
Proof.
  unfold ring_ok, buffers_ok, same_controller, take_byte. st.
  rewrite list_set_length. intuition.
Qed.

Lemma advance_ring (s : State) :
  ring_ok s -> ring_ok (advance s) /\ same_controller s (advance s).
Proof.
  unfold ring_ok, buffers_ok, same_controller, advance. st.
  pose proof (u8_range (gps_input_read s + 1)). intuition.
Qed.

Lemma sync_safe_same (s s' : State) :
  same_controller s s' -> sync_safe s -> sync_safe s'.
Proof.
  unfold same_controller, sync_safe. intros (-> & ->). auto.
Qed.

Lemma trimble_complete_inv (s : State) :
  ring_ok s -> sync_safe s ->
  exists s',
    trimble_complete s = Ok s' /\ ring_ok s' /\
    gps_packet_type s' = UNKNOWN_PACKET /\ gps_packet_length s' = 0 /\
    sync_safe s' /\
    (timestamps_sent s' = timestamps_sent s /\
     gps_last_timestamp s' = gps_last_timestamp s /\
     gps_state s' = gps_state s \/
     timestamps_sent s' = S (timestamps_sent s) /\ gps_state s' = GPS_ACTIVE).
Proof.
  intros Hr Hs. unfold trimble_complete.
  destruct ((idx (gps_packet s) 20 =? ETX) && (idx (gps_packet s) 19 =? DLE)).
  - destruct (set_time_inv (trimble_timestamp (gps_packet s)) s Hs)
      as (s1 & E & Hd & Hs1 & Hc & Ht & Hg).
    rewrite E. cbn [bind]. eexists; split; [reflexivity|].
    pose proof (ring_ok_same s s1 Hd Hr) as Hr1.
    unfold ring_ok, sync_safe, reset_packet, timestamps_sent in *. st.
    repeat split; try apply Hr1; auto.
  - cbn [bind]. eexists; split; [reflexivity|].
    unfold ring_ok, sync_safe, reset_packet, bad_packet,
      timestamps_sent in *. st.
    rewrite !count_events_snoc. cbn [event_eqb_timestamp].
    repeat split; try apply Hr; auto.
    left. repeat split; lia.
Qed.

Lemma trimble_loop_inv (fuel : nat) :
  forall (tw : Z) (s : State),
    ring_ok s -> sync_safe s -> 0 <= gps_packet_length s < 21 ->
    match trimble_loop fuel tw s with
    | Ok (s', r) =>
        ring_ok s' /\ sync_safe s' /\
        (gps_packet_type s' = gps_packet_type s /\
         0 <= gps_packet_length s' < 21 /\ r = None /\
         timestamps_sent s' = timestamps_sent s /\
         gps_last_timestamp s' = gps_last_timestamp s /\
         gps_state s' = gps_state s \/
         gps_packet_type s' = UNKNOWN_PACKET /\ gps_packet_length s' = 0 /\
         r = Some true /\
         (timestamps_sent s' = timestamps_sent s /\
          gps_last_timestamp s' = gps_last_timestamp s /\
          gps_state s' = gps_state s \/
          timestamps_sent s' = S (timestamps_sent s) /\
          gps_state s' = GPS_ACTIVE))
    | Undef => False
    | Fuel => True
    end.
Proof.
  induction fuel as [|fuel IH]; intros tw s Hr Hs Hl; cbn [trimble_loop].
  - destruct (gps_input_read s =? tw); [|exact I].
    split; [exact Hr|]. split; [exact Hs|]. left. auto 10.
  - destruct (gps_input_read s =? tw).
    { split; [exact Hr|]. split; [exact Hs|]. left. auto 10. }
    set (s1 := if (behind s 0 =? DLE) && (behind s 1 =? DLE)
               then set_gps_input_read (u8 (gps_input_read s + 1)) s else s).
    assert (H1 : ring_ok s1 /\ same_controller s s1 /\
                 gps_packet_length s1 = gps_packet_length s /\
                 gps_packet_type s1 = gps_packet_type s /\
                 timestamps_sent s1 = timestamps_sent s /\
                 gps_last_timestamp s1 = gps_last_timestamp s /\
                 gps_state s1 = gps_state s).
    { subst s1. destruct ((behind s 0 =? DLE) && (behind s 1 =? DLE)).
      - destruct (advance_ring s Hr) as (Ha & Hb).
        split; [exact Ha|]. split; [exact Hb|]. auto.
      - unfold same_controller. auto 10. }
    clearbody s1. destruct H1 as (Hr1 & Hc1 & Hl1 & Ht1 & Hn1 & Hts1 & Hg1).
    pose proof (sync_safe_same s s1 Hc1 Hs) as Hs1.
    destruct (gps_input_read s1 =? tw).
    { split; [exact Hr1|]. split; [exact Hs1|]. left. rewrite Hl1. auto 10. }
    rewrite store_packet_byte_ok by (try apply Hr1; lia). cbn [bind].
    destruct (take_byte_ring s1 Hr1) as (Hr2 & Hc2).
    pose proof (sync_safe_same s1 _ Hc2 Hs1) as Hs2.
    assert (Hl2 : gps_packet_length (take_byte s1) = gps_packet_length s + 1)
      by (unfold take_byte; st; lia).
    assert (Hk2 : gps_packet_type (take_byte s1) = gps_packet_type s /\
                  timestamps_sent (take_byte s1) = timestamps_sent s /\
                  gps_last_timestamp (take_byte s1) = gps_last_timestamp s /\
                  gps_state (take_byte s1) = gps_state s)
      by (unfold take_byte, timestamps_sent in *; st; auto).
    destruct Hk2 as (Ht2 & Hn2 & Hts2 & Hg2).
    destruct (Z.eqb_spec (gps_packet_length (take_byte s1)) 21) as [E|E].
    + destruct (trimble_complete_inv (take_byte s1) Hr2 Hs2)
        as (s3 & E3 & Hd3 & Hu & Hm & Hs3 & Hc3).
      rewrite E3. cbn [bind].
      split; [exact Hd3|]. split; [exact Hs3|]. right.
      split; [exact Hu|]. split; [exact Hm|].
      split; [reflexivity|].
      rewrite <- Hn2, <- Hts2, <- Hg2. exact Hc3.
    + set (s2 := set_gps_input_read _ (take_byte s1)).
      destruct (advance_ring (take_byte s1) Hr2) as (Hr3 & Hc3).
      fold s2 in Hr3, Hc3. change (advance (take_byte s1)) with s2 in Hr3, Hc3.
      pose proof (sync_safe_same _ s2 Hc3 Hs2) as Hs3.
      specialize (IH tw s2 Hr3 Hs3).
      assert (Hx : gps_packet_length s2 = gps_packet_length s + 1 /\
                   gps_packet_type s2 = gps_packet_type s /\
                   timestamps_sent s2 = timestamps_sent s /\
                   gps_last_timestamp s2 = gps_last_timestamp s /\
                   gps_state s2 = gps_state s).
      { subst s2. unfold take_byte, timestamps_sent in *. st. auto. }
      destruct Hx as (Hx1 & Hx2 & Hx3 & Hx4 & Hx5).
      specialize (IH ltac:(lia)).
      destruct (trimble_loop fuel tw s2) as [[s' r]| |]; auto.
      rewrite Hx2, Hx3, Hx4, Hx5 in IH. exact IH.
Qed.

Lemma magellan_complete_inv (efuel : nat) (s : State) :
  ring_ok s -> sync_safe s -> 2 <= gps_packet_length s <= 32 ->
  match magellan_complete efuel s with
  | Ok (s', u) =>
      ring_ok s' /\ sync_safe s' /\
      (same_published s s' \/ published_once s s' /\ u = true)
  | Undef =>
      exists y m d, ~ (1 <= m <= 13) /\ epoch_correction efuel y m d = Undef
  | Fuel => True
  end.
Proof.
  intros Hr Hs Hl. pose proof Hr as ((_ & Hp & _) & _).
  assert (Hsame : forall tr,
            Forall (fun e => event_eqb_timestamp e = false) tr ->
            ring_ok (set_trace (trace s ++ tr) s) /\
            sync_safe (set_trace (trace s ++ tr) s) /\
            same_published s (set_trace (trace s ++ tr) s)).
  { intros tr Htr. unfold ring_ok, buffers_ok, sync_safe, same_published,
      timestamps_sent in *. st.
    repeat split; try apply Hr; auto.
    rewrite count_events_app.
    replace (count_events event_eqb_timestamp tr) with O; [lia|].
    unfold count_events. induction Htr as [|e tr He _ IH]; [reflexivity|].
    cbn [filter]. rewrite He. exact IH. }
  unfold magellan_complete.
  rewrite !array_get_ok by lia. cbn [bind].
  destruct (idx (gps_packet s) (gps_packet_length s - 1) =? 10).
  2:{ unfold bad_packet, emit. st. rewrite <- app_assoc.
      destruct (Hsame [DebugString gps_msg_bad_packet;
                       DebugRaw (firstn (Z.to_nat (gps_packet_length s))
                                   (gps_packet s))]) as (H1 & H2 & H3);
        [repeat constructor|]. auto. }
  destruct (magellan_checksum (gps_packet s) (gps_packet_length s) =?
            idx (gps_packet s) (gps_packet_length s - 2)).
  2:{ unfold emit. st. rewrite <- app_assoc.
      match goal with |- context [trace s ++ ?tr] =>
        destruct (Hsame tr) as (H1 & H2 & H3); [repeat constructor|] end.
      auto. }
  destruct (gps_packet_type s).
  - unfold bad_packet, emit. st. rewrite <- app_assoc.
    match goal with |- context [trace s ++ ?tr] =>
      destruct (Hsame tr) as (H1 & H2 & H3); [repeat constructor|] end.
    auto.
  - unfold bad_packet, emit. st. rewrite <- app_assoc.
    match goal with |- context [trace s ++ ?tr] =>
      destruct (Hsame tr) as (H1 & H2 & H3); [repeat constructor|] end.
    auto.
  - destruct (epoch_correction efuel _ _ _) as [[[y m] d]| |] eqn:Ee;
      cbn [bind]; [| |exact I].
    + match goal with |- context [set_time ?t s] =>
        destruct (set_time_inv t s Hs) as (s1 & E & Hd & Hs1 & Hc & Ht & Hg)
      end.
      rewrite E. cbn [bind].
      split; [exact (ring_ok_same s s1 Hd Hr)|]. split; [exact Hs1|].
      right. unfold published_once. auto.
    + match type of Ee with epoch_correction _ ?y ?m ?d = _ =>
        exists y, m, d; split; [|exact Ee];
        intros Hm; exact (epoch_correction_defined efuel y m d Hm Ee)
      end.
  - destruct (negb (eqb (gps_magellan_locked s)
                      (idx (gps_packet s) 13 =? 6))).
    + split; [|split; [|left]];
        unfold ring_ok, buffers_ok, sync_safe, same_published, timestamps_sent in *;
        st; auto.
    + split; [exact Hr|]. split; [exact Hs|]. left.
      unfold same_published. auto.
Qed.

Lemma same_published_refl (s : State) : same_published s s.
Proof. unfold same_published. auto. Qed.

Lemma same_published_trans (s1 s2 s3 : State) :
  same_published s1 s2 -> same_published s2 s3 -> same_published s1 s3.
Proof.
  unfold same_published. intros (A & B & C) (D & E & F).
  rewrite D, E, F. auto.
Qed.

Lemma take_byte_published (s : State) : same_published s (take_byte s).
Proof. unfold same_published, take_byte, timestamps_sent. st. auto. Qed.

Lemma advance_published (s : State) : same_published s (advance s).
Proof. unfold same_published, advance, timestamps_sent. st. auto. Qed.

Lemma reset_packet_inv (s : State) :
  ring_ok s -> sync_safe s ->
  ring_ok (reset_packet s) /\ sync_safe (reset_packet s) /\
  same_published s (reset_packet s).
Proof.
  unfold ring_ok, buffers_ok, sync_safe, same_published, timestamps_sent,
    reset_packet. st. intuition.
Qed.

Lemma magellan_loop_inv (fuel efuel : nat) :
  forall (tw : Z) (s : State),
    ring_ok s -> sync_safe s ->
    0 <= gps_packet_length s < gps_magellan_length s ->
    2 <= gps_magellan_length s <= 32 ->
    match magellan_loop fuel efuel tw s with
    | Ok (s', r) =>
        ring_ok s' /\ sync_safe s' /\
        (gps_packet_type s' = gps_packet_type s /\
         gps_magellan_length s' = gps_magellan_length s /\
         0 <= gps_packet_length s' < gps_magellan_length s /\
         r = None /\ same_published s s' \/
         gps_packet_type s' = UNKNOWN_PACKET /\ gps_packet_length s' = 0 /\
         (same_published s s' \/ published_once s s' /\ r = Some true))
    | Undef =>
        exists y m d, ~ (1 <= m <= 13) /\ epoch_correction efuel y m d = Undef
    | Fuel => True
    end.
Proof.
  induction fuel as [|fuel IH]; intros tw s Hr Hs Hl Hm; cbn [magellan_loop].
  - destruct (gps_input_read s =? tw); [|exact I].
    split; [exact Hr|]. split; [exact Hs|]. left.
    pose proof (same_published_refl s). auto 10.
  - destruct (gps_input_read s =? tw).
    { split; [exact Hr|]. split; [exact Hs|]. left.
      pose proof (same_published_refl s). auto 10. }
    rewrite store_packet_byte_ok by (try apply Hr; lia). cbn [bind].
    destruct (take_byte_ring s Hr) as (Hr2 & Hc2).
    pose proof (sync_safe_same s _ Hc2 Hs) as Hs2.
    pose proof (take_byte_published s) as Hp2.
    assert (Hx : gps_packet_length (take_byte s) = gps_packet_length s + 1 /\
                 gps_magellan_length (take_byte s) = gps_magellan_length s /\
                 gps_packet_type (take_byte s) = gps_packet_type s)
      by (unfold take_byte; st; auto).
    destruct Hx as (Hx1 & Hx2 & Hx3). rewrite Hx2.
    destruct (Z.eqb_spec (gps_packet_length (take_byte s))
                (gps_magellan_length s)) as [E|E].
    + pose proof (magellan_complete_inv efuel (take_byte s) Hr2 Hs2 ltac:(lia))
        as Hc.
      destruct (magellan_complete efuel (take_byte s)) as [[s2 u]| |];
        cbn [bind]; auto.
      destruct Hc as (Hr3 & Hs3 & Hc).
      destruct (reset_packet_inv s2 Hr3 Hs3) as (Hr4 & Hs4 & Hp4).
      split; [exact Hr4|]. split; [exact Hs4|]. right.
      split; [reflexivity|]. split; [reflexivity|].
      destruct Hc as [Hc|((Hc1 & Hc2') & ->)].
      * left. eauto using same_published_trans.
      * right. split; [|reflexivity].
        unfold published_once, same_published in *.
        destruct Hp2 as (A & B & C), Hp4 as (D & F & G).
        rewrite D, G, Hc1, Hc2', A. auto.
    + pose proof (advance_ring (take_byte s) Hr2) as (Hr3 & Hc3).
      pose proof (sync_safe_same _ _ Hc3 Hs2) as Hs3.
      pose proof (advance_published (take_byte s)) as Hp3.
      change (set_gps_input_read (u8 (gps_input_read (take_byte s) + 1))
                (take_byte s)) with (advance (take_byte s)).
      assert (Hy : gps_packet_length (advance (take_byte s)) =
                     gps_packet_length s + 1 /\
                   gps_magellan_length (advance (take_byte s)) =
                     gps_magellan_length s /\
                   gps_packet_type (advance (take_byte s)) = gps_packet_type s)
        by (unfold advance, take_byte; st; auto).
      destruct Hy as (Hy1 & Hy2 & Hy3).
      specialize (IH tw (advance (take_byte s)) Hr3 Hs3 ltac:(lia) ltac:(lia)).
      exact IH.
Qed.

Lemma sync_loop_inv (fuel : nat) :
  forall (tw : Z) (s : State),
    ring_ok s ->
    match sync_loop fuel tw s with
    | Ok s' =>
        ring_ok s' /\ same_controller s s' /\ same_published s s' /\
        gps_packet_length s' = gps_packet_length s /\
        (gps_packet_type s' = gps_packet_type s /\
         gps_magellan_length s' = gps_magellan_length s \/
         gps_packet_type s = UNKNOWN_PACKET /\
         (gps_packet_type s' = TRIMBLE_PACKET \/
          gps_packet_type s' = MAGELLAN_TIME_PACKET /\
          gps_magellan_length s' = 13 \/
          gps_packet_type s' = MAGELLAN_STATUS_PACKET /\
          gps_magellan_length s' = 16))
    | Undef => False
    | Fuel => True
    end.
Proof.
  assert (Hstay : forall s, ring_ok s ->
            ring_ok s /\ same_controller s s /\ same_published s s /\
            gps_packet_length s = gps_packet_length s /\
            (gps_packet_type s = gps_packet_type s /\
             gps_magellan_length s = gps_magellan_length s \/
             gps_packet_type s = UNKNOWN_PACKET /\
             (gps_packet_type s = TRIMBLE_PACKET \/
              gps_packet_type s = MAGELLAN_TIME_PACKET /\
              gps_magellan_length s = 13 \/
              gps_packet_type s = MAGELLAN_STATUS_PACKET /\
              gps_magellan_length s = 16))).
  { intros s Hr. unfold same_controller. pose proof (same_published_refl s).
    auto 10. }
  assert (Hmag : forall s t len, ring_ok s ->
            gps_packet_type s = UNKNOWN_PACKET ->
            ring_ok (sync_magellan t len s) /\
            same_controller s (sync_magellan t len s) /\
            same_published s (sync_magellan t len s) /\
            gps_packet_length (sync_magellan t len s) = gps_packet_length s /\
            gps_packet_type (sync_magellan t len s) = t /\
            gps_magellan_length (sync_magellan t len s) = len).
  { intros s t len Hr Hu.
    unfold sync_magellan, ring_ok, buffers_ok, same_controller, same_published,
      timestamps_sent in *. st.
    pose proof (u8_range
      (gps_input_read
         (if bytes_to_sync s >? 3 then
            set_trace (trace s ++ [DebugSkippedBytes (bytes_to_sync s)])
              (set_gps_magellan_length len (set_gps_packet_type t s))
          else set_gps_magellan_length len (set_gps_packet_type t s)) - 2)).
    destruct (bytes_to_sync s >? 3); st;
      rewrite ?count_events_snoc; cbn [event_eqb_timestamp];
      repeat split; try apply Hr; try lia; auto. }
  assert (Hnext : forall s tr, ring_ok s ->
            Forall (fun e => event_eqb_timestamp e = false) tr ->
            ring_ok (sync_next (set_trace (trace s ++ tr) s)) /\
            same_controller s (sync_next (set_trace (trace s ++ tr) s)) /\
            same_published s (sync_next (set_trace (trace s ++ tr) s)) /\
            gps_packet_length (sync_next (set_trace (trace s ++ tr) s)) =
              gps_packet_length s /\
            gps_packet_type (sync_next (set_trace (trace s ++ tr) s)) =
              gps_packet_type s /\
            gps_magellan_length (sync_next (set_trace (trace s ++ tr) s)) =
              gps_magellan_length s).
  { intros s tr Hr Htr.
    unfold sync_next, ring_ok, buffers_ok, same_controller, same_published,
      timestamps_sent in *. st.
    pose proof (u8_range (gps_input_read s + 1)).
    pose proof (u8_range (bytes_to_sync s + 1)).
    repeat split; try apply Hr; try lia; auto.
    rewrite count_events_app.
    replace (count_events event_eqb_timestamp tr) with O; [lia|].
    unfold count_events. induction Htr as [|e tr' He _ IH]; [reflexivity|].
    cbn [filter]. rewrite He. exact IH. }
  assert (Hchain : forall s s2 s',
            same_controller s s2 -> same_published s s2 ->
            gps_packet_length s2 = gps_packet_length s ->
            gps_packet_type s2 = gps_packet_type s ->
            gps_magellan_length s2 = gps_magellan_length s ->
            ring_ok s' /\ same_controller s2 s' /\ same_published s2 s' /\
            gps_packet_length s' = gps_packet_length s2 /\
            (gps_packet_type s' = gps_packet_type s2 /\
             gps_magellan_length s' = gps_magellan_length s2 \/
             gps_packet_type s2 = UNKNOWN_PACKET /\
             (gps_packet_type s' = TRIMBLE_PACKET \/
              gps_packet_type s' = MAGELLAN_TIME_PACKET /\
              gps_magellan_length s' = 13 \/
              gps_packet_type s' = MAGELLAN_STATUS_PACKET /\
              gps_magellan_length s' = 16)) ->
            ring_ok s' /\ same_controller s s' /\ same_published s s' /\
            gps_packet_length s' = gps_packet_length s /\
            (gps_packet_type s' = gps_packet_type s /\
             gps_magellan_length s' = gps_magellan_length s \/
             gps_packet_type s = UNKNOWN_PACKET /\
             (gps_packet_type s' = TRIMBLE_PACKET \/
              gps_packet_type s' = MAGELLAN_TIME_PACKET /\
              gps_magellan_length s' = 13 \/
              gps_packet_type s' = MAGELLAN_STATUS_PACKET /\
              gps_magellan_length s' = 16))).
  { intros s s2 s' (C1 & C2) P L T M (Hr' & (D1 & D2) & P' & L' & K).
    split; [exact Hr'|].
    split; [unfold same_controller; rewrite D1, D2; auto|].
    split; [eapply same_published_trans; eassumption|].
    split; [congruence|].
    rewrite T, M in K. exact K. }
  induction fuel as [|fuel IH]; intros tw s Hr; cbn [sync_loop].
  - destruct (is_unknown (gps_packet_type s) && negb (gps_input_read s =? tw));
      [exact I|]. apply Hstay; exact Hr.
  - destruct (is_unknown (gps_packet_type s)) eqn:Eu; cbn [andb];
      [|apply Hstay; exact Hr].
    assert (Hu : gps_packet_type s = UNKNOWN_PACKET)
      by (destruct (gps_packet_type s); try discriminate Eu; reflexivity).
    destruct (negb (gps_input_read s =? tw)); [|apply Hstay; exact Hr].
    destruct ((behind s 1 =? chr_dollar) && (behind s 2 =? chr_dollar)
              && (behind s 3 =? 10)).
    + destruct (behind s 0 =? chr_A).
      { destruct (Hmag s MAGELLAN_TIME_PACKET 13 Hr Hu)
          as (A & B & C & D & E & F). auto 12. }
      destruct (behind s 0 =? chr_H).
      { destruct (Hmag s MAGELLAN_STATUS_PACKET 16 Hr Hu)
          as (A & B & C & D & E & F). auto 12. }
      unfold emit.
      destruct (Hnext s [DebugString gps_msg_unknown_mgl_packet] Hr)
        as (A & B & C & D & E & F); [repeat constructor|].
      specialize (IH tw _ A).
      destruct (sync_loop fuel tw _) as [s'| |]; [|exact IH|exact I].
      eapply Hchain; eassumption.
    + destruct ((behind s 0 =? 171) && (behind s 1 =? 143) &&
                (behind s 2 =? DLE) && (behind s 3 =? ETX) &&
                (behind s 4 =? DLE)).
      * unfold ring_ok, buffers_ok, same_controller, same_published,
          timestamps_sent in *. st.
        pose proof (u8_range (gps_input_read s - 2)).
        repeat split; try apply Hr; try lia; auto.
      * destruct (Hnext s [] Hr) as (A & B & C & D & E & F); [constructor|].
        rewrite app_nil_r in *.
        assert (Hid : set_trace (trace s) s = s) by (destruct s; reflexivity).
        rewrite Hid in *.
        specialize (IH tw _ A).
        destruct (sync_loop fuel tw (sync_next s)) as [s'| |];
          [|exact IH|exact I].
        eapply Hchain; eassumption.
Qed.

Lemma gps_process_buffer_inv (fuel : nat) (s : State) :
  decoder_ok s -> sync_safe s ->
  match gps_process_buffer fuel s with
  | Ok (s', r) =>
      decoder_ok s' /\ sync_safe s' /\
      (same_published s s' \/ published_once s s' /\ r = true)
  | Undef =>
      exists y m d, ~ (1 <= m <= 13) /\ epoch_correction fuel y m d = Undef
  | Fuel => True
  end.
Proof.
  intros (Hb & Hbt & Hshape) Hs. unfold gps_process_buffer.
  destruct (gps_input_read s =? gps_input_write s).
  { split; [unfold decoder_ok; auto|]. split; [exact Hs|].
    left. apply same_published_refl. }
  pose proof (sync_loop_inv 256 (gps_input_write s) s (conj Hb Hbt)) as H1.
  destruct (sync_loop 256 (gps_input_write s) s) as [s1| |]; cbn [bind];
    [|contradiction|exact I].
  destruct H1 as (Hr1 & Hc1 & Hp1 & Hl1 & Ht1).
  pose proof (sync_safe_same s s1 Hc1 Hs) as Hs1.
  assert (Hshape1 :
            match gps_packet_type s1 with
            | UNKNOWN_PACKET => gps_packet_length s1 = 0
            | TRIMBLE_PACKET => 0 <= gps_packet_length s1 < 21
            | MAGELLAN_TIME_PACKET =>
                gps_magellan_length s1 = 13 /\ 0 <= gps_packet_length s1 < 13
            | MAGELLAN_STATUS_PACKET =>
                gps_magellan_length s1 = 16 /\ 0 <= gps_packet_length s1 < 16
            end).
  { rewrite Hl1.
    destruct Ht1 as [(-> & ->)|(Hu & [->|[(-> & ->)|(-> & ->)]])];
      [exact Hshape| | |]; rewrite Hu in Hshape; lia. }
  destruct (gps_packet_type s1) eqn:Et.
  - split; [unfold decoder_ok; rewrite Et; destruct Hr1; auto|].
    split; [exact Hs1|]. left. exact Hp1.
  - pose proof (trimble_loop_inv 256 (gps_input_write s) s1 Hr1 Hs1 Hshape1)
      as H2.
    destruct (trimble_loop 256 (gps_input_write s) s1) as [[s2 r]| |];
      cbn [bind]; [|contradiction|exact I].
    destruct H2 as (Hr2 & Hs2 & H2).
    split.
    { unfold decoder_ok. destruct Hr2 as (A & B).
      split; [exact A|]. split; [exact B|].
      destruct H2 as [(T & L & _)|(T & L & _)]; rewrite T, ?Et; lia. }
    split; [exact Hs2|].
    destruct H2 as [(_ & _ & _ & A & B & C)|(_ & _ & -> & [(A & B & C)|(A & B)])].
    + left. eapply same_published_trans; [exact Hp1|].
      unfold same_published; auto.
    + left. eapply same_published_trans; [exact Hp1|].
      unfold same_published; auto.
    + right. split; [|reflexivity].
      unfold published_once, same_published in *.
      destruct Hp1 as (P1 & _). rewrite A, P1. auto.
  - destruct Hshape1 as (Hm1 & Hlen1).
    pose proof (magellan_loop_inv 256 fuel (gps_input_write s) s1 Hr1 Hs1
                  ltac:(lia) ltac:(lia)) as H2.
    destruct (magellan_loop 256 fuel (gps_input_write s) s1) as [[s2 r]| |];
      cbn [bind]; [|exact H2|exact I].
    destruct H2 as (Hr2 & Hs2 & H2).
    split.
    { unfold decoder_ok. destruct Hr2 as (A & B).
      split; [exact A|]. split; [exact B|].
      destruct H2 as [(T & M & L & _)|(T & L & _)]; rewrite T, ?Et; lia. }
    split; [exact Hs2|].
    destruct H2 as [(_ & _ & _ & -> & A)|(_ & _ & [A|(A & ->)])].
    + left. eapply same_published_trans; eassumption.
    + left. eapply same_published_trans; eassumption.
    + right. split; [|reflexivity].
      unfold published_once, same_published in *.
      destruct Hp1 as (P1 & _), A as (A1 & A2). rewrite A1, P1. auto.
  - destruct Hshape1 as (Hm1 & Hlen1).
    pose proof (magellan_loop_inv 256 fuel (gps_input_write s) s1 Hr1 Hs1
                  ltac:(lia) ltac:(lia)) as H2.
    destruct (magellan_loop 256 fuel (gps_input_write s) s1) as [[s2 r]| |];
      cbn [bind]; [|exact H2|exact I].
    destruct H2 as (Hr2 & Hs2 & H2).
    split.
    { unfold decoder_ok. destruct Hr2 as (A & B).
      split; [exact A|]. split; [exact B|].
      destruct H2 as [(T & M & L & _)|(T & L & _)]; rewrite T, ?Et; lia. }
    split; [exact Hs2|].
    destruct H2 as [(_ & _ & _ & -> & A)|(_ & _ & [A|(A & ->)])].
    + left. eapply same_published_trans; eassumption.
    + left. eapply same_published_trans; eassumption.
    + right. split; [|reflexivity].
      unfold published_once, same_published in *.
      destruct Hp1 as (P1 & _), A as (A1 & A2). rewrite A1, P1. auto.
Qed.

Lemma USART1_RX_vect_inv (b : Z) (s : State) :
  decoder_ok s ->
  exists s',
    USART1_RX_vect b s = Ok s' /\ decoder_ok s' /\ same_controller s s' /\
    gps_input_read s' = gps_input_read s /\
    gps_input_write s' = u8 (gps_input_write s + 1) /\
    gps_input_buffer s' =
      list_set (gps_input_buffer s) (Z.to_nat (gps_input_write s)) b.
Proof.
  intros ((Hl & Hp & Hr & Hw) & Hbt & Hshape). unfold USART1_RX_vect.
  pose proof (u8_range (gps_input_write s + 1)).
  st. destruct (gps_state s) eqn:Eg; st;
    (rewrite array_set_ok by lia); cbn [bind];
    (eexists; split; [reflexivity|]);
    unfold decoder_ok, buffers_ok, same_controller; st;
    rewrite list_set_length; repeat split; try lia; auto.
Qed.

Lemma interrupts_inv (s : State) :
  decoder_ok s -> sync_safe s ->
  (decoder_ok (TIMER1_OVF_vect s) /\ sync_safe (TIMER1_OVF_vect s)) /\
  (decoder_ok (SIG_INTERRUPT0 s) /\ sync_safe (SIG_INTERRUPT0 s)).
Proof.
  intros Hd Hs. unfold TIMER1_OVF_vect, SIG_INTERRUPT0.
  split; [unfold decoder_ok, buffers_ok, sync_safe in *; st; auto|].
  destruct (gps_state s); try (split; assumption).
  destruct (exposure_syncing s); try (split; assumption).
  st. destruct ((exposure_count s - 1) mod counter_modulus =? 0);
    unfold decoder_ok, buffers_ok, sync_safe in *; st; auto.
Qed.

Lemma react_inv (fuel : nat) (i : stimulus) (s : State) :
  decoder_ok s -> sync_safe s ->
  match react fuel i s with
  | Ok s' => decoder_ok s' /\ sync_safe s'
  | Undef =>
      exists y m d, ~ (1 <= m <= 13) /\ epoch_correction fuel y m d = Undef
  | Fuel => exists y m d, epoch_correction fuel y m d = Fuel
  end.
Proof.
  intros Hd Hs. destruct i as [b| | |]; cbn [react].
  - destruct (USART1_RX_vect_inv b s Hd) as (s' & E & Hd' & Hc & _).
    rewrite E. split; [exact Hd'|]. exact (sync_safe_same s s' Hc Hs).
  - pose proof (gps_process_buffer_inv fuel s Hd Hs) as H.
    destruct (gps_process_buffer fuel s) as [[s' r]| |] eqn:E; cbn [bind].
    + destruct H as (A & B & _). auto.
    + exact H.
    + apply (process_loops_bounded fuel s); [apply Hd|apply Hd|exact E].
  - apply (interrupts_inv s Hd Hs).
  - apply (interrupts_inv s Hd Hs).
Qed.

(** X10: the decoder stays in shape.  From a state in which the buffers
    have their sizes, the cursors are bytes and the packet accumulated so
    far is shorter than a packet of its type (21 bytes for Trimble, 13 or
    16 for the two Magellan sentences, nothing while no packet is
    recognised), every run of received bytes, calls of
    [gps_process_buffer], timer overflows and pulses ends in such a
    state. *)
Theorem decoder_invariant (fuel : nat) (ins : list stimulus) (s s' : State) :
  decoder_ok s -> sync_safe s ->
  run fuel ins s = Ok s' ->
  decoder_ok s' /\ sync_safe s'.
Proof.
  revert s; induction ins as [|i ins IH]; intros s Hd Hs; cbn [run].
  - intros H; injection H as <-. auto.
  - pose proof (react_inv fuel i s Hd Hs) as H.
    destruct (react fuel i s) as [s1| |]; cbn [bind]; try discriminate.
    destruct H as (Hd1 & Hs1). apply IH; assumption.
Qed.

(** X13: at most one timestamp per call.  A call of [gps_process_buffer]
    either publishes nothing, and then leaves the last timestamp and the
    link state as they were, or calls [send_timestamp] exactly once,
    leaves the link state [GPS_ACTIVE] and returns TRUE. *)
Theorem gps_process_buffer_publishes_at_most_once
    (fuel : nat) (s s' : State) (r : bool) :
  decoder_ok s -> sync_safe s ->
  gps_process_buffer fuel s = Ok (s', r) ->
  timestamps_sent s' = timestamps_sent s /\
  gps_last_timestamp s' = gps_last_timestamp s /\
  gps_state s' = gps_state s \/
  timestamps_sent s' = S (timestamps_sent s) /\
  gps_state s' = GPS_ACTIVE /\ r = true.
Proof.
  intros Hd Hs E. pose proof (gps_process_buffer_inv fuel s Hd Hs) as H.
  rewrite E in H. destruct H as (_ & _ & [H|((H1 & H2) & H3)]).
  - left. exact H.
  - right. auto.
Qed.

(** ** Edges of the decoders *)

Lemma sync_loop_noise (k : nat) :
  forall (fuel : nat) (tw : Z) (s : State),
    gps_packet_type s = UNKNOWN_PACKET ->
    0 <= gps_input_read s < 256 -> 0 <= tw < 256 ->
    0 <= bytes_to_sync s < 256 ->
    unread tw s = Z.of_nat k -> (k <= fuel)%nat ->
    (forall i, 0 <= i < Z.of_nat k ->
       idx (gps_input_buffer s) (u8 (gps_input_read s + i)) <> 0xAB /\
       idx (gps_input_buffer s) (u8 (gps_input_read s + i - 1)) <> chr_dollar) ->
    sync_loop fuel tw s =
    Ok (set_bytes_to_sync (u8 (bytes_to_sync s + Z.of_nat k))
          (set_gps_input_read tw s)).
Proof.
  induction k as [|k IH]; intros fuel tw s Ht Hr Hw Hbt Hu Hf Hn.
  - assert (E : gps_input_read s = tw).
    { unfold unread, u8 in Hu. revert Hu. Z.div_mod_to_equations. lia. }
    assert (Hs : sync_loop fuel tw s = Ok s).
    { destruct fuel; cbn [sync_loop]; rewrite E, Z.eqb_refl, andb_false_r;
        reflexivity. }
    rewrite Hs. f_equal. rewrite Z.add_0_r, u8_small by lia.
    destruct s; cbn in *; subst; reflexivity.
  - destruct fuel as [|fuel]; [lia|].
    assert (Hne : gps_input_read s <> tw).
    { apply unread_positive_neq. lia. }
    destruct (Hn 0 ltac:(lia)) as (Hab & Hdol).
    rewrite Z.add_0_r, u8_small in Hab by lia.
    rewrite Z.add_0_r in Hdol.
    rewrite sync_loop_skip; auto;
      [|unfold behind; rewrite Z.sub_0_r, u8_small by lia; exact Hab].
    rewrite IH.
    + f_equal. unfold sync_next. st. rewrite u8_u8_add.
      replace (bytes_to_sync s + 1 + Z.of_nat k)
        with (bytes_to_sync s + Z.of_nat (S k)) by lia.
      reflexivity.
    + unfold sync_next; st; exact Ht.
    + unfold sync_next; st; apply u8_range.
    + exact Hw.
    + unfold sync_next; st; apply u8_range.
    + change (unread tw (sync_next s)) with (unread tw (advance s)).
      rewrite unread_advance by lia. lia.
    + lia.
    + intros i Hi. unfold sync_next; st.
      replace (u8 (u8 (gps_input_read s + 1) + i))
        with (u8 (gps_input_read s + (i + 1)))
        by (rewrite u8_u8_add; f_equal; lia).
      replace (u8 (u8 (gps_input_read s + 1) + i - 1))
        with (u8 (gps_input_read s + (i + 1) - 1)).
      * apply Hn. lia.
      * replace (u8 (gps_input_read s + 1) + i - 1)
          with (u8 (gps_input_read s + 1) + (i - 1)) by lia.
        rewrite u8_u8_add. f_equal. lia.
Qed.

(** X15: noise is skipped and counted.  When no packet is recognised and
    none of the unread bytes is 0xAB or follows a '$', the call consumes
    all of them, adds their number to the counter of skipped bytes (an
    [unsigned char], so modulo 256), changes nothing else and returns
    FALSE. *)
Theorem sync_skips_noise (fuel : nat) (s : State) :
  decoder_ok s -> gps_packet_type s = UNKNOWN_PACKET ->
  (forall i, 0 <= i < unread (gps_input_write s) s ->
     idx (gps_input_buffer s) (u8 (gps_input_read s + i)) <> 0xAB /\
     idx (gps_input_buffer s) (u8 (gps_input_read s + i - 1)) <> chr_dollar) ->
  gps_process_buffer fuel s =
  Ok (set_bytes_to_sync
        (u8 (bytes_to_sync s + unread (gps_input_write s) s))
        (set_gps_input_read (gps_input_write s) s), false).
Proof.
  intros ((Hl & Hp & Hr & Hw) & Hbt & _) Ht Hn.
  pose proof (unread_bound (gps_input_write s) s) as Hub.
  unfold gps_process_buffer.
  destruct (Z.eqb_spec (gps_input_read s) (gps_input_write s)) as [E|E].
  - do 2 f_equal. unfold unread. rewrite E, Z.sub_diag.
    change (u8 0) with 0. rewrite Z.add_0_r, u8_small by lia.
    destruct s; cbn in *; subst; reflexivity.
  - rewrite (sync_loop_noise (Z.to_nat (unread (gps_input_write s) s)));
      auto; try lia.
    + cbn [bind]. st. rewrite Ht. rewrite Z2Nat.id by lia. reflexivity.
    + intros i Hi. apply Hn. lia.
Qed.

(** ** The receive ring *)

Lemma receive_spec (bytes : list Z) :
  forall s : State,
    decoder_ok s -> (length bytes <= 256)%nat ->
    exists s',
      receive bytes s = Ok s' /\
      decoder_ok s' /\ same_controller s s' /\
      gps_input_read s' = gps_input_read s /\
      gps_input_write s' = u8 (gps_input_write s + Z.of_nat (length bytes)) /\
      (forall i : nat, (i < length bytes)%nat ->
         idx (gps_input_buffer s') (u8 (gps_input_write s + Z.of_nat i)) =
         nth i bytes 0) /\
      (forall p : Z, 0 <= p < 256 ->
         (forall i : nat, (i < length bytes)%nat ->
            p <> u8 (gps_input_write s + Z.of_nat i)) ->
         idx (gps_input_buffer s') p = idx (gps_input_buffer s) p).
Proof.
  induction bytes as [|b rest IH]; intros s Hd Hlen; cbn [receive length] in *.
  - exists s. split; [reflexivity|]. split; [exact Hd|].
    split; [unfold same_controller; auto|]. split; [reflexivity|].
    split; [rewrite Z.add_0_r, u8_small by apply Hd; reflexivity|].
    split; [intros i Hi; lia|]. auto.
  - destruct (USART1_RX_vect_inv b s Hd)
      as (s1 & E1 & Hd1 & Hc1 & Hr1 & Hw1 & Hb1).
    destruct (IH s1 Hd1 ltac:(lia))
      as (s2 & E2 & Hd2 & Hc2 & Hr2 & Hw2 & Hin2 & Hout2).
    pose proof Hd as ((Hl & _ & _ & Hw) & _).
    exists s2. rewrite E1. cbn [bind].
    split; [exact E2|]. split; [exact Hd2|].
    split; [destruct Hc1 as (A & B), Hc2 as (C & D);
            unfold same_controller; rewrite C, D; auto|].
    split; [congruence|].
    split; [rewrite Hw2, Hw1, u8_u8_add; f_equal; lia|].
    split.
    + intros [|i] Hi; cbn [nth].
      * rewrite Z.add_0_r, u8_small by lia.
        rewrite Hout2; [rewrite Hb1; apply idx_list_set_same; lia|lia|].
        intros j Hj. rewrite Hw1, u8_u8_add. unfold u8.
        Z.div_mod_to_equations. lia.
      * rewrite <- (Hin2 i) by lia. rewrite Hw1, u8_u8_add.
        do 2 f_equal. lia.
    + intros p Hp Hnot.
      rewrite Hout2; [|exact Hp|].
      * rewrite Hb1. apply idx_list_set_other; try lia.
        specialize (Hnot O ltac:(lia)).
        rewrite Z.add_0_r, u8_small in Hnot by lia. congruence.
      * intros j Hj. rewrite Hw1, u8_u8_add.
        replace (gps_input_write s + 1 + Z.of_nat j)
          with (gps_input_write s + Z.of_nat (S j)) by lia.
        apply Hnot. lia.
Qed.

Lemma USART1_RX_vect_packet (b : Z) (s s' : State) :
  USART1_RX_vect b s = Ok s' ->
  gps_packet_type s' = gps_packet_type s /\
  gps_packet_length s' = gps_packet_length s /\
  gps_packet s' = gps_packet s /\
  gps_magellan_length s' = gps_magellan_length s /\
  bytes_to_sync s' = bytes_to_sync s.
Proof.
  unfold USART1_RX_vect.
  destruct (array_set _ _ b) as [buf| |]; cbn [bind]; try discriminate.
  intros H; injection H as <-. destruct (gps_state s); st; auto.
Qed.

Lemma receive_packet (bytes : list Z) :
  forall s s' : State,
    receive bytes s = Ok s' ->
    gps_packet_type s' = gps_packet_type s /\
    gps_packet_length s' = gps_packet_length s /\
    gps_packet s' = gps_packet s /\
    gps_magellan_length s' = gps_magellan_length s /\
    bytes_to_sync s' = bytes_to_sync s.
Proof.
  induction bytes as [|b rest IH]; intros s s'; cbn [receive].
  - intros H; injection H as <-. auto.
  - destruct (USART1_RX_vect b s) as [s1| |] eqn:E; cbn [bind];
      try discriminate.
    intros H. apply IH in H. apply USART1_RX_vect_packet in E.
    intuition congruence.
Qed.

Lemma stuff_length (l : list Z) : (length (stuff l) <= 2 * length l)%nat.
Proof.
  unfold stuff. induction l as [|x l IH]; cbn [flat_map length]; [lia|].
  rewrite length_app. destruct (x =? DLE); cbn [length]; lia.
Qed.

(** X17: the receive ring is first in, first out.  Up to 256 bytes
    received while the decoder does not run are stored in the order of
    arrival from the write cursor on, the write cursor moves on by their
    number modulo 256, and the read cursor does not move: on a ring that
    was empty, the unread bytes are the received bytes. *)
Theorem receive_fills_ring (bytes : list Z) (s : State) :
  decoder_ok s -> (length bytes <= 256)%nat ->
  exists s',
    receive bytes s = Ok s' /\
    gps_input_read s' = gps_input_read s /\
    gps_input_write s' = u8 (gps_input_write s + Z.of_nat (length bytes)) /\
    (forall i : nat, (i < length bytes)%nat ->
       idx (gps_input_buffer s') (u8 (gps_input_write s + Z.of_nat i)) =
       nth i bytes 0) /\
    (gps_input_read s = gps_input_write s -> ring_holds s' bytes).
Proof.
  intros Hd Hlen.
  destruct (receive_spec bytes s Hd Hlen)
    as (s' & E & _ & _ & Hr & Hw & Hin & _).
  exists s'. repeat split; try assumption.
  intros Heq. unfold ring_holds. intros i Hi. rewrite Hr, Heq. auto.
Qed.

(** X18: a full lap is lost without a trace.  When 256 bytes arrive
    between two calls of [gps_process_buffer] on a ring that was empty,
    the write cursor is back on the read cursor, and the next call takes
    the ring for empty: it returns FALSE and consumes nothing. *)
Theorem receive_overrun_looks_empty (fuel : nat) (bytes : list Z) (s : State) :
  decoder_ok s -> gps_input_read s = gps_input_write s ->
  length bytes = 256%nat ->
  exists s',
    receive bytes s = Ok s' /\
    gps_input_read s' = gps_input_write s' /\
    (forall i : nat, (i < 256)%nat ->
       idx (gps_input_buffer s') (u8 (gps_input_read s' + Z.of_nat i)) =
       nth i bytes 0) /\
    gps_process_buffer fuel s' = Ok (s', false).
Proof.
  intros Hd Heq Hlen.
  destruct (receive_spec bytes s Hd ltac:(lia))
    as (s' & E & _ & _ & Hr & Hw & Hin & _).
  pose proof Hd as ((_ & _ & _ & Hwr) & _).
  assert (Hrw : gps_input_read s' = gps_input_write s').
  { rewrite Hr, Hw, Hlen, Heq. unfold u8. change (Z.of_nat 256) with (1 * 256).
    rewrite Z.mod_add by lia. rewrite Z.mod_small by lia. reflexivity. }
  exists s'. split; [exact E|]. split; [exact Hrw|]. split.
  - intros i Hi. rewrite Hr, Heq. apply Hin. lia.
  - unfold gps_process_buffer. rewrite Hrw, Z.eqb_refl. reflexivity.
Qed.

(** ** Small routines *)

(** X19: [is_leap_year] is the Gregorian rule, and repeats every 400
    years. *)
Theorem is_leap_year_gregorian (y : Z) :
  (is_leap_year y = true <-> gregorian_leap y) /\
  is_leap_year (y + 400) = is_leap_year y.
Proof.
  unfold is_leap_year, gregorian_leap. split.
  - destruct (Z.eqb_spec (y mod 4) 0), (Z.eqb_spec (y mod 100) 0),
      (Z.eqb_spec (y mod 400) 0); cbn [negb]; split; intros H;
      try discriminate; try reflexivity; try tauto;
      try (exfalso; revert H; Z.div_mod_to_equations; lia);
      try (split; [assumption|tauto]).
    all: exfalso; Z.div_mod_to_equations; lia.
  - replace ((y + 400) mod 4) with (y mod 4)
      by (Z.div_mod_to_equations; lia).
    replace ((y + 400) mod 100) with (y mod 100)
      by (Z.div_mod_to_equations; lia).
    replace ((y + 400) mod 400) with (y mod 400)
      by (Z.div_mod_to_equations; lia).
    reflexivity.
Qed.

Lemma be16_checked :
  forallb (fun hi =>
    forallb (fun lo =>
      be16 (Z.of_nat hi) (Z.of_nat lo) =? 256 * Z.of_nat hi + Z.of_nat lo)
      (seq 0 256))
    (seq 0 256) = true.
Proof. vm_compute. reflexivity. Qed.

(** X20: the year is read big-endian.  For two bytes, the expression
    [((hi << 8) & 0xFF00) | (lo & 0x00FF)] of both decoders is
    [256 * hi + lo]; every year 0..65535 has exactly one such pair of
    bytes. *)
Theorem be16_big_endian (hi lo : Z) :
  0 <= hi < 256 -> 0 <= lo < 256 ->
  be16 hi lo = 256 * hi + lo /\
  be16 ((256 * hi + lo) / 256) ((256 * hi + lo) mod 256) = 256 * hi + lo.
Proof.
  intros Hh Hl.
  assert (H : be16 hi lo = 256 * hi + lo).
  { pose proof be16_checked as Hc. rewrite forallb_forall in Hc.
    specialize (Hc (Z.to_nat hi) ltac:(apply in_seq; lia)).
    rewrite forallb_forall in Hc.
    specialize (Hc (Z.to_nat lo) ltac:(apply in_seq; lia)).
    rewrite !Z2Nat.id in Hc by lia. apply Z.eqb_eq in Hc. exact Hc. }
  split; [exact H|].
  replace ((256 * hi + lo) / 256) with hi by (Z.div_mod_to_equations; lia).
  replace ((256 * hi + lo) mod 256) with lo by (Z.div_mod_to_equations; lia).
  exact H.
Qed.

(** X21: a timing packet that arrives between two calls is decoded.  The
    decoder has finished the packet before (its read cursor is on that
    packet's ETX, nothing else is unread); the wire form of a well-formed
    timing packet, with every data byte 0x10 doubled, is then received
    completely before the next call.  That call publishes the timestamp
    the packet encodes, returns TRUE and empties the accumulator. *)
Theorem trimble_packet_received_whole_is_decoded
    (fuel : nat) (s : State) (data : list Z) :
  decoder_ok s -> sync_safe s ->
  gps_packet_type s = UNKNOWN_PACKET ->
  unread (gps_input_write s) s = 1 ->
  behind s 0 = ETX -> behind s 1 = DLE ->
  length data = 16%nat ->
  exists s1 s2,
    receive (trimble_wire (0x8F :: 0xAB :: data)) s = Ok s1 /\
    gps_process_buffer fuel s1 = Ok (s2, true) /\
    gps_last_timestamp s2 =
      trimble_timestamp (trimble_packet (0x8F :: 0xAB :: data)) /\
    gps_state s2 = GPS_ACTIVE /\
    gps_packet_type s2 = UNKNOWN_PACKET /\
    gps_packet_length s2 = 0.
Proof.
  intros Hd Hs Ht Hu H0 H1 Hdata.
  set (w := trimble_wire (0x8F :: 0xAB :: data)).
  assert (Hwl : (length w <= 39)%nat).
  { unfold w, trimble_wire. cbn [length].
    change (stuff (143 :: 171 :: data)) with (143 :: 171 :: stuff data).
    cbn [length app]. rewrite length_app. cbn [length].
    pose proof (stuff_length data). lia. }
  destruct (receive_spec w s Hd ltac:(lia))
    as (s1 & E & Hd1 & Hc1 & Hr1 & Hw1 & Hin & Hout).
  pose proof Hd as ((Hl & Hp & Hr & Hw) & Hbt & Hshape).
  assert (Hwr : gps_input_write s = u8 (gps_input_read s + 1)).
  { unfold unread, u8 in *. revert Hu. Z.div_mod_to_equations. lia. }
  assert (Hkeep : forall k : Z, 0 <= k <= 1 ->
            idx (gps_input_buffer s1) (u8 (gps_input_read s - k)) =
            idx (gps_input_buffer s) (u8 (gps_input_read s - k))).
  { intros k Hk. apply Hout; [apply u8_range|].
    intros i Hi. rewrite Hwr, u8_u8_add. unfold u8.
    Z.div_mod_to_equations. lia. }
  assert (Hring : ring_holds s1 (ETX :: w)).
  { unfold ring_holds. intros [|i] Hi; cbn [nth length] in *.
    - rewrite Hr1, Z.add_0_r.
      rewrite <- (Z.sub_0_r (gps_input_read s)) at 1.
      rewrite Hkeep by lia. exact H0.
    - rewrite Hr1. rewrite <- (Hin i) by lia.
      rewrite Hwr, u8_u8_add. do 2 f_equal. lia. }
  destruct (receive_packet w s s1 E) as (Ht1 & Hl1 & _).
  destruct (trimble_packet_decoded_after_previous fuel s1 data)
    as (s2 & E2 & A & B & C & D & _).
  - apply Hd1.
  - congruence.
  - rewrite Hl1. rewrite Ht in Hshape. exact Hshape.
  - unfold behind. rewrite Hr1, Hkeep by lia. exact H1.
  - exact Hdata.
  - exact Hring.
  - cbn [length]. unfold unread. rewrite Hr1, Hw1. fold w.
    unfold unread in Hu. unfold u8 in *.
    revert Hu. Z.div_mod_to_equations. lia.
  - apply (sync_safe_same s s1 Hc1 Hs).
  - exists s1, s2. auto 10.
Qed.


Lemma sync_loop_empty (fuel : nat) (tw : Z) (s : State) :
  gps_input_read s = tw -> sync_loop fuel tw s = Ok s.
Proof.
  intros E. destruct fuel; cbn [sync_loop];
    rewrite E, Z.eqb_refl, andb_false_r; reflexivity.
Qed.

(** ** The exposure controller *)

Lemma pps_edges_app (a b : nat) (s : State) :
  pps_edges (a + b) s = pps_edges b (pps_edges a s).
Proof.
  revert s; induction a as [|a IH]; intros s; cbn [pps_edges Nat.add];
    [reflexivity|apply IH].
Qed.

Lemma pps_edges_period (N : nat) (s : State) :
  gps_state s = GPS_TIME_GOOD -> exposure_syncing s = false ->
  (0 < N)%nat ->
  exposure_total s = Z.of_nat N -> exposure_count s = Z.of_nat N ->
  Z.of_nat N < counter_modulus ->
  pps_edges N s = emit TriggerDownload (set_gps_record_synctime true s).
Proof.
  intros Hg Hs HN Ht Hc Hm.
  replace N with ((N - 1) + 1)%nat at 1 by lia.
  rewrite pps_edges_app, (pps_edges_decrement (N - 1) s) by (auto; lia).
  cbn [pps_edges]. rewrite SIG_INTERRUPT0_fire; st; auto; try lia.
  rewrite Ht, <- Hc. destruct s; reflexivity.
Qed.

(** X23: the countdown is periodic.  Armed with the counter and the
    exposure length both N, the PPS handler triggers a download on every
    N-th pulse: after q * N + r pulses, r < N, it has called
    [trigger_download] q times and the counter stands at N - r. *)
Theorem pps_countdown_is_periodic (N q r : nat) (s : State) :
  gps_state s = GPS_TIME_GOOD -> exposure_syncing s = false ->
  exposure_total s = Z.of_nat N -> exposure_count s = Z.of_nat N ->
  Z.of_nat N < counter_modulus -> (r < N)%nat ->
  count_events event_eqb_trigger (trace (pps_edges (q * N + r) s)) =
    (count_events event_eqb_trigger (trace s) + q)%nat /\
  exposure_count (pps_edges (q * N + r) s) = Z.of_nat (N - r).
Proof.
  revert s; induction q as [|q IH]; intros s Hg Hs Ht Hc Hm Hr.
  - cbn [Nat.mul Nat.add]. rewrite pps_edges_decrement by (auto; lia). st.
    split; lia.
  - replace (S q * N + r)%nat with (N + (q * N + r))%nat by lia.
    rewrite pps_edges_app, (pps_edges_period N s) by (auto; lia).
    destruct (IH (emit TriggerDownload (set_gps_record_synctime true s)))
      as (A & B); st; auto.
    rewrite A, B. rewrite count_events_snoc. cbn [event_eqb_trigger].
    split; lia.
Qed.

(** X24: the countdown starts on a multiple of the exposure length.  In
    the mode [COUNTDOWN_SYNCING], [set_time] enables the countdown exactly
    when the seconds of the new timestamp are a multiple of
    [exposure_total], without touching the counter or triggering a
    download; with [exposure_total] zero the remainder it takes has no
    defined value. *)
Theorem set_time_starts_countdown_on_multiple (t : timestamp) (s : State) :
  countdown_mode s = COUNTDOWN_SYNCING ->
  (exposure_total s = 0 -> set_time t s = Undef) /\
  (exposure_total s <> 0 ->
   exists s',
     set_time t s = Ok s' /\
     countdown_mode s' =
       (if seconds t mod exposure_total s =? 0
        then COUNTDOWN_ENABLED else COUNTDOWN_SYNCING) /\
     exposure_count s' = exposure_count s /\
     count_events event_eqb_trigger (trace s') =
       count_events event_eqb_trigger (trace s) /\
     gps_last_timestamp s' = t).
Proof.
  intros Hm.
  destruct s as [ib ir iw pt pl pk ml mk bts gs cm et ec es rs lt ls tc tr].
  unfold set_time, emit. state_simpl. subst cm. state_simpl.
  split.
  - intros ->. reflexivity.
  - intros Hne. destruct (Z.eqb_spec et 0) as [E|_]; [contradiction|].
    destruct (seconds t mod et =? 0); cbn [bind]; state_simpl;
      destruct rs; state_simpl; (eexists; split; [reflexivity|]); state_simpl;
      rewrite ?count_events_snoc; cbn [event_eqb_trigger];
      repeat split; lia.
Qed.

(** X26: the download time is recorded once.  When the PPS handler has
    set [gps_record_synctime], the next timestamp is stored as the time
    of the download, [send_downloadtimestamp] is called before
    [send_timestamp], and the flag is cleared: the timestamp after that
    is published without touching the stored download time. *)
Theorem set_time_records_download_time_once (t t2 : timestamp) (s : State) :
  gps_record_synctime s = true ->
  countdown_mode s = COUNTDOWN_DISABLED ->
  exists s' s'',
    set_time t s = Ok s' /\
    gps_last_synctime s' = t /\
    gps_record_synctime s' = false /\
    trace s' = trace s ++ [SendDownloadTimestamp; SendTimestamp] /\
    set_time t2 s' = Ok s'' /\
    gps_last_synctime s'' = t /\
    gps_last_timestamp s'' = t2 /\
    trace s'' = trace s' ++ [SendTimestamp].
Proof.
  intros Hr Hm.
  destruct s as [ib ir iw pt pl pk ml mk bts gs cm et ec es rs lt ls tc tr].
  state_simpl. subst rs cm.
  unfold set_time, emit. state_simpl. cbn [bind]. state_simpl.
  do 2 eexists. split; [reflexivity|]. state_simpl. cbn [bind]. state_simpl.
  rewrite <- app_assoc. cbn [app].
  repeat split.
Qed.

(** ** The call that completes a Magellan sentence *)

Lemma sync_loop_write (fuel : nat) (tw : Z) (s s' : State) :
  sync_loop fuel tw s = Ok s' ->
  gps_input_write s' = gps_input_write s.
Proof.
  revert s; induction fuel as [|fuel IH]; intros s; cbn [sync_loop].
  - destruct (is_unknown (gps_packet_type s) &&
              negb (gps_input_read s =? tw)); [discriminate|].
    intros H; injection H as <-; reflexivity.
  - destruct (is_unknown (gps_packet_type s) &&
              negb (gps_input_read s =? tw));
      [|intros H; injection H as <-; reflexivity].
    destruct ((behind s 1 =? chr_dollar) && (behind s 2 =? chr_dollar) &&
              (behind s 3 =? 10)).
    + destruct (behind s 0 =? chr_A);
        [intros H; injection H as <-; unfold sync_magellan; st;
         destruct (bytes_to_sync s >? 3); reflexivity|].
      destruct (behind s 0 =? chr_H);
        [intros H; injection H as <-; unfold sync_magellan; st;
         destruct (bytes_to_sync s >? 3); reflexivity|].
      intros H. apply IH in H. exact H.
    + destruct ((behind s 0 =? 171) && (behind s 1 =? 143) &&
                (behind s 2 =? DLE) && (behind s 3 =? ETX) &&
                (behind s 4 =? DLE)).
      * intros H; injection H as <-; reflexivity.
      * intros H. apply IH in H. exact H.
Qed.

(** The synchronising loop of a call from a state in shape ends, in a
    state in shape. *)
Lemma sync_loop_total (s : State) :
  decoder_ok s ->
  exists s1, sync_loop 256 (gps_input_write s) s = Ok s1.
Proof.
  intros (Hb & Hbt & Hshape).
  pose proof (sync_loop_inv 256 (gps_input_write s) s (conj Hb Hbt)) as H1.
  pose proof (sync_loop_bounded 256 (gps_input_write s) s) as H2.
  destruct (sync_loop 256 (gps_input_write s) s) as [s1| |] eqn:E.
  - exists s1. reflexivity.
  - contradiction.
  - exfalso. apply H2; try apply Hb; auto.
    pose proof (unread_bound (gps_input_write s) s).
    change (Z.of_nat 256) with 256. lia.
Qed.

Lemma after_sync_spec (s s1 : State) :
  decoder_ok s ->
  sync_loop 256 (gps_input_write s) s = Ok s1 ->
  decoder_ok s1 /\
  same_controller s s1 /\
  same_published s s1 /\
  gps_input_write s1 = gps_input_write s /\
  gps_magellan_locked s1 = gps_magellan_locked s.
Proof.
  intros (Hb & Hbt & Hshape) E.
  pose proof (sync_loop_inv 256 (gps_input_write s) s (conj Hb Hbt)) as H1.
  rewrite E in H1.
  destruct H1 as (Hr1 & Hc1 & Hp1 & Hl1 & Ht1).
  split.
  { destruct Hr1 as (A & B). split; [exact A|]. split; [exact B|].
    rewrite Hl1.
    destruct Ht1 as [(-> & ->)|(Hu & [->|[(-> & ->)|(-> & ->)]])];
      [exact Hshape| | |]; rewrite Hu in Hshape; lia. }
  split; [exact Hc1|]. split; [exact Hp1|].
  split; [exact (sync_loop_write _ _ _ _ E)|exact (sync_loop_lock _ _ _ _ E)].
Qed.

(** What a call does once it has left the synchronising loop. *)
Lemma gps_process_buffer_after_sync (fuel : nat) (s s1 : State) :
  gps_input_read s <> gps_input_write s ->
  sync_loop 256 (gps_input_write s) s = Ok s1 ->
  gps_process_buffer fuel s =
  match gps_packet_type s1 with
  | UNKNOWN_PACKET => Ok (s1, false)
  | TRIMBLE_PACKET =>
      ' (s2, r) <- trimble_loop 256 (gps_input_write s) s1 ;;
      Ok (s2, returned r)
  | MAGELLAN_TIME_PACKET | MAGELLAN_STATUS_PACKET =>
      ' (s2, r) <- magellan_loop 256 fuel (gps_input_write s) s1 ;;
      Ok (s2, returned r)
  end.
Proof.
  intros Hne E. unfold gps_process_buffer.
  destruct (Z.eqb_spec (gps_input_read s) (gps_input_write s)) as [F|_];
    [contradiction|].
  rewrite E. cbn [bind]. reflexivity.
Qed.

Lemma completes_sentence_spec (s s1 : State) :
  decoder_ok s ->
  sync_loop 256 (gps_input_write s) s = Ok s1 ->
  completes_sentence (gps_input_write s) s1 = true ->
  (gps_packet_type s1 = MAGELLAN_TIME_PACKET /\
   gps_magellan_length s1 = 13 \/
   gps_packet_type s1 = MAGELLAN_STATUS_PACKET /\
   gps_magellan_length s1 = 16) /\
  0 <= gps_packet_length s1 < gps_magellan_length s1 /\
  (1 <= still_missing s1)%nat /\
  gps_packet_length s1 + Z.of_nat (still_missing s1) =
    gps_magellan_length s1 /\
  Z.of_nat (still_missing s1) <= unread (gps_input_write s) s1 /\
  gps_input_read s <> gps_input_write s.
Proof.
  intros Hd E Hc.
  destruct (after_sync_spec s s1 Hd E) as ((_ & _ & Hsh) & _).
  unfold completes_sentence in Hc.
  assert (Hx : (gps_packet_type s1 = MAGELLAN_TIME_PACKET /\
                gps_magellan_length s1 = 13 \/
                gps_packet_type s1 = MAGELLAN_STATUS_PACKET /\
                gps_magellan_length s1 = 16) /\
               0 <= gps_packet_length s1 < gps_magellan_length s1 /\
               Z.of_nat (still_missing s1) <= unread (gps_input_write s) s1).
  { destruct (gps_packet_type s1); try discriminate Hc;
      apply Z.leb_le in Hc; destruct Hsh as (A & B); rewrite A.
    - split; [left; split; reflexivity|]. split; [lia|exact Hc].
    - split; [right; split; reflexivity|]. split; [lia|exact Hc]. }
  destruct Hx as (Ht & Hl & Hu).
  assert (Hm : gps_packet_length s1 + Z.of_nat (still_missing s1) =
               gps_magellan_length s1)
    by (unfold still_missing; lia).
  split; [exact Ht|]. split; [exact Hl|]. split; [lia|].
  split; [exact Hm|]. split; [exact Hu|].
  intros F. rewrite sync_loop_empty in E by exact F.
  injection E as <-.
  unfold unread in Hu. rewrite F, Z.sub_diag in Hu.
  change (u8 0) with 0 in Hu. lia.
Qed.

(** A call that completes a Magellan sentence runs the completion block
    on the sentence, whether the sentence was recognised by an earlier
    call or is recognised by this one. *)
Lemma gps_process_buffer_completes (fuel : nat) (s s1 : State) :
  decoder_ok s ->
  sync_loop 256 (gps_input_write s) s = Ok s1 ->
  completes_sentence (gps_input_write s) s1 = true ->
  gps_process_buffer fuel s =
  (' (s2, r) <- magellan_finish fuel (completed s1) ;; Ok (s2, returned r)).
Proof.
  intros Hd E Hc.
  destruct (completes_sentence_spec s s1 Hd E Hc)
    as (Ht & Hl & H1 & Hm & Hu & Hne).
  destruct (after_sync_spec s s1 Hd E)
    as (((_ & Hp & Hr & _) & _ & _) & _ & _ & Hw & _).
  pose proof Hd as ((_ & _ & _ & Hws) & _).
  rewrite (gps_process_buffer_after_sync fuel s s1 Hne E).
  pose proof (unread_bound (gps_input_write s) s1) as Hub.
  assert (Hloop : magellan_loop 256 fuel (gps_input_write s) s1 =
                  magellan_finish fuel (completed s1)).
  { unfold completed.
    assert (Hf : (still_missing s1 <= 256)%nat) by lia.
    assert (Hm32 : gps_magellan_length s1 <= 32)
      by (destruct Ht as [(_ & ->)|(_ & ->)]; lia).
    apply magellan_loop_completes;
      [exact Hp|exact Hr|exact Hws|lia|exact Hm|exact Hm32|exact H1
      |exact Hu|exact Hf]. }
  destruct Ht as [(-> & _)|(-> & _)]; rewrite Hloop; reflexivity.
Qed.

Lemma accumulate_ring (n : nat) (s : State) :
  ring_ok s -> ring_ok (accumulate n s).
Proof.
  revert s; induction n as [|k IH]; intros s Hr; [exact Hr|].
  destruct k as [|k].
  - cbn [accumulate]. apply take_byte_ring; exact Hr.
  - change (accumulate (S (S k)) s)
      with (accumulate (S k) (advance (take_byte s))).
    apply IH. apply advance_ring. apply take_byte_ring. exact Hr.
Qed.

(** The state in which the sentence is complete, against the entry
    state. *)
Lemma completed_frame (s s1 : State) :
  decoder_ok s ->
  sync_loop 256 (gps_input_write s) s = Ok s1 ->
  completes_sentence (gps_input_write s) s1 = true ->
  gps_packet_length (completed s1) = gps_magellan_length s1 /\
  length (gps_packet (completed s1)) = 32%nat /\
  gps_packet_type (completed s1) = gps_packet_type s1 /\
  gps_magellan_length (completed s1) = gps_magellan_length s1 /\
  gps_magellan_locked (completed s1) = gps_magellan_locked s /\
  same_published s (completed s1) /\
  same_controller s (completed s1) /\
  trace (completed s1) = trace s1 /\
  ring_ok (completed s1).
Proof.
  intros Hd E Hc.
  destruct (completes_sentence_spec s s1 Hd E Hc)
    as (Ht & Hl & H1 & Hm & Hu & Hne).
  destruct (after_sync_spec s s1 Hd E)
    as ((Hb1 & Hbt1 & _) & Hc1 & Hp1 & Hw & Hk).
  destruct (accumulate_frame (still_missing s1) s1) as (Hs & Hlen & Hp).
  fold (completed s1) in Hs, Hlen, Hp.
  unfold same_but_accumulator in Hs.
  destruct Hs as (A1 & A2 & A3 & A4 & A5 & A6 & A7 & A8 & A9 & A10 & A11 &
                  A12 & A13 & A14 & A15 & A16).
  split; [lia|].
  split; [rewrite Hp; apply Hb1|].
  split; [exact A3|]. split; [exact A4|]. split; [congruence|].
  split.
  { eapply same_published_trans; [exact Hp1|].
    unfold same_published, timestamps_sent. rewrite A16, A13, A7. auto. }
  split.
  { unfold same_controller in *. destruct Hc1 as (C1 & C2).
    rewrite A8, A9, C1, C2. auto. }
  split; [exact A16|].
  apply accumulate_ring. split; assumption.
Qed.

Lemma unread_zero (tw : Z) (s : State) :
  0 <= gps_input_read s < 256 -> 0 <= tw < 256 ->
  unread tw s <= 0 -> gps_input_read s = tw.
Proof.
  intros Hr Ht Hu.
  destruct (Z.eq_dec (gps_input_read s) tw) as [E|E]; [exact E|].
  pose proof (unread_zero_or_positive tw s Hr Ht E). lia.
Qed.

(** A call that finds fewer unread bytes than the sentence lacks stores
    them and leaves the sentence in progress. *)
Lemma magellan_loop_short (fuel efuel : nat) (tw : Z) :
  forall s : State,
    ring_ok s -> 0 <= tw < 256 ->
    0 <= gps_packet_length s -> gps_magellan_length s <= 32 ->
    unread tw s < gps_magellan_length s - gps_packet_length s ->
    unread tw s <= Z.of_nat fuel ->
    exists s',
      magellan_loop fuel efuel tw s = Ok (s', None) /\
      gps_packet_type s' = gps_packet_type s /\
      same_published s s' /\
      gps_magellan_locked s' = gps_magellan_locked s.
Proof.
  induction fuel as [|fuel IH]; intros s Hr Ht Hl Hm Hu Hf;
    pose proof Hr as ((_ & Hp & Hrd & _) & _); cbn [magellan_loop].
  - rewrite (unread_zero tw s Hrd Ht ltac:(lia)), Z.eqb_refl.
    exists s. pose proof (same_published_refl s). auto.
  - destruct (Z.eqb_spec (gps_input_read s) tw) as [E|E].
    { exists s. pose proof (same_published_refl s). auto. }
    pose proof (unread_zero_or_positive tw s Hrd Ht E) as H1.
    rewrite store_packet_byte_ok by (try exact Hp; lia). cbn [bind].
    assert (Hx : gps_packet_length (take_byte s) = gps_packet_length s + 1 /\
                 gps_magellan_length (take_byte s) = gps_magellan_length s /\
                 gps_packet_type (take_byte s) = gps_packet_type s /\
                 gps_magellan_locked (take_byte s) = gps_magellan_locked s /\
                 gps_input_read (take_byte s) = gps_input_read s)
      by (unfold take_byte; st; auto).
    destruct Hx as (Hx1 & Hx2 & Hx3 & Hx4 & Hx5).
    rewrite Hx1, Hx2.
    destruct (Z.eqb_spec (gps_packet_length s + 1) (gps_magellan_length s))
      as [F|_]; [lia|].
    change (set_gps_input_read (u8 (gps_input_read (take_byte s) + 1))
              (take_byte s)) with (advance (take_byte s)).
    destruct (take_byte_ring s Hr) as (Hr2 & _).
    destruct (advance_ring (take_byte s) Hr2) as (Hr3 & _).
    assert (Hy : gps_packet_length (advance (take_byte s)) =
                   gps_packet_length s + 1 /\
                 gps_magellan_length (advance (take_byte s)) =
                   gps_magellan_length s /\
                 gps_packet_type (advance (take_byte s)) = gps_packet_type s /\
                 gps_magellan_locked (advance (take_byte s)) =
                   gps_magellan_locked s)
      by (unfold advance, take_byte; st; auto).
    destruct Hy as (Hy1 & Hy2 & Hy3 & Hy4).
    assert (Hua : unread tw (advance (take_byte s)) = unread tw s - 1).
    { pose proof (unread_advance tw s Hrd Ht H1) as Ha.
      unfold unread, advance, take_byte in *. st. exact Ha. }
    destruct (IH (advance (take_byte s)) Hr3 Ht ltac:(lia) ltac:(lia)
                ltac:(lia) ltac:(lia)) as (s' & E' & T' & P' & K').
    exists s'. split; [exact E'|]. split; [congruence|].
    split; [|congruence].
    eapply same_published_trans; [apply take_byte_published|].
    eapply same_published_trans; [apply advance_published|exact P'].
Qed.

(** A call that leaves the synchronising loop with a sentence in progress
    and does not complete it returns FALSE with the sentence still in
    progress. *)
Lemma gps_process_buffer_waits (fuel : nat) (s s1 : State) :
  decoder_ok s ->
  sync_loop 256 (gps_input_write s) s = Ok s1 ->
  gps_packet_type s1 = MAGELLAN_TIME_PACKET \/
  gps_packet_type s1 = MAGELLAN_STATUS_PACKET ->
  completes_sentence (gps_input_write s) s1 = false ->
  exists s',
    gps_process_buffer fuel s = Ok (s', false) /\
    gps_packet_type s' = gps_packet_type s1 /\
    same_published s s' /\
    gps_magellan_locked s' = gps_magellan_locked s.
Proof.
  intros Hd E Ht Hc.
  destruct (after_sync_spec s s1 Hd E)
    as ((Hb1 & Hbt1 & Hsh) & Hc1 & Hp1 & Hw & Hk).
  pose proof Hd as ((_ & _ & _ & Hws) & _).
  destruct (Z.eq_dec (gps_input_read s) (gps_input_write s)) as [F|F].
  { rewrite sync_loop_empty in E by exact F. injection E as <-.
    unfold gps_process_buffer. rewrite F, Z.eqb_refl.
    exists s. pose proof (same_published_refl s). auto. }
  rewrite (gps_process_buffer_after_sync fuel s s1 F E).
  assert (Hu : unread (gps_input_write s) s1 <
               gps_magellan_length s1 - gps_packet_length s1 /\
               0 <= gps_packet_length s1 /\ gps_magellan_length s1 <= 32).
  { unfold completes_sentence, still_missing in Hc.
    destruct Ht as [T|T]; rewrite T in Hc, Hsh; apply Z.leb_gt in Hc; lia. }
  destruct Hu as (Hu & Hl & Hm).
  pose proof (unread_bound (gps_input_write s) s1) as Hub.
  destruct (magellan_loop_short 256 fuel (gps_input_write s) s1
              (conj Hb1 Hbt1) Hws Hl Hm Hu)
    as (s' & E' & T' & P' & K').
  { change (Z.of_nat 256) with 256. lia. }
  exists s'.
  split; [destruct Ht as [T|T]; rewrite T, E'; reflexivity|].
  split; [exact T'|]. split; [|congruence].
  eapply same_published_trans; eassumption.
Qed.

(** ** Corrupt and accepted Magellan sentences, for every call *)


(** A sentence that fails a check publishes nothing. *)
Lemma magellan_complete_rejects_quietly (efuel : nat) (s : State) :
  2 <= gps_packet_length s <= Z.of_nat (length (gps_packet s)) ->
  sentence_valid (gps_packet s) (gps_packet_length s) = false ->
  exists tr,
    magellan_complete efuel s = Ok (set_trace (trace s ++ tr) s, false) /\
    count_events event_eqb_timestamp tr = 0%nat.
Proof.
  intros Hl Hv. unfold magellan_complete, sentence_valid in *.
  rewrite array_get_ok by lia. cbn [bind].
  destruct (idx (gps_packet s) (gps_packet_length s - 1) =? 10).
  - rewrite array_get_ok by lia. cbn [bind].
    cbn [andb] in Hv. rewrite Hv.
    eexists. split; [unfold bad_packet; st; rewrite <- app_assoc; reflexivity|].
    reflexivity.
  - eexists. split; [unfold bad_packet; st; rewrite <- app_assoc; reflexivity|].
    reflexivity.
Qed.

(** C4: take any call of [gps_process_buffer] from a state in shape that
    leaves its synchronising loop with a Magellan sentence in progress,
    whether an earlier call recognised the sentence or this one does.  If
    the unread bytes complete the sentence, then (a) changing any one
    byte between the sentence-type byte and the checksum byte changes the
    checksum the decoder computes, and (b) if the last byte is not 0x0A or
    the stored checksum byte differs from the computed one, the call
    returns FALSE, publishes nothing, and leaves the timestamp, the locked
    flag and the link state as they were (and resets the accumulator).
    If the unread bytes do not complete the sentence, the call returns
    FALSE with the sentence still in progress and nothing published: no
    other call finishes a sentence. *)
Theorem magellan_corrupt_sentence_rejected (fuel : nat) (s s1 : State) :
  decoder_ok s ->
  sync_loop 256 (gps_input_write s) s = Ok s1 ->
  gps_packet_type s1 = MAGELLAN_TIME_PACKET \/
  gps_packet_type s1 = MAGELLAN_STATUS_PACKET ->
  (completes_sentence (gps_input_write s) s1 = true ->
   (forall i v : Z,
      2 <= i < gps_magellan_length s1 - 2 ->
      v <> idx (gps_packet (completed s1)) i ->
      magellan_checksum
        (list_set (gps_packet (completed s1)) (Z.to_nat i) v)
        (gps_magellan_length s1) <>
      magellan_checksum (gps_packet (completed s1)) (gps_magellan_length s1)) /\
   (idx (gps_packet (completed s1)) (gps_magellan_length s1 - 1) <> 0x0A \/
    idx (gps_packet (completed s1)) (gps_magellan_length s1 - 2) <>
      magellan_checksum (gps_packet (completed s1)) (gps_magellan_length s1) ->
    exists s',
      gps_process_buffer fuel s = Ok (s', false) /\
      gps_last_timestamp s' = gps_last_timestamp s /\
      gps_magellan_locked s' = gps_magellan_locked s /\
      gps_state s' = gps_state s /\
      timestamps_sent s' = timestamps_sent s /\
      gps_packet_type s' = UNKNOWN_PACKET /\
      gps_packet_length s' = 0)) /\
  (completes_sentence (gps_input_write s) s1 = false ->
   exists s',
     gps_process_buffer fuel s = Ok (s', false) /\
     gps_last_timestamp s' = gps_last_timestamp s /\
     gps_magellan_locked s' = gps_magellan_locked s /\
     gps_state s' = gps_state s /\
     timestamps_sent s' = timestamps_sent s /\
     gps_packet_type s' = gps_packet_type s1).
Proof.
  intros Hd E Ht. split; intros Hc.
  - destruct (completes_sentence_spec s s1 Hd E Hc)
      as (Htm & Hl & H1 & Hm & Hu & Hne).
    destruct (completed_frame s s1 Hd E Hc)
      as (Flen & Fp & Ftype & Fm & Flock & (Fn & Fts & Fg) & _ & _ & _).
    assert (Hm5 : 5 <= gps_magellan_length s1 <= 32)
      by (destruct Htm as [(_ & ->)|(_ & ->)]; lia).
    split.
    + intros i v Hi Hv. apply magellan_checksum_mutation; auto.
      rewrite Fp. lia.
    + intros Hbad.
      rewrite (gps_process_buffer_completes fuel s s1 Hd E Hc).
      unfold magellan_finish.
      destruct (magellan_complete_rejects_quietly fuel (completed s1))
        as (tr & Hr & Hq).
      * rewrite Flen, Fp. lia.
      * unfold sentence_valid. rewrite Flen.
        destruct Hbad as [Hbad|Hbad].
        -- apply Z.eqb_neq in Hbad. rewrite Hbad. reflexivity.
        -- apply andb_false_intro2. apply Z.eqb_neq. congruence.
      * rewrite Hr. cbn [bind returned].
        eexists; split; [reflexivity|].
        unfold reset_packet, timestamps_sent in *; st.
        split; [exact Fts|]. split; [exact Flock|]. split; [exact Fg|].
        split; [|split; reflexivity].
        rewrite count_events_app, Hq, Fn. lia.
  - destruct (gps_process_buffer_waits fuel s s1 Hd E Ht Hc)
      as (s' & E' & T' & (Pn & Pts & Pg) & K').
    exists s'. auto 10.
Qed.

(** The completion block on a sentence that passed both checks. *)
Lemma magellan_complete_valid (efuel : nat) (s : State) :
  2 <= gps_packet_length s <= Z.of_nat (length (gps_packet s)) ->
  sentence_valid (gps_packet s) (gps_packet_length s) = true ->
  magellan_complete efuel s =
  match gps_packet_type s with
  | MAGELLAN_TIME_PACKET =>
      ' (y, m, d) <- epoch_correction efuel
                       (be16 (idx (gps_packet s) 9) (idx (gps_packet s) 10))
                       (idx (gps_packet s) 8) (idx (gps_packet s) 7) ;;
      s1 <- set_time
              (mkTimestamp (idx (gps_packet s) 4) (idx (gps_packet s) 5)
                 (idx (gps_packet s) 6) d m y (gps_magellan_locked s)) s ;;
      Ok (s1, true)
  | MAGELLAN_STATUS_PACKET =>
      if negb (eqb (gps_magellan_locked s) (idx (gps_packet s) 13 =? 6))
      then Ok (set_gps_magellan_locked (idx (gps_packet s) 13 =? 6) s, true)
      else Ok (s, false)
  | _ => Ok (bad_packet s, false)
  end.
Proof.
  intros Hl Hv. unfold sentence_valid in Hv.
  apply andb_true_iff in Hv as (Hv1 & Hv2).
  unfold magellan_complete.
  rewrite array_get_ok by lia. cbn [bind]. rewrite Hv1.
  rewrite array_get_ok by lia. cbn [bind]. rewrite Hv2.
  reflexivity.
Qed.

(** Every timestamp that a call publishes out of a Magellan sentence
    carries the locked flag the decoder remembered when the call began,
    and comes from a time sentence that passed both checks. *)
Lemma magellan_published_flag (fuel : nat) (s s1 s' : State) (r : bool) :
  decoder_ok s ->
  sync_loop 256 (gps_input_write s) s = Ok s1 ->
  gps_packet_type s1 = MAGELLAN_TIME_PACKET \/
  gps_packet_type s1 = MAGELLAN_STATUS_PACKET ->
  gps_process_buffer fuel s = Ok (s', r) ->
  timestamps_sent s' <> timestamps_sent s ->
  locked (gps_last_timestamp s') = gps_magellan_locked s /\
  gps_magellan_locked s' = gps_magellan_locked s /\
  gps_packet_type s1 = MAGELLAN_TIME_PACKET /\
  sentence_valid (gps_packet s') (gps_magellan_length s') = true /\
  r = true.
Proof.
  intros Hd E Ht Hrun Hpub.
  destruct (completes_sentence (gps_input_write s) s1) eqn:Hc.
  2:{ destruct (gps_process_buffer_waits fuel s s1 Hd E Ht Hc)
        as (s2 & E2 & _ & (Pn & _) & _).
      rewrite E2 in Hrun. injection Hrun as <- <-. contradiction. }
  destruct (completes_sentence_spec s s1 Hd E Hc)
    as (Htm & Hl & H1 & Hm & Hu & Hne).
  destruct (completed_frame s s1 Hd E Hc)
    as (Flen & Fp & Ftype & Fm & Flock & (Fn & Fts & Fg) & _ & _ & _).
  assert (Hm5 : 5 <= gps_magellan_length s1 <= 32)
    by (destruct Htm as [(_ & ->)|(_ & ->)]; lia).
  assert (Hrange : 2 <= gps_packet_length (completed s1)
                   <= Z.of_nat (length (gps_packet (completed s1))))
    by (rewrite Flen, Fp; lia).
  rewrite (gps_process_buffer_completes fuel s s1 Hd E Hc) in Hrun.
  unfold magellan_finish in Hrun.
  destruct (sentence_valid (gps_packet (completed s1))
              (gps_packet_length (completed s1))) eqn:Hv.
  2:{ destruct (magellan_complete_rejects_quietly fuel (completed s1)
                  Hrange Hv) as (tr & Hr & Hq).
      rewrite Hr in Hrun. cbn [bind returned] in Hrun.
      injection Hrun as <- <-. exfalso. apply Hpub.
      unfold reset_packet, timestamps_sent in *; st.
      rewrite count_events_app, Hq, Fn. lia. }
  rewrite (magellan_complete_valid fuel (completed s1) Hrange Hv) in Hrun.
  rewrite Ftype in Hrun.
  destruct Htm as [(T & M)|(T & M)]; rewrite T in Hrun.
  - destruct (epoch_correction fuel _ _ _) as [[[y m] d]| |];
      cbn [bind] in Hrun; try discriminate Hrun.
    destruct (set_time _ (completed s1)) as [s2| |] eqn:Hst;
      cbn [bind returned] in Hrun; try discriminate Hrun.
    injection Hrun as <- <-.
    apply set_time_publishes in Hst as (Hsd & Hts & _).
    unfold same_decoder in Hsd.
    destruct Hsd as (D1 & D2 & D3 & D4 & D5 & D6 & D7 & D8 & D9).
    unfold reset_packet; st. rewrite Hts, D6, D7, D8, Fm, M.
    cbn [locked]. rewrite Flen, M in Hv.
    split; [exact Flock|]. split; [exact Flock|]. auto.
  - exfalso. apply Hpub.
    destruct (negb (eqb (gps_magellan_locked (completed s1))
                      (idx (gps_packet (completed s1)) 13 =? 6)));
      cbn [bind returned] in Hrun; injection Hrun as <- <-;
      unfold reset_packet, timestamps_sent in *; st; exact Fn.
Qed.

(** C10: take any call of [gps_process_buffer] from a state in shape that
    completes a Magellan sentence that passes both checks, whether an
    earlier call recognised the sentence or this one does.  The locked
    flag of a timestamp published from a time sentence is the decoder's
    [gps_magellan_locked] as it stood before the call, whatever the bytes
    of the time sentence, and the other fields come from the sentence and
    its corrected date.  [gps_magellan_locked] is FALSE at start-up; a
    status sentence sets it to (byte 13 = 6) and publishes nothing; no
    call of [gps_process_buffer] changes it in any other way; and no call
    publishes a timestamp out of a Magellan sentence with any other
    flag. *)
Theorem magellan_timestamp_lock_flag (fuel : nat) (s s1 : State) :
  decoder_ok s ->
  sync_loop 256 (gps_input_write s) s = Ok s1 ->
  completes_sentence (gps_input_write s) s1 = true ->
  sentence_valid (gps_packet (completed s1)) (gps_magellan_length s1) = true ->
  gps_magellan_locked initial_state = false /\
  (gps_packet_type s1 = MAGELLAN_TIME_PACKET ->
   forall y m d : Z,
     epoch_correction fuel
       (be16 (idx (gps_packet (completed s1)) 9)
             (idx (gps_packet (completed s1)) 10))
       (idx (gps_packet (completed s1)) 8)
       (idx (gps_packet (completed s1)) 7) = Ok (y, m, d) ->
     (countdown_mode s = COUNTDOWN_SYNCING -> exposure_total s <> 0) ->
     exists s' tr,
       gps_process_buffer fuel s = Ok (s', true) /\
       gps_last_timestamp s' =
         mkTimestamp (idx (gps_packet (completed s1)) 4)
           (idx (gps_packet (completed s1)) 5)
           (idx (gps_packet (completed s1)) 6) d m y
           (gps_magellan_locked s) /\
       gps_magellan_locked s' = gps_magellan_locked s /\
       timestamps_sent s' = S (timestamps_sent s) /\
       trace s' = trace s1 ++ tr ++ [SendTimestamp]) /\
  (gps_packet_type s1 = MAGELLAN_STATUS_PACKET ->
   exists s',
     gps_process_buffer fuel s =
       Ok (s', negb (eqb (gps_magellan_locked s)
                       (idx (gps_packet (completed s1)) 13 =? 6))) /\
     gps_magellan_locked s' = (idx (gps_packet (completed s1)) 13 =? 6) /\
     gps_last_timestamp s' = gps_last_timestamp s /\
     timestamps_sent s' = timestamps_sent s /\
     trace s' = trace s1) /\
  (forall (fuel0 : nat) (s0 s2 : State) (r : bool),
     gps_process_buffer fuel0 s0 = Ok (s2, r) ->
     gps_magellan_locked s2 = gps_magellan_locked s0 \/
     gps_magellan_locked s2 = (idx (gps_packet s2) 13 =? 6) /\
     sentence_valid (gps_packet s2) (gps_magellan_length s2) = true /\
     r = true) /\
  (forall (fuel0 : nat) (s0 s0' s2 : State) (r : bool),
     decoder_ok s0 ->
     sync_loop 256 (gps_input_write s0) s0 = Ok s0' ->
     gps_packet_type s0' = MAGELLAN_TIME_PACKET \/
     gps_packet_type s0' = MAGELLAN_STATUS_PACKET ->
     gps_process_buffer fuel0 s0 = Ok (s2, r) ->
     timestamps_sent s2 <> timestamps_sent s0 ->
     locked (gps_last_timestamp s2) = gps_magellan_locked s0).
Proof.
  intros Hd E Hc Hv.
  destruct (completes_sentence_spec s s1 Hd E Hc)
    as (Htm & Hl & H1 & Hm & Hu & Hne).
  destruct (completed_frame s s1 Hd E Hc)
    as (Flen & Fp & Ftype & Fm & Flock & (Fn & Fts & Fg) & (Fc1 & Fc2) &
        Ftr & _).
  assert (Hm5 : 5 <= gps_magellan_length s1 <= 32)
    by (destruct Htm as [(_ & ->)|(_ & ->)]; lia).
  assert (Hrange : 2 <= gps_packet_length (completed s1)
                   <= Z.of_nat (length (gps_packet (completed s1))))
    by (rewrite Flen, Fp; lia).
  assert (Hv' : sentence_valid (gps_packet (completed s1))
                  (gps_packet_length (completed s1)) = true)
    by (rewrite Flen; exact Hv).
  split; [reflexivity|]. split; [|split; [|split]].
  - intros Ht y m d He Hsync.
    rewrite (gps_process_buffer_completes fuel s s1 Hd E Hc).
    unfold magellan_finish.
    rewrite (magellan_complete_time fuel (completed s1) y m d)
      by (auto; congruence).
    destruct (set_time_defined
                (mkTimestamp (idx (gps_packet (completed s1)) 4)
                   (idx (gps_packet (completed s1)) 5)
                   (idx (gps_packet (completed s1)) 6) d m y
                   (gps_magellan_locked (completed s1)))
                (completed s1)) as (s2 & Hs2);
      [intros Hcm; rewrite Fc2; apply Hsync; congruence|].
    rewrite Hs2. cbn [bind returned].
    destruct (set_time_controller _ _ _ Hs2) as (_ & _ & Hcount).
    apply set_time_publishes in Hs2 as (Hsd & Hts & _ & tr & Htr).
    unfold same_decoder in Hsd.
    destruct Hsd as (D1 & D2 & D3 & D4 & D5 & D6 & D7 & D8 & D9).
    exists (reset_packet s2), tr. unfold reset_packet, timestamps_sent in *; st.
    split; [reflexivity|]. split; [congruence|]. split; [congruence|].
    split; [congruence|]. congruence.
  - intros Ht.
    rewrite (gps_process_buffer_completes fuel s s1 Hd E Hc).
    unfold magellan_finish.
    rewrite magellan_complete_status by (auto; congruence).
    cbn [bind returned].
    eexists; split; [f_equal; f_equal; congruence|].
    unfold reset_packet, timestamps_sent in *; st. auto.
  - apply gps_process_buffer_lock.
  - intros fuel0 s0 s0' s2 r Hd0 E0 Ht0 Hrun Hpub.
    exact (proj1 (magellan_published_flag fuel0 s0 s0' s2 r Hd0 E0 Ht0
                    Hrun Hpub)).
Qed.

(** X14: a day byte above 31 hangs the firmware.  When a Magellan time
    sentence passes the line-feed and checksum tests with a month byte in
    1..12 and a day byte of 32 or more, the loop of the epoch correction
    is never left: whatever bound the loop is given, the call of
    [gps_process_buffer] that completes the sentence does not return,
    whether an earlier call recognised the sentence or this one does. *)
Theorem magellan_day_out_of_range_hangs (fuel : nat) (s s1 : State) :
  decoder_ok s ->
  sync_loop 256 (gps_input_write s) s = Ok s1 ->
  gps_packet_type s1 = MAGELLAN_TIME_PACKET ->
  completes_sentence (gps_input_write s) s1 = true ->
  sentence_valid (gps_packet (completed s1)) 13 = true ->
  1 <= idx (gps_packet (completed s1)) 8 <= 12 ->
  32 <= idx (gps_packet (completed s1)) 7 ->
  gps_process_buffer fuel s = Fuel.
Proof.
  intros Hd E Ht Hc Hv Hmonth Hday.
  destruct (completes_sentence_spec s s1 Hd E Hc)
    as (Htm & Hl & H1 & Hm & Hu & Hne).
  destruct (completed_frame s s1 Hd E Hc)
    as (Flen & Fp & Ftype & Fm & _).
  assert (M : gps_magellan_length s1 = 13)
    by (destruct Htm as [(_ & M)|(T & _)]; [exact M|congruence]).
  rewrite (gps_process_buffer_completes fuel s s1 Hd E Hc).
  unfold magellan_finish.
  rewrite magellan_complete_valid;
    [|rewrite Flen, Fp; lia|rewrite Flen, M; exact Hv].
  rewrite Ftype, Ht.
  unfold epoch_correction. rewrite epoch_loop_diverges by lia.
  reflexivity.
Qed.

(** X25: a time sentence with a date of the years 1980 to 2099 is always
    published, on a date of the calendar.  When a Magellan time sentence
    passes both checks with a raw year in 1980..2099, a month byte in
    1..12 and a day byte in 1..31, the call that completes it, whether an
    earlier call recognised the sentence or this one does, leaves the
    loop of the epoch correction within 3000 passes, returns TRUE, and
    publishes the hours, minutes and seconds of the sentence with a day
    that exists in the published month of the published year. *)
Theorem magellan_time_sentence_publishes_calendar_date (s s1 : State) :
  decoder_ok s -> sync_safe s ->
  sync_loop 256 (gps_input_write s) s = Ok s1 ->
  gps_packet_type s1 = MAGELLAN_TIME_PACKET ->
  completes_sentence (gps_input_write s) s1 = true ->
  sentence_valid (gps_packet (completed s1)) 13 = true ->
  1980 <= be16 (idx (gps_packet (completed s1)) 9)
               (idx (gps_packet (completed s1)) 10) <= 2099 ->
  1 <= idx (gps_packet (completed s1)) 8 <= 12 ->
  1 <= idx (gps_packet (completed s1)) 7 <= 31 ->
  exists s',
    gps_process_buffer 3000 s = Ok (s', true) /\
    hours (gps_last_timestamp s') = idx (gps_packet (completed s1)) 4 /\
    minutes (gps_last_timestamp s') = idx (gps_packet (completed s1)) 5 /\
    seconds (gps_last_timestamp s') = idx (gps_packet (completed s1)) 6 /\
    valid_date (year (gps_last_timestamp s'),
                month (gps_last_timestamp s'),
                day (gps_last_timestamp s')) /\
    locked (gps_last_timestamp s') = gps_magellan_locked s /\
    timestamps_sent s' = S (timestamps_sent s).
Proof.
  intros Hd Hsafe E Ht Hc Hv Hyear Hmonth Hday.
  destruct (epoch_correction_terminates_1980_2099 _ _ _ Hyear Hmonth Hday)
    as ([[y m] d] & He & Hvalid).
  destruct (completes_sentence_spec s s1 Hd E Hc)
    as (Htm & Hl & H1 & Hm & Hu & Hne).
  destruct (completed_frame s s1 Hd E Hc)
    as (Flen & Fp & Ftype & Fm & Flock & (Fn & Fts & Fg) & Fc & _).
  assert (M : gps_magellan_length s1 = 13)
    by (destruct Htm as [(_ & M)|(T & _)]; [exact M|congruence]).
  rewrite (gps_process_buffer_completes 3000 s s1 Hd E Hc).
  unfold magellan_finish.
  rewrite (magellan_complete_time 3000 (completed s1) y m d);
    [|rewrite Flen, Fp; lia|congruence|rewrite Flen, M; exact Hv|exact He].
  match goal with |- context [set_time ?t (completed s1)] =>
    destruct (set_time_inv t (completed s1)) as (s2 & E2 & _ & _ & Hcnt & Hts & _)
  end.
  { exact (sync_safe_same s (completed s1) Fc Hsafe). }
  rewrite E2. cbn [bind returned].
  exists (reset_packet s2). split; [reflexivity|].
  unfold reset_packet, timestamps_sent in *. st. rewrite Hts.
  cbn [hours minutes seconds year month day locked].
  repeat split; try apply Hvalid; auto. congruence.
Qed.

(** ** Where a run can fail *)

(** A call from a state in shape fails to return a result only in the
    epoch correction of a time sentence that passed both checks. *)
Lemma gps_process_buffer_fails (fuel : nat) (s : State) :
  decoder_ok s -> sync_safe s ->
  forall bad : result (State * bool),
    gps_process_buffer fuel s = bad ->
    (forall x, bad <> Ok x) ->
    exists s1,
      sync_loop 256 (gps_input_write s) s = Ok s1 /\
      gps_packet_type s1 = MAGELLAN_TIME_PACKET /\
      completes_sentence (gps_input_write s) s1 = true /\
      sentence_valid (gps_packet (completed s1)) 13 = true /\
      match epoch_correction fuel
              (be16 (idx (gps_packet (completed s1)) 9)
                    (idx (gps_packet (completed s1)) 10))
              (idx (gps_packet (completed s1)) 8)
              (idx (gps_packet (completed s1)) 7)
      with
      | Ok _ => False
      | Undef => bad = Undef
      | Fuel => bad = Fuel
      end.
Proof.
  intros Hd Hs bad Hrun Hbad.
  destruct (sync_loop_total s Hd) as (s1 & E).
  destruct (after_sync_spec s s1 Hd E)
    as ((Hb1 & Hbt1 & Hsh) & Hc1 & Hp1 & Hw & Hk).
  pose proof (sync_safe_same s s1 Hc1 Hs) as Hs1.
  pose proof Hd as ((_ & _ & _ & Hws) & _).
  pose proof Hb1 as (_ & _ & Hr1 & _).
  destruct (Z.eq_dec (gps_input_read s) (gps_input_write s)) as [F|F].
  { exfalso. revert Hrun. unfold gps_process_buffer.
    rewrite F, Z.eqb_refl. intros <-. eapply Hbad; reflexivity. }
  assert (Hmag : gps_packet_type s1 = MAGELLAN_TIME_PACKET \/
                 gps_packet_type s1 = MAGELLAN_STATUS_PACKET ->
                 exists s1,
                   sync_loop 256 (gps_input_write s) s = Ok s1 /\
                   gps_packet_type s1 = MAGELLAN_TIME_PACKET /\
                   completes_sentence (gps_input_write s) s1 = true /\
                   sentence_valid (gps_packet (completed s1)) 13 = true /\
                   match epoch_correction fuel
                           (be16 (idx (gps_packet (completed s1)) 9)
                                 (idx (gps_packet (completed s1)) 10))
                           (idx (gps_packet (completed s1)) 8)
                           (idx (gps_packet (completed s1)) 7)
                   with
                   | Ok _ => False
                   | Undef => bad = Undef
                   | Fuel => bad = Fuel
                   end).
  { intros Ht.
    destruct (completes_sentence (gps_input_write s) s1) eqn:Hc.
    2:{ destruct (gps_process_buffer_waits fuel s s1 Hd E Ht Hc)
          as (s' & E' & _).
        exfalso. rewrite E' in Hrun. eapply Hbad. symmetry. exact Hrun. }
    destruct (completes_sentence_spec s s1 Hd E Hc)
      as (Htm & Hl & H1 & Hm & Hu & Hne).
    destruct (completed_frame s s1 Hd E Hc)
      as (Flen & Fp & Ftype & Fm & Flock & _ & Fc & _ & _).
    assert (Hrange : 2 <= gps_packet_length (completed s1)
                     <= Z.of_nat (length (gps_packet (completed s1))))
      by (rewrite Flen, Fp; destruct Htm as [(_ & ->)|(_ & ->)]; lia).
    rewrite (gps_process_buffer_completes fuel s s1 Hd E Hc) in Hrun.
    unfold magellan_finish in Hrun.
    destruct (sentence_valid (gps_packet (completed s1))
                (gps_packet_length (completed s1))) eqn:Hv.
    2:{ destruct (magellan_complete_rejects_quietly fuel (completed s1)
                    Hrange Hv) as (tr & Hr & _).
        exfalso. rewrite Hr in Hrun. cbn [bind] in Hrun.
        eapply Hbad. symmetry. exact Hrun. }
    rewrite (magellan_complete_valid fuel (completed s1) Hrange Hv) in Hrun.
    rewrite Ftype in Hrun.
    destruct Htm as [(T & M)|(T & M)]; rewrite T in Hrun.
    - exists s1. split; [exact E|]. split; [exact T|]. split; [exact Hc|].
      split; [rewrite <- M, <- Flen; exact Hv|].
      destruct (epoch_correction fuel _ _ _) as [[[y m] d]| |];
        cbn [bind] in Hrun; [|symmetry; exact Hrun|symmetry; exact Hrun].
      match type of Hrun with context [set_time ?t (completed s1)] =>
        destruct (set_time_inv t (completed s1)
                    (sync_safe_same s (completed s1) Fc Hs))
          as (s2 & E2 & _)
      end.
      rewrite E2 in Hrun. cbn [bind] in Hrun.
      eapply Hbad. symmetry. exact Hrun.
    - exfalso.
      destruct (negb (eqb (gps_magellan_locked (completed s1))
                        (idx (gps_packet (completed s1)) 13 =? 6)));
        cbn [bind] in Hrun; eapply Hbad; symmetry; exact Hrun. }
  rewrite (gps_process_buffer_after_sync fuel s s1 F E) in Hrun.
  destruct (gps_packet_type s1) eqn:Et.
  - exfalso. eapply Hbad. symmetry. exact Hrun.
  - exfalso.
    pose proof (trimble_loop_inv 256 (gps_input_write s) s1
                  (conj Hb1 Hbt1) Hs1 Hsh) as H2.
    pose proof (trimble_loop_bounded 256 (gps_input_write s) s1) as H3.
    destruct (trimble_loop 256 (gps_input_write s) s1) as [[s2 r]| |].
    + cbn [bind] in Hrun. eapply Hbad. symmetry. exact Hrun.
    + contradiction.
    + apply H3; auto.
      pose proof (unread_bound (gps_input_write s) s1).
      change (Z.of_nat 256) with 256. lia.
  - apply Hmag. left. reflexivity.
  - apply Hmag. right. reflexivity.
Qed.

Lemma react_fails (fuel : nat) (i : stimulus) (s : State) :
  decoder_ok s -> sync_safe s ->
  match react fuel i s with
  | Ok s' => decoder_ok s' /\ sync_safe s'
  | Undef => i = Poll /\ gps_process_buffer fuel s = Undef
  | Fuel => i = Poll /\ gps_process_buffer fuel s = Fuel
  end.
Proof.
  intros Hd Hs. pose proof (react_inv fuel i s Hd Hs) as H.
  destruct i as [b| | |]; cbn [react] in *.
  - destruct (USART1_RX_vect_inv b s Hd) as (s' & E & _).
    rewrite E in *. exact H.
  - destruct (gps_process_buffer fuel s) as [[s' r]| |]; cbn [bind] in *;
      auto.
  - exact H.
  - exact H.
Qed.

(** A run from a state in shape that fails to return a result fails in a
    call of [gps_process_buffer], from a state in shape. *)
Lemma run_fails (fuel : nat) (ins : list stimulus) :
  forall s : State,
    decoder_ok s -> sync_safe s ->
    forall bad : result State,
      run fuel ins s = bad -> bad = Undef \/ bad = Fuel ->
      exists pre post sk,
        ins = pre ++ Poll :: post /\
        run fuel pre s = Ok sk /\
        decoder_ok sk /\ sync_safe sk /\
        (bad = Undef /\ gps_process_buffer fuel sk = Undef \/
         bad = Fuel /\ gps_process_buffer fuel sk = Fuel).
Proof.
  induction ins as [|i ins IH]; intros s Hd Hs bad Hrun Hbad; cbn [run] in Hrun.
  - destruct Hbad as [-> | ->]; discriminate Hrun.
  - pose proof (react_fails fuel i s Hd Hs) as H.
    destruct (react fuel i s) as [s1| |] eqn:Er; cbn [bind] in Hrun.
    + destruct H as (Hd1 & Hs1).
      destruct (IH s1 Hd1 Hs1 bad Hrun Hbad)
        as (pre & post & sk & -> & Hpre & Hdk & Hsk & Hk).
      exists (i :: pre), post, sk.
      split; [reflexivity|]. split; [cbn [run]; rewrite Er; exact Hpre|].
      auto.
    + destruct H as (-> & Hp).
      exists [], ins, s. split; [reflexivity|]. split; [reflexivity|].
      split; [exact Hd|]. split; [exact Hs|]. left. auto.
    + destruct H as (-> & Hp).
      exists [], ins, s. split; [reflexivity|]. split; [reflexivity|].
      split; [exact Hd|]. split; [exact Hs|]. right. auto.
Qed.


(** X12: the loops over the receive ring end.  A run from a state in
    shape goes on for ever only in a call of [gps_process_buffer] that
    completes a Magellan time sentence which passes both checks, and
    there inside the loop of the epoch correction: the synchroniser and
    the two decoder loops finish every call. *)
Theorem run_hangs_only_in_epoch_correction
    (fuel : nat) (ins : list stimulus) (s : State) :
  decoder_ok s -> sync_safe s ->
  run fuel ins s = Fuel ->
  exists (pre post : list stimulus) (sk s1 : State),
    ins = pre ++ Poll :: post /\
    run fuel pre s = Ok sk /\
    gps_process_buffer fuel sk = Fuel /\
    sync_loop 256 (gps_input_write sk) sk = Ok s1 /\
    gps_packet_type s1 = MAGELLAN_TIME_PACKET /\
    completes_sentence (gps_input_write sk) s1 = true /\
    sentence_valid (gps_packet (completed s1)) 13 = true /\
    epoch_correction fuel
      (be16 (idx (gps_packet (completed s1)) 9)
            (idx (gps_packet (completed s1)) 10))
      (idx (gps_packet (completed s1)) 8)
      (idx (gps_packet (completed s1)) 7) = Fuel.
Proof.
  intros Hd Hs Hrun.
  destruct (run_fails fuel ins s Hd Hs Fuel Hrun (or_intror eq_refl))
    as (pre & post & sk & Hins & Hpre & Hdk & Hsk & [(Hk & _)|(_ & Hk)]);
    [discriminate Hk|].
  destruct (gps_process_buffer_fails fuel sk Hdk Hsk Fuel Hk
              ltac:(intros x; discriminate))
    as (s1 & E & T & C & V & He).
  exists pre, post, sk, s1.
  destruct (epoch_correction fuel _ _ _) as [x| |] eqn:Ee;
    [contradiction|discriminate He|].
  repeat (split; [assumption|]).
  reflexivity.
Qed.

(** ** The call that stores the last byte of a Trimble packet *)




(** ** Sentences of another type *)



End Firmware.

(** * The transmit queue *)

Section TransmitFacts.

Variable UDRIE1 : Z.
Hypothesis UDRIE1_bit : 0 <= UDRIE1 < 8.

(** ** Bits of the control register *)

Lemma BV_testbit (k n : Z) :
  0 <= k -> Z.testbit (_BV k) n = (k =? n).
Proof.
  intros Hk; unfold _BV; rewrite Z.shiftl_1_l; apply Z.pow2_bits_eqb; lia.
Qed.

Lemma u8_testbit (x n : Z) :
  0 <= n -> Z.testbit (u8 x) n = (n <? 8) && Z.testbit x n.
Proof.
  intros Hn; unfold u8; change 256 with (2 ^ 8).
  destruct (Z.ltb_spec n 8).
  - rewrite Z.mod_pow2_bits_low by lia; reflexivity.
  - rewrite Z.mod_pow2_bits_high by lia; reflexivity.
Qed.

Lemma land_BV_testbit (x k : Z) :
  0 <= k -> (Z.land x (_BV k) =? 0) = negb (Z.testbit x k).
Proof.
  intros Hk; destruct (Z.testbit x k) eqn:E; simpl.
  - apply Z.eqb_neq; intros H.
    assert (Hb : Z.testbit (Z.land x (_BV k)) k = true)
      by (rewrite Z.land_spec, E, BV_testbit, Z.eqb_refl by lia; reflexivity).
    rewrite H, Z.bits_0 in Hb; discriminate.
  - apply Z.eqb_eq, Z.bits_inj'; intros n Hn.
    rewrite Z.land_spec, Z.bits_0, BV_testbit by lia.
    destruct (Z.eqb_spec k n) as [->|]; rewrite ?E, ?andb_false_r; reflexivity.
Qed.

Lemma testbit_high (x n : Z) :
  0 <= x < 256 -> 8 <= n -> Z.testbit x n = false.
Proof.
  intros Hx Hn; rewrite <- (u8_small x Hx), u8_testbit by lia.
  destruct (Z.ltb_spec n 8); [lia|reflexivity].
Qed.

(** The control register with the UDRIE1 bit cleared, and with it set. *)
Lemma bit_off_testbit (x n : Z) :
  0 <= n ->
  Z.testbit (u8 (Z.land x (Z.lnot (_BV UDRIE1)))) n =
  (n <? 8) && Z.testbit x n && negb (UDRIE1 =? n).
Proof.
  intros Hn.
  rewrite u8_testbit, Z.land_spec, Z.lnot_spec, BV_testbit by lia.
  rewrite andb_assoc; reflexivity.
Qed.

Lemma bit_on_testbit (x n : Z) :
  0 <= n ->
  Z.testbit (u8 (Z.lor x (_BV UDRIE1))) n =
  (n <? 8) && (Z.testbit x n || (UDRIE1 =? n)).
Proof.
  intros Hn; rewrite u8_testbit, Z.lor_spec, BV_testbit by lia; reflexivity.
Qed.

Lemma udrie_after_on (x : Z) :
  (Z.land (u8 (Z.lor x (_BV UDRIE1))) (_BV UDRIE1) =? 0) = false.
Proof.
  rewrite land_BV_testbit, bit_on_testbit, Z.eqb_refl, orb_true_r by lia.
  destruct (Z.ltb_spec UDRIE1 8); [reflexivity|lia].
Qed.

Lemma udrie_after_off (x : Z) :
  (Z.land (u8 (Z.land x (Z.lnot (_BV UDRIE1)))) (_BV UDRIE1) =? 0) = true.
Proof.
  rewrite land_BV_testbit, bit_off_testbit, Z.eqb_refl by lia.
  rewrite andb_false_r; reflexivity.
Qed.

Lemma bit_off_on (x : Z) :
  u8 (Z.land (u8 (Z.lor x (_BV UDRIE1))) (Z.lnot (_BV UDRIE1))) =
  u8 (Z.land x (Z.lnot (_BV UDRIE1))).
Proof.
  apply Z.bits_inj'; intros n Hn.
  rewrite !bit_off_testbit, bit_on_testbit by lia.
  destruct (n <? 8), (Z.testbit x n), (UDRIE1 =? n); reflexivity.
Qed.

Lemma bit_off_off (x : Z) :
  u8 (Z.land (u8 (Z.land x (Z.lnot (_BV UDRIE1)))) (Z.lnot (_BV UDRIE1))) =
  u8 (Z.land x (Z.lnot (_BV UDRIE1))).
Proof.
  apply Z.bits_inj'; intros n Hn.
  rewrite !bit_off_testbit by lia.
  destruct (n <? 8), (Z.testbit x n), (UDRIE1 =? n); reflexivity.
Qed.

Lemma bit_off_clear (x : Z) :
  0 <= x < 256 -> (Z.land x (_BV UDRIE1) =? 0) = true ->
  u8 (Z.land x (Z.lnot (_BV UDRIE1))) = x.
Proof.
  intros Hx H; rewrite land_BV_testbit in H by lia.
  apply Z.bits_inj'; intros n Hn.
  rewrite bit_off_testbit by lia.
  destruct (Z.ltb_spec n 8).
  - destruct (Z.eqb_spec UDRIE1 n) as [->|]; simpl.
    + destruct (Z.testbit x n); [discriminate H|reflexivity].
    + rewrite andb_true_r; reflexivity.
  - rewrite testbit_high by lia; reflexivity.
Qed.

(** ** The cursors *)

Lemma queued_range (tx : Transmitter) : 0 <= queued tx < 256.
Proof. apply u8_range. Qed.

Lemma queued_zero (tx : Transmitter) :
  tx_ok tx ->
  (gps_output_write tx =? gps_output_read tx) = (queued tx =? 0).
Proof.
  intros (_ & Hr & Hw & _); unfold queued, u8.
  destruct (Z.eqb_spec (gps_output_write tx) (gps_output_read tx)) as [->|Hne].
  - rewrite Z.sub_diag; reflexivity.
  - symmetry; apply Z.eqb_neq; intros H.
    apply Hne. revert H. Z.div_mod_to_equations. lia.
Qed.

Lemma pending_length (tx : Transmitter) :
  Z.of_nat (length (pending tx)) = queued tx.
Proof.
  unfold pending; rewrite length_map, length_seq.
  pose proof (queued_range tx); lia.
Qed.

Lemma pending_nil (tx : Transmitter) : queued tx = 0 -> pending tx = [].
Proof. intros H; unfold pending; rewrite H; reflexivity. Qed.

(** ** One call of each routine *)

(** A byte queued on a ring that holds fewer than 255 goes to the end of
    the pending bytes, and the interrupt is on afterwards. *)
Lemma queue_send_byte_appends (b : Z) (tx : Transmitter) :
  tx_ok tx -> queued tx < 255 ->
  exists tx',
    queue_send_byte UDRIE1 b tx = Ok tx' /\
    tx_ok tx' /\
    queued tx' = queued tx + 1 /\
    pending tx' = pending tx ++ [b] /\
    UDR1 tx' = UDR1 tx /\
    udrie UDRIE1 tx' = true /\
    u8 (Z.land (UCSR1B tx') (Z.lnot (_BV UDRIE1))) =
      u8 (Z.land (UCSR1B tx) (Z.lnot (_BV UDRIE1))).
Proof.
  intros (Hl & Hr & Hw & Hc) Hq.
  assert (Hq0 : 0 <= queued tx) by apply queued_range.
  unfold queue_send_byte.
  destruct (Z.eqb_spec (gps_output_write tx) (gps_output_read tx - 1)) as [E|E].
  { exfalso. unfold queued, u8 in Hq. rewrite E in Hq.
    replace (gps_output_read tx - 1 - gps_output_read tx) with (-1) in Hq by lia.
    vm_compute in Hq. discriminate Hq. }
  rewrite array_set_ok by lia. cbn [bind].
  eexists; split; [reflexivity|].
  assert (Hq' : u8 (u8 (gps_output_write tx + 1) - gps_output_read tx)
                = queued tx + 1).
  { unfold queued, u8 in *. Z.div_mod_to_equations. lia. }
  unfold tx_ok, pending, udrie, queued;
    cbn [gps_output_buffer gps_output_read gps_output_write UCSR1B UDR1].
  rewrite list_set_length. fold (queued tx).
  split; [repeat split; try lia; try apply u8_range;
          destruct (Z.land (UCSR1B tx) (_BV UDRIE1) =? 0);
          try lia; apply u8_range|].
  split; [exact Hq'|]. rewrite Hq'.
  split.
  { replace (Z.to_nat (queued tx + 1)) with (S (Z.to_nat (queued tx))) by lia.
    rewrite seq_S, map_app. cbn [map Nat.add]. f_equal.
    - apply map_ext_in; intros i Hi. apply in_seq in Hi.
      apply idx_list_set_other; try lia; [apply u8_range|].
      unfold queued, u8 in *. Z.div_mod_to_equations. lia.
    - f_equal. rewrite Z2Nat.id by lia.
      replace (u8 (gps_output_read tx + queued tx)) with (gps_output_write tx).
      + apply idx_list_set_same; lia.
      + unfold queued, u8 in *. Z.div_mod_to_equations. lia. }
  split; [reflexivity|].
  destruct (Z.land (UCSR1B tx) (_BV UDRIE1) =? 0) eqn:Eu.
  - rewrite udrie_after_on, bit_off_on. split; reflexivity.
  - rewrite Eu. split; reflexivity.
Qed.

(** The handler on a ring that holds a byte: the oldest pending byte goes
    to the data register; the interrupt is switched off when that was the
    last one. *)
Lemma USART1_UDRE_vect_sends (tx : Transmitter) :
  tx_ok tx -> 1 <= queued tx ->
  exists tx',
    USART1_UDRE_vect UDRIE1 tx = Ok tx' /\
    tx_ok tx' /\
    queued tx' = queued tx - 1 /\
    pending tx = hd 0 (pending tx) :: pending tx' /\
    UDR1 tx' = UDR1 tx ++ [hd 0 (pending tx)] /\
    udrie UDRIE1 tx' = (if queued tx =? 1 then false else udrie UDRIE1 tx) /\
    u8 (Z.land (UCSR1B tx') (Z.lnot (_BV UDRIE1))) =
      u8 (Z.land (UCSR1B tx) (Z.lnot (_BV UDRIE1))).
Proof.
  intros Hok Hq. pose proof Hok as (Hl & Hr & Hw & Hc).
  assert (Hq1 : queued tx < 256) by apply queued_range.
  unfold USART1_UDRE_vect.
  rewrite (queued_zero tx Hok).
  destruct (Z.eqb_spec (queued tx) 0) as [E|_]; [lia|]. cbn [negb].
  rewrite array_get_ok by lia. cbn [bind].
  assert (Hq' : u8 (gps_output_write tx - u8 (gps_output_read tx + 1))
                = queued tx - 1).
  { unfold queued, u8 in *. Z.div_mod_to_equations. lia. }
  assert (Hhd : hd 0 (pending tx) =
                idx (gps_output_buffer tx) (gps_output_read tx)).
  { unfold pending.
    replace (Z.to_nat (queued tx)) with (S (Z.to_nat (queued tx - 1))) by lia.
    cbn [seq map hd]. rewrite Z.add_0_r, u8_small by lia. reflexivity. }
  assert (Htl : pending tx =
                idx (gps_output_buffer tx) (gps_output_read tx) ::
                map (fun i => idx (gps_output_buffer tx)
                                (u8 (u8 (gps_output_read tx + 1) + Z.of_nat i)))
                  (seq 0 (Z.to_nat (queued tx - 1)))).
  { unfold pending.
    replace (Z.to_nat (queued tx)) with (S (Z.to_nat (queued tx - 1))) by lia.
    cbn [seq map]. rewrite Z.add_0_r, u8_small by lia. f_equal.
    rewrite <- seq_shift, map_map. apply map_ext; intros i.
    f_equal. rewrite Nat2Z.inj_succ. unfold u8.
    rewrite Zplus_mod_idemp_l. f_equal. lia. }
  set (tx1 := mkTransmitter _ _ _ _ _).
  assert (Hz : (gps_output_write tx1 =? gps_output_read tx1)
               = (queued tx =? 1)).
  { subst tx1; cbn [gps_output_read gps_output_write].
    destruct (Z.eqb_spec (queued tx) 1) as [E1|E1].
    - apply Z.eqb_eq. unfold queued, u8 in *. Z.div_mod_to_equations. lia.
    - apply Z.eqb_neq. unfold queued, u8 in *. Z.div_mod_to_equations. lia. }
  rewrite Hz.
  eexists; split; [reflexivity|].
  rewrite Hhd, Htl.
  destruct (queued tx =? 1) eqn:E1; subst tx1;
    unfold tx_ok, pending, udrie, set_UCSR1B, queued;
    cbn [gps_output_buffer gps_output_read gps_output_write UCSR1B UDR1];
    fold (queued tx); rewrite Hq';
    (split; [repeat split; try lia; apply u8_range|]);
    (split; [reflexivity|]); (split; [reflexivity|]); (split; [reflexivity|]).
  - rewrite udrie_after_off, bit_off_off. split; reflexivity.
  - split; reflexivity.
Qed.

(** The handler on an empty ring sends nothing and switches the interrupt
    off. *)
Lemma USART1_UDRE_vect_empty (tx : Transmitter) :
  tx_ok tx -> queued tx = 0 ->
  USART1_UDRE_vect UDRIE1 tx =
  Ok (set_UCSR1B (u8 (Z.land (UCSR1B tx) (Z.lnot (_BV UDRIE1)))) tx).
Proof.
  intros Hok Hq. unfold USART1_UDRE_vect.
  rewrite (queued_zero tx Hok), Hq. cbn [Z.eqb negb bind].
  rewrite (queued_zero tx Hok), Hq. reflexivity.
Qed.

(** ** Several bytes, and runs *)

Lemma queue_bytes_app (l1 l2 : list Z) (tx : Transmitter) :
  queue_bytes UDRIE1 (l1 ++ l2) tx =
  (tx1 <- queue_bytes UDRIE1 l1 tx ;; queue_bytes UDRIE1 l2 tx1).
Proof.
  revert tx; induction l1 as [|b l1 IH]; intros tx; cbn [queue_bytes app bind].
  - reflexivity.
  - destruct (queue_send_byte UDRIE1 b tx); cbn [bind]; auto.
Qed.

Lemma queue_bytes_appends (l : list Z) (tx : Transmitter) :
  tx_ok tx -> queued tx + Z.of_nat (length l) <= 255 ->
  exists tx',
    queue_bytes UDRIE1 l tx = Ok tx' /\
    tx_ok tx' /\
    queued tx' = queued tx + Z.of_nat (length l) /\
    pending tx' = pending tx ++ l /\
    UDR1 tx' = UDR1 tx /\
    (l <> [] -> udrie UDRIE1 tx' = true) /\
    u8 (Z.land (UCSR1B tx') (Z.lnot (_BV UDRIE1))) =
      u8 (Z.land (UCSR1B tx) (Z.lnot (_BV UDRIE1))).
Proof.
  revert tx; induction l as [|b l IH]; intros tx Hok Hq.
  - exists tx. cbn [queue_bytes length]. rewrite app_nil_r, Z.add_0_r.
    split; [reflexivity|]. split; [exact Hok|]. split; [reflexivity|].
    split; [reflexivity|]. split; [reflexivity|]. split; [|reflexivity].
    intros H; exfalso; apply H; reflexivity.
  - cbn [length] in Hq. rewrite Nat2Z.inj_succ in Hq.
    destruct (queue_send_byte_appends b tx Hok ltac:(lia))
      as (tx1 & E1 & Hok1 & Hq1 & Hp1 & Hu1 & He1 & Hb1).
    destruct (IH tx1 Hok1 ltac:(lia))
      as (tx2 & E2 & Hok2 & Hq2 & Hp2 & Hu2 & He2 & Hb2).
    exists tx2. cbn [queue_bytes]. rewrite E1. cbn [bind].
    split; [exact E2|]. split; [exact Hok2|].
    split; [cbn [length]; lia|].
    split; [rewrite Hp2, Hp1, <- app_assoc; reflexivity|].
    split; [congruence|].
    split; [|congruence].
    intros _. destruct l as [|c l'].
    + cbn [queue_bytes] in E2. inversion E2; subst; exact He1.
    + apply He2; discriminate.
Qed.

(** The two loops of [send_gps_config] queue the bytes of their tables, in
    order. *)
Lemma send_trimble_init_queues (fuel : nat) (i : Z) (tx : Transmitter) :
  0 <= i <= 9 -> 9 - i <= Z.of_nat fuel ->
  send_trimble_init UDRIE1 fuel i tx =
  queue_bytes UDRIE1 (skipn (Z.to_nat i) trimble_init) tx.
Proof.
  revert i tx; induction fuel as [|fuel IH]; intros i tx Hi Hf;
    cbn [send_trimble_init].
  - assert (i = 9) by lia; subst i. reflexivity.
  - destruct (Z.ltb_spec i 9) as [Hlt|Hge].
    + rewrite array_get_ok by (change (length trimble_init) with 9%nat; lia).
      cbn [bind].
      rewrite (skipn_nth_cons trimble_init (Z.to_nat i))
        by (change (length trimble_init) with 9%nat; lia).
      cbn [queue_bytes]. fold (idx trimble_init i).
      destruct (queue_send_byte UDRIE1 (idx trimble_init i) tx) as [tx1| |];
        cbn [bind]; auto.
      rewrite u8_small by lia. rewrite IH by lia.
      replace (Z.to_nat (i + 1)) with (S (Z.to_nat i)) by lia. reflexivity.
    + assert (i = 9) by lia; subst i. reflexivity.
Qed.

Lemma mgl_init_text :
  length mgl_init = 191%nat /\
  idx mgl_init 190 = 0 /\
  forallb (fun j => negb (idx mgl_init (Z.of_nat j) =? 0)) (seq 0 190) = true /\
  removelast mgl_init = firstn 190 mgl_init.
Proof. vm_compute. repeat split; reflexivity. Qed.

Lemma mgl_init_nonzero (j : Z) : 0 <= j < 190 -> idx mgl_init j <> 0.
Proof.
  intros Hj. destruct mgl_init_text as (_ & _ & H & _).
  rewrite forallb_forall in H.
  specialize (H (Z.to_nat j) ltac:(apply in_seq; lia)).
  rewrite Z2Nat.id in H by lia.
  destruct (Z.eqb_spec (idx mgl_init j) 0); [discriminate H|assumption].
Qed.

Lemma send_mgl_init_queues (fuel : nat) (i : Z) (tx : Transmitter) :
  0 <= i < 190 -> 190 - i <= Z.of_nat fuel + 1 ->
  send_mgl_init UDRIE1 fuel i (idx mgl_init i) tx =
  queue_bytes UDRIE1
    (firstn (Z.to_nat (190 - i)) (skipn (Z.to_nat i) mgl_init)) tx.
Proof.
  destruct mgl_init_text as (Hlen & Hend & _ & _).
  revert i tx; induction fuel as [|fuel IH]; intros i tx Hi Hf.
  - assert (i = 189) by lia; subst i.
    cbn [send_mgl_init]. change (u8 (189 + 1)) with 190.
    rewrite array_get_ok by (rewrite Hlen; lia). rewrite Hend.
    cbn [bind Z.eqb negb].
    change (firstn (Z.to_nat (190 - 189)) (skipn (Z.to_nat 189) mgl_init))
      with [idx mgl_init 189].
    cbn [queue_bytes].
    destruct (queue_send_byte UDRIE1 (idx mgl_init 189) tx); reflexivity.
  - cbn [send_mgl_init].
    rewrite (skipn_nth_cons mgl_init (Z.to_nat i)) by (rewrite Hlen; lia).
    replace (Z.to_nat (190 - i)) with (S (Z.to_nat (190 - (i + 1)))) by lia.
    cbn [firstn queue_bytes]. fold (idx mgl_init i).
    destruct (queue_send_byte UDRIE1 (idx mgl_init i) tx) as [tx1| |];
      cbn [bind]; auto.
    rewrite u8_small by lia.
    rewrite array_get_ok by (rewrite Hlen; lia). cbn [bind].
    destruct (Z.eq_dec (i + 1) 190) as [E|E].
    + rewrite E, Hend. cbn [Z.eqb negb].
      replace (Z.to_nat (190 - 190)) with O by lia. reflexivity.
    + pose proof (mgl_init_nonzero (i + 1) ltac:(lia)) as Hnz.
      apply Z.eqb_neq in Hnz. rewrite Hnz. cbn [negb].
      rewrite IH by lia.
      replace (Z.to_nat (i + 1)) with (S (Z.to_nat i)) by lia. reflexivity.
Qed.

Lemma send_gps_config_queues (tx : Transmitter) :
  send_gps_config UDRIE1 tx = queue_bytes UDRIE1 gps_config_bytes tx.
Proof.
  destruct mgl_init_text as (Hlen & _ & _ & Hrm).
  unfold send_gps_config, gps_config_bytes.
  rewrite queue_bytes_app, send_trimble_init_queues by lia.
  change (skipn (Z.to_nat 0) trimble_init) with trimble_init.
  destruct (queue_bytes UDRIE1 trimble_init tx) as [tx1| |]; cbn [bind];
    [|reflexivity|reflexivity].
  rewrite array_get_ok by (rewrite Hlen; lia). cbn [bind].
  rewrite send_mgl_init_queues by lia.
  rewrite Hrm. reflexivity.
Qed.

Lemma gps_config_bytes_length : length gps_config_bytes = 199%nat.
Proof. vm_compute. reflexivity. Qed.

(** X1: the send queue is first in, first out.  In every run of
    [queue_send_byte] calls and data-register-empty events in which each
    call finds fewer than 255 bytes pending, however many bytes the run
    queues in all, no call waits, and the bytes written to the data
    register followed by the bytes still in the queue are the bytes that
    were there at the start followed by the bytes queued, in the order of
    the calls.  The interrupt stays on exactly while the queue holds a
    byte, and the other bits of the control register are not touched. *)
Theorem transmit_queue_is_fifo (acts : list tx_action) (tx : Transmitter) :
  tx_ok tx -> tx_idle_or_sending UDRIE1 tx ->
  has_room acts (queued tx) = true ->
  exists tx',
    tx_run UDRIE1 acts tx = Ok tx' /\
    UDR1 tx' ++ pending tx' = UDR1 tx ++ pending tx ++ queued_bytes acts /\
    tx_ok tx' /\
    tx_idle_or_sending UDRIE1 tx' /\
    u8 (Z.land (UCSR1B tx') (Z.lnot (_BV UDRIE1))) =
      u8 (Z.land (UCSR1B tx) (Z.lnot (_BV UDRIE1))).
Proof.
  revert tx; induction acts as [|a acts IH]; intros tx Hok Hidle Hq.
  - exists tx. cbn [tx_run queued_bytes flat_map]. rewrite app_nil_r. auto.
  - pose proof (queued_range tx) as Hr.
    destruct a as [b|]; cbn [tx_run tx_step has_room] in Hq |- *.
    + cbn [queued_bytes flat_map app].
      fold (queued_bytes acts).
      apply andb_prop in Hq as (Hlt & Hq). apply Z.ltb_lt in Hlt.
      destruct (queue_send_byte_appends b tx Hok Hlt)
        as (tx1 & E1 & Hok1 & Hq1 & Hp1 & Hu1 & He1 & Hb1).
      assert (Hidle1 : tx_idle_or_sending UDRIE1 tx1).
      { unfold tx_idle_or_sending. rewrite He1, Hq1.
        destruct (Z.eqb_spec (queued tx + 1) 0); [lia|reflexivity]. }
      rewrite <- Hq1 in Hq.
      destruct (IH tx1 Hok1 Hidle1 Hq)
        as (tx2 & E2 & Hf2 & Hok2 & Hidle2 & Hb2).
      exists tx2. rewrite E1. cbn [bind].
      split; [exact E2|]. split; [|split; [exact Hok2|split; [exact Hidle2|congruence]]].
      rewrite Hf2, Hu1, Hp1, <- !app_assoc. reflexivity.
    + cbn [queued_bytes flat_map app].
      fold (queued_bytes acts).
      unfold tx_idle_or_sending in Hidle. rewrite Hidle.
      destruct (Z.eqb_spec (queued tx) 0) as [E0|E0]; cbn [negb].
      * cbn [bind]. rewrite <- E0 in Hq. apply IH; auto.
        unfold tx_idle_or_sending. rewrite Hidle, E0. reflexivity.
      * destruct (USART1_UDRE_vect_sends tx Hok ltac:(lia))
          as (tx1 & E1 & Hok1 & Hq1 & Hp1 & Hu1 & He1 & Hb1).
        assert (Hidle1 : tx_idle_or_sending UDRIE1 tx1).
        { unfold tx_idle_or_sending. rewrite He1, Hq1, Hidle.
          destruct (Z.eqb_spec (queued tx) 1) as [E|E].
          - rewrite E. reflexivity.
          - destruct (Z.eqb_spec (queued tx) 0); [lia|].
            destruct (Z.eqb_spec (queued tx - 1) 0); [lia|reflexivity]. }
        rewrite <- Hq1 in Hq.
        destruct (IH tx1 Hok1 Hidle1 Hq)
          as (tx2 & E2 & Hf2 & Hok2 & Hidle2 & Hb2).
        exists tx2. rewrite E1. cbn [bind].
        split; [exact E2|].
        split; [|split; [exact Hok2|split; [exact Hidle2|congruence]]].
        rewrite Hf2, Hu1. rewrite Hp1 at 2. rewrite <- !app_assoc. reflexivity.
Qed.

(** Enough data-register-empty events empty the queue. *)
Lemma tx_run_drains (n : nat) (tx : Transmitter) :
  tx_ok tx -> tx_idle_or_sending UDRIE1 tx ->
  queued tx <= Z.of_nat n ->
  exists tx',
    tx_run UDRIE1 (repeat DataRegisterEmpty n) tx = Ok tx' /\
    UDR1 tx' = UDR1 tx ++ pending tx /\
    queued tx' = 0 /\
    udrie UDRIE1 tx' = false /\
    tx_ok tx' /\
    u8 (Z.land (UCSR1B tx') (Z.lnot (_BV UDRIE1))) =
      u8 (Z.land (UCSR1B tx) (Z.lnot (_BV UDRIE1))).
Proof.
  revert tx; induction n as [|n IH]; intros tx Hok Hidle Hq;
    pose proof (queued_range tx) as Hr; pose proof Hidle as Hidle0;
    unfold tx_idle_or_sending in Hidle0.
  - assert (E0 : queued tx = 0) by lia.
    exists tx. cbn [repeat tx_run]. rewrite (pending_nil tx E0), app_nil_r.
    rewrite Hidle0, E0. do 4 (split; [reflexivity|]).
    split; [exact Hok|reflexivity].
  - cbn [repeat tx_run tx_step]. rewrite Hidle0.
    destruct (Z.eqb_spec (queued tx) 0) as [E0|E0]; cbn [negb bind].
    + apply IH; auto. lia.
    + destruct (USART1_UDRE_vect_sends tx Hok ltac:(lia))
        as (tx1 & E1 & Hok1 & Hq1 & Hp1 & Hu1 & He1 & Hb1).
      assert (Hidle1 : tx_idle_or_sending UDRIE1 tx1).
      { unfold tx_idle_or_sending. rewrite He1, Hq1, Hidle0.
        destruct (Z.eqb_spec (queued tx) 1) as [E|E].
        - rewrite E. reflexivity.
        - destruct (Z.eqb_spec (queued tx) 0); [lia|].
          destruct (Z.eqb_spec (queued tx - 1) 0); [lia|reflexivity]. }
      rewrite Nat2Z.inj_succ in Hq.
      destruct (IH tx1 Hok1 Hidle1 ltac:(lia))
        as (tx2 & E2 & Hf2 & Hq2 & He2 & Hok2 & Hb2).
      exists tx2. rewrite E1. cbn [bind].
      split; [exact E2|].
      split; [rewrite Hf2, Hu1; rewrite Hp1 at 2; rewrite <- app_assoc;
              reflexivity|].
      repeat split; try assumption; try apply Hok2. congruence.
Qed.

(** X2: the queue drains.  When the data register has become empty at
    least as often as there are bytes in the queue, every byte that was
    pending has been written to the data register, oldest first, the
    queue is empty and the handler has switched its interrupt off: the
    control register is what it was, with the UDRIE1 bit cleared. *)
Theorem transmit_queue_drains (n : nat) (tx : Transmitter) :
  tx_ok tx -> tx_idle_or_sending UDRIE1 tx ->
  queued tx <= Z.of_nat n ->
  exists tx',
    tx_run UDRIE1 (repeat DataRegisterEmpty n) tx = Ok tx' /\
    UDR1 tx' = UDR1 tx ++ pending tx /\
    pending tx' = [] /\
    udrie UDRIE1 tx' = false /\
    UCSR1B tx' = u8 (Z.land (UCSR1B tx) (Z.lnot (_BV UDRIE1))).
Proof.
  intros Hok Hidle Hn.
  destruct (tx_run_drains n tx Hok Hidle Hn)
    as (tx' & E & Hu & Hq & He & Hok' & Hb).
  exists tx'. split; [exact E|]. split; [exact Hu|].
  split; [apply pending_nil; exact Hq|]. split; [exact He|].
  rewrite <- Hb. symmetry. apply bit_off_clear; [apply Hok'|].
  unfold udrie in He. apply negb_false_iff in He. exact He.
Qed.

(** X3: back-pressure.  On a queue that holds 255 bytes and whose read
    cursor is not at 0, [queue_send_byte] does not return before the
    interrupt has run; once the handler has sent the oldest byte the call
    goes through and the new byte is the last in the queue. *)
Theorem queue_send_byte_waits_when_full (b : Z) (tx : Transmitter) :
  tx_ok tx -> queued tx = 255 -> gps_output_read tx <> 0 ->
  queue_send_byte UDRIE1 b tx = Fuel /\
  exists tx1 tx2,
    USART1_UDRE_vect UDRIE1 tx = Ok tx1 /\
    queue_send_byte UDRIE1 b tx1 = Ok tx2 /\
    UDR1 tx2 = UDR1 tx ++ [hd 0 (pending tx)] /\
    pending tx2 = tl (pending tx) ++ [b] /\
    queued tx2 = 255.
Proof.
  intros Hok Hq Hr. pose proof Hok as (Hl & Hr' & Hw & Hc).
  split.
  - unfold queue_send_byte.
    destruct (Z.eqb_spec (gps_output_write tx) (gps_output_read tx - 1)) as [E|E];
      [reflexivity|].
    exfalso. apply E. unfold queued, u8 in Hq. revert Hq.
    Z.div_mod_to_equations. lia.
  - destruct (USART1_UDRE_vect_sends tx Hok ltac:(lia))
      as (tx1 & E1 & Hok1 & Hq1 & Hp1 & Hu1 & He1 & Hb1).
    destruct (queue_send_byte_appends b tx1 Hok1 ltac:(lia))
      as (tx2 & E2 & Hok2 & Hq2 & Hp2 & Hu2 & He2 & Hb2).
    exists tx1, tx2. split; [exact E1|]. split; [exact E2|].
    split; [congruence|]. split; [|lia].
    rewrite Hp2, Hp1. reflexivity.
Qed.

(** X4: the full test misses the wrap.  With the read cursor at 0 the
    comparison with [gps_output_read - 1] is a comparison with -1: on a
    queue that holds 255 bytes [queue_send_byte] does not wait, the write
    cursor wraps onto the read cursor, and the queue is empty afterwards;
    the handler then sends nothing and switches the interrupt off.  None
    of the 256 bytes is sent. *)
Theorem queue_send_byte_full_at_zero (b : Z) (tx : Transmitter) :
  tx_ok tx -> gps_output_read tx = 0 -> gps_output_write tx = 255 ->
  length (pending tx) = 255%nat /\
  exists tx' tx'',
    queue_send_byte UDRIE1 b tx = Ok tx' /\
    pending tx' = [] /\
    UDR1 tx' = UDR1 tx /\
    USART1_UDRE_vect UDRIE1 tx' = Ok tx'' /\
    UDR1 tx'' = UDR1 tx /\
    pending tx'' = [] /\
    udrie UDRIE1 tx'' = false.
Proof.
  intros Hok Hr Hw. pose proof Hok as (Hl & _ & _ & Hc).
  assert (Hq : queued tx = 255) by (unfold queued; rewrite Hr, Hw; reflexivity).
  split; [pose proof (pending_length tx); lia|].
  unfold queue_send_byte. rewrite Hr, Hw. cbn [Z.sub Z.eqb Z.opp Z.add].
  change (255 =? 0 - 1) with false. cbv iota.
  rewrite array_set_ok by lia. cbn [bind].
  set (tx' := mkTransmitter _ _ _ _ _).
  assert (Hok' : tx_ok tx').
  { subst tx'; unfold tx_ok; cbn [gps_output_buffer gps_output_read gps_output_write].
    rewrite list_set_length.
    split; [exact Hl|]. split; [lia|]. split; [apply u8_range|].
    destruct (Z.land (UCSR1B tx) (_BV UDRIE1) =? 0); [apply u8_range|exact Hc]. }
  assert (Hq' : queued tx' = 0) by reflexivity.
  exists tx', (set_UCSR1B (u8 (Z.land (UCSR1B tx') (Z.lnot (_BV UDRIE1)))) tx').
  split; [reflexivity|].
  split; [apply pending_nil; exact Hq'|].
  split; [reflexivity|].
  split; [apply USART1_UDRE_vect_empty; assumption|].
  split; [reflexivity|].
  split; [apply pending_nil; exact Hq'|].
  unfold udrie, set_UCSR1B; cbn [UCSR1B]. rewrite udrie_after_off. reflexivity.
Qed.

(** [send_gps_config] appends the configuration bytes. *)
Lemma send_gps_config_appends (tx : Transmitter) :
  tx_ok tx -> queued tx <= 56 ->
  length gps_config_bytes = 199%nat /\
  exists tx',
    send_gps_config UDRIE1 tx = Ok tx' /\
    pending tx' = pending tx ++ gps_config_bytes /\
    queued tx' = queued tx + 199 /\
    UDR1 tx' = UDR1 tx /\
    udrie UDRIE1 tx' = true /\
    tx_ok tx'.
Proof.
  intros Hok Hq. split; [exact gps_config_bytes_length|].
  destruct (queue_bytes_appends gps_config_bytes tx Hok)
    as (tx' & E & Hok' & Hq' & Hp & Hu & He & Hb).
  { rewrite gps_config_bytes_length. lia. }
  exists tx'. rewrite send_gps_config_queues.
  rewrite gps_config_bytes_length in Hq'.
  repeat split; try assumption; try apply Hok'.
  apply He. intros H. apply (f_equal (@length Z)) in H.
  rewrite gps_config_bytes_length in H. discriminate H.
Qed.

(** X5: [send_gps_config] on a queue with room for it.  If the queue holds
    at most 56 bytes, the call returns without waiting and has put the 199
    configuration bytes, the Trimble packet and then the ten Magellan
    lines without the terminating zero, behind the bytes that were
    pending; the write cursor has moved on by 199 modulo 256, the read
    cursor and the data register are untouched, and the interrupt is
    on. *)
Theorem send_gps_config_queues_config (tx : Transmitter) :
  tx_ok tx -> queued tx <= 56 ->
  length gps_config_bytes = 199%nat /\
  exists tx',
    send_gps_config UDRIE1 tx = Ok tx' /\
    pending tx' = pending tx ++ gps_config_bytes /\
    UDR1 tx' = UDR1 tx /\
    gps_output_read tx' = gps_output_read tx /\
    gps_output_write tx' = u8 (gps_output_write tx + 199) /\
    udrie UDRIE1 tx' = true.
Proof.
  intros Hok Hq. split; [exact gps_config_bytes_length|].
  destruct (send_gps_config_appends tx Hok Hq)
    as (_ & tx' & E & Hp & Hq' & Hu & He & Hok').
  exists tx'. split; [exact E|]. split; [exact Hp|]. split; [exact Hu|].
  assert (Hr : gps_output_read tx' = gps_output_read tx).
  { rewrite send_gps_config_queues in E. clear - E.
    revert tx E. generalize gps_config_bytes as l.
    induction l as [|b l IH]; intros tx E; cbn [queue_bytes] in E.
    - injection E as <-. reflexivity.
    - destruct (queue_send_byte UDRIE1 b tx) as [tx1| |] eqn:E1;
        cbn [bind] in E; try discriminate.
      rewrite (IH tx1 E). unfold queue_send_byte in E1.
      destruct (gps_output_write tx =? gps_output_read tx - 1);
        [discriminate|].
      destruct (array_set _ _ b) as [buf| |]; cbn [bind] in E1;
        try discriminate.
      injection E1 as <-. reflexivity. }
  split; [exact Hr|]. split; [|exact He].
  destruct Hok as (_ & Hrd & Hwr & _), Hok' as (_ & Hrd' & Hwr' & _).
  unfold queued, u8 in *. rewrite Hr in *.
  revert Hq'. Z.div_mod_to_equations. lia.
Qed.

(** X6: from [gps_init] to the wire.  After [gps_init], [send_gps_config]
    on the empty queue, and at least 199 data-register-empty events, the
    bytes written to the data register are the configuration bytes, in
    order, the queue is empty, and the control register holds what
    [gps_init] wrote: receiver, transmitter and receive interrupt enabled,
    the data-register-empty interrupt off again. *)
Theorem gps_config_reaches_the_wire
    (RXEN1 TXEN1 RXCIE1 : Z) (n : nat) (s : State) (tx : Transmitter) :
  0 <= RXEN1 < 8 -> 0 <= TXEN1 < 8 -> 0 <= RXCIE1 < 8 ->
  RXEN1 <> UDRIE1 -> TXEN1 <> UDRIE1 -> RXCIE1 <> UDRIE1 ->
  tx_ok tx -> queued tx = 0 -> (199 <= n)%nat ->
  exists tx1 tx2,
    send_gps_config UDRIE1 (snd (gps_init RXEN1 TXEN1 RXCIE1 s tx)) = Ok tx1 /\
    tx_run UDRIE1 (repeat DataRegisterEmpty n) tx1 = Ok tx2 /\
    UDR1 tx2 = UDR1 tx ++ gps_config_bytes /\
    queued tx2 = 0 /\
    UCSR1B tx2 = UCSR1B (snd (gps_init RXEN1 TXEN1 RXCIE1 s tx)) /\
    Z.testbit (UCSR1B tx2) RXEN1 = true /\
    Z.testbit (UCSR1B tx2) TXEN1 = true /\
    Z.testbit (UCSR1B tx2) RXCIE1 = true /\
    Z.testbit (UCSR1B tx2) UDRIE1 = false.
Proof.
  intros HR HT HC HRU HTU HCU Hok Hq Hn.
  set (tx0 := snd (gps_init RXEN1 TXEN1 RXCIE1 s tx)).
  set (c := u8 (Z.lor (Z.lor (_BV RXEN1) (_BV TXEN1)) (_BV RXCIE1))).
  assert (Hc : UCSR1B tx0 = c) by reflexivity.
  assert (Hbits : forall j, 0 <= j ->
            Z.testbit c j =
            (j <? 8) && ((RXEN1 =? j) || (TXEN1 =? j) || (RXCIE1 =? j))).
  { intros j Hj. unfold c.
    rewrite u8_testbit, !Z.lor_spec, !BV_testbit by lia. reflexivity. }
  assert (Hcu : Z.testbit c UDRIE1 = false).
  { rewrite Hbits by lia.
    destruct (Z.eqb_spec RXEN1 UDRIE1); [contradiction|].
    destruct (Z.eqb_spec TXEN1 UDRIE1); [contradiction|].
    destruct (Z.eqb_spec RXCIE1 UDRIE1); [contradiction|].
    rewrite andb_false_r. reflexivity. }
  assert (Hcr : 0 <= c < 256) by apply u8_range.
  assert (Hok0 : tx_ok tx0).
  { destruct Hok as (H1 & H2 & H3 & _).
    split; [exact H1|]. split; [exact H2|]. split; [exact H3|exact Hcr]. }
  assert (Hq0 : queued tx0 = 0) by exact Hq.
  assert (Hp0 : pending tx0 = []) by (apply pending_nil; exact Hq0).
  destruct (send_gps_config_appends tx0 Hok0 ltac:(lia))
    as (_ & tx1 & E1 & Hp1 & Hq1 & Hu1 & He1 & Hok1).
  assert (Hb1 : u8 (Z.land (UCSR1B tx1) (Z.lnot (_BV UDRIE1))) =
                u8 (Z.land (UCSR1B tx0) (Z.lnot (_BV UDRIE1)))).
  { rewrite send_gps_config_queues in E1.
    destruct (queue_bytes_appends gps_config_bytes tx0 Hok0)
      as (tx1' & E1' & _ & _ & _ & _ & _ & Hb).
    - rewrite gps_config_bytes_length. lia.
    - congruence. }
  assert (Hidle1 : tx_idle_or_sending UDRIE1 tx1).
  { unfold tx_idle_or_sending. rewrite He1, Hq1, Hq0. reflexivity. }
  destruct (tx_run_drains n tx1 Hok1 Hidle1 ltac:(lia))
    as (tx2 & E2 & Hu2 & Hq2 & He2 & Hok2 & Hb2).
  assert (H2 : UCSR1B tx2 = c).
  { assert (Hreg : UCSR1B tx2 = u8 (Z.land (UCSR1B tx2) (Z.lnot (_BV UDRIE1)))).
    { apply Z.bits_inj'; intros j Hj. rewrite bit_off_testbit by lia.
      unfold udrie in He2. apply negb_false_iff in He2.
      rewrite land_BV_testbit in He2 by lia. apply negb_true_iff in He2.
      destruct (Z.eqb_spec UDRIE1 j) as [<-|Hne].
      - rewrite He2, andb_false_r. reflexivity.
      - rewrite andb_true_r.
        destruct (Z.ltb_spec j 8); [reflexivity|].
        apply testbit_high; [apply Hok2|lia]. }
    rewrite Hreg, Hb2, Hb1, Hc.
    apply bit_off_clear; [exact Hcr|].
    rewrite land_BV_testbit, Hcu by lia. reflexivity. }
  exists tx1, tx2.
  split; [exact E1|]. split; [exact E2|].
  split; [rewrite Hu2, Hu1, Hp1, Hp0; reflexivity|].
  split; [exact Hq2|]. split; [rewrite H2, Hc; reflexivity|].
  rewrite H2, Hcu, !Hbits, !Z.eqb_refl by lia.
  rewrite ?orb_true_r, ?orb_true_l.
  destruct (Z.ltb_spec RXEN1 8), (Z.ltb_spec TXEN1 8), (Z.ltb_spec RXCIE1 8);
    try lia; repeat split; reflexivity.
Qed.

End TransmitFacts.

(** * The display routines *)

Section DisplayFacts.

Variable nibble_to_ascii : Z -> Z.

(** ** [write_string] *)

(** The copying loop stops at the first zero byte or at sixteen
    characters; up to there the queue holds what the flash holds. *)
Lemma write_string_copy_spec (s : list Z) (fuel : nat) :
  forall (k : nat) (queue : list Z),
    length queue = 16%nat -> (k <= 16)%nat -> (16 - k <= fuel)%nat ->
    exists (q' : list Z) (m : nat),
      write_string_copy fuel s queue (Z.of_nat k) = Ok (q', Z.of_nat m) /\
      length q' = 16%nat /\
      (k <= m <= 16)%nat /\
      (forall j, (k <= j < m)%nat -> nth j s 0 <> 0 /\ nth j q' 0 = nth j s 0) /\
      (forall j, (j < k)%nat -> nth j q' 0 = nth j queue 0) /\
      ((m < 16)%nat -> nth m s 0 = 0).
Proof.
  induction fuel as [|fuel IH]; intros k queue Hlen Hk Hf.
  - assert (k = 16)%nat by lia; subst k.
    cbn [write_string_copy]. change (Z.of_nat 16 <? 16) with false.
    rewrite andb_false_r. exists queue, 16%nat.
    repeat split; try lia; auto.
  - cbn [write_string_copy]. unfold idx. rewrite Nat2Z.id.
    destruct (Z.eqb_spec (nth k s 0) 0) as [E|E]; cbn [negb andb].
    + exists queue, k. repeat split; try lia; auto.
    + destruct (Z.ltb_spec (Z.of_nat k) 16) as [Hlt|Hge].
      * rewrite array_set_ok by lia. cbn [bind].
        rewrite Nat2Z.id, u8_small by lia.
        replace (Z.of_nat k + 1) with (Z.of_nat (S k)) by lia.
        destruct (IH (S k) (list_set queue k (nth k s 0)))
          as (q' & m & Eq & Hl' & Hm & Hin & Hpre & Hend);
          [rewrite list_set_length; exact Hlen|lia|lia|].
        exists q', m. split; [exact Eq|]. split; [exact Hl'|].
        split; [lia|]. split; [|split; [|exact Hend]].
        -- intros j Hj. destruct (Nat.eq_dec j k) as [->|Hne].
           ++ split; [exact E|].
              rewrite Hpre by lia. apply nth_list_set_same. lia.
           ++ apply Hin. lia.
        -- intros j Hj. rewrite Hpre by lia.
           apply nth_list_set_other. lia.
      * exists queue, k. repeat split; try lia; auto.
Qed.

Lemma write_string_send_spec (queue : list Z) (m : nat) (fuel : nat) :
  forall (i : nat) (lcd : list lcd_event),
    length queue = 16%nat -> (i <= m <= 16)%nat -> (m - i <= fuel)%nat ->
    write_string_send fuel queue (Z.of_nat m) (Z.of_nat i) lcd =
    Ok (lcd ++ map (fun j => Data (nth j queue 0)) (seq i (m - i))).
Proof.
  induction fuel as [|fuel IH]; intros i lcd Hlen Hi Hf.
  - assert (i = m) by lia; subst i.
    cbn [write_string_send]. rewrite Z.ltb_irrefl, Nat.sub_diag.
    cbn [seq map]. rewrite app_nil_r. reflexivity.
  - cbn [write_string_send].
    destruct (Z.ltb_spec (Z.of_nat i) (Z.of_nat m)) as [Hlt|Hge].
    + rewrite array_get_ok by lia. cbn [bind].
      rewrite u8_small by lia.
      replace (Z.of_nat i + 1) with (Z.of_nat (S i)) by lia.
      rewrite IH by lia.
      replace (m - i)%nat with (S (m - S i)) by lia.
      cbn [seq map]. unfold write_byte, idx. rewrite Nat2Z.id, <- app_assoc.
      reflexivity.
    + assert (i = m) by lia; subst i. rewrite Nat.sub_diag.
      cbn [seq map]. rewrite app_nil_r. reflexivity.
Qed.

Lemma c_string_prefix (m : nat) :
  forall s : list Z,
    (forall j, (j < m)%nat -> nth j s 0 <> 0) ->
    (m <= length s)%nat /\
    firstn m (c_string s) = firstn m s /\
    (nth m s 0 = 0 -> c_string s = firstn m s).
Proof.
  induction m as [|m IH]; intros s Hnz.
  - split; [lia|]. split; [reflexivity|].
    intros H0. destruct s as [|c s]; [reflexivity|].
    cbn [nth] in H0. subst c. reflexivity.
  - destruct s as [|c s].
    + exfalso. apply (Hnz O); [lia|reflexivity].
    + assert (Hc : c <> 0) by (apply (Hnz O); lia).
      destruct (IH s) as (Hl & Hf & He).
      { intros j Hj. apply (Hnz (S j)). lia. }
      cbn [length c_string firstn nth].
      destruct (Z.eqb_spec c 0); [contradiction|].
      cbn [firstn]. split; [lia|]. split; [congruence|].
      intros H0. rewrite (He H0). reflexivity.
Qed.

Lemma firstn_as_map (s : list Z) :
  forall m, (m <= length s)%nat ->
    firstn m s = map (fun j => nth j s 0) (seq 0 m).
Proof.
  induction s as [|c s IH]; intros [|m] Hm; cbn [length] in Hm;
    try reflexivity; try lia.
  cbn [firstn seq map nth]. f_equal.
  rewrite <- seq_shift, map_map. apply IH. lia.
Qed.

(** X7: [write_string] truncates at sixteen characters.  Whatever the
    queue holds on entry, the call sends to the display the characters of
    the string up to its terminating zero, and only the first sixteen of
    them if there are more; it never writes outside [queue]. *)
Theorem write_string_truncates
    (garbage s : list Z) (lcd : list lcd_event) :
  length garbage = 16%nat ->
  write_string garbage s lcd =
  Ok (lcd ++ map Data (firstn 16 (c_string s))).
Proof.
  intros Hlen. unfold write_string.
  destruct (write_string_copy_spec s 256 0 garbage Hlen ltac:(lia) ltac:(lia))
    as (q' & m & Eq & Hl' & Hm & Hin & _ & Hend).
  change (Z.of_nat 0) with 0 in Eq. rewrite Eq. cbn [bind].
  change 0 with (Z.of_nat 0) at 1.
  rewrite write_string_send_spec by lia.
  rewrite Nat.sub_0_r. do 2 f_equal.
  destruct (c_string_prefix m s) as (Hls & Hf & He).
  { intros j Hj. apply Hin. lia. }
  assert (Hsent : map (fun j => Data (nth j q' 0)) (seq 0 m) =
                  map Data (firstn m s)).
  { rewrite (firstn_as_map s m Hls), map_map.
    apply map_ext_in; intros j Hj. apply in_seq in Hj.
    f_equal. apply Hin. lia. }
  rewrite Hsent. f_equal.
  destruct (Nat.eq_dec m 16) as [->|Hne].
  - symmetry; exact Hf.
  - rewrite (He (Hend ltac:(lia))).
    rewrite firstn_firstn. f_equal. lia.
Qed.

(** ** [write_number] *)

Lemma write_number_div_spec (places : Z) (fuel : nat) :
  forall (k : nat) (div : Z),
    1 <= places <= 5 -> 1 <= Z.of_nat k <= places ->
    div = 10 ^ (Z.of_nat k - 1) ->
    (Z.to_nat places - k <= fuel)%nat ->
    write_number_div fuel (Z.of_nat k) places div = Ok (10 ^ (places - 1)).
Proof.
  induction fuel as [|fuel IH]; intros k div Hp Hk Hd Hf.
  - assert (Z.of_nat k = places) by lia.
    cbn [write_number_div]. rewrite H, Z.ltb_irrefl, Hd, H. reflexivity.
  - cbn [write_number_div].
    destruct (Z.ltb_spec (Z.of_nat k) places) as [Hlt|Hge].
    + rewrite u8_small by lia.
      replace (Z.of_nat k + 1) with (Z.of_nat (S k)) by lia.
      apply IH; try lia.
      subst div. rewrite Nat2Z.inj_succ.
      replace (Z.succ (Z.of_nat k) - 1) with (Z.succ (Z.of_nat k - 1)) by lia.
      rewrite Z.pow_succ_r by lia.
      unfold u16. rewrite Z.mod_small; [lia|].
      assert (10 ^ (Z.of_nat k - 1) <= 10 ^ 3)
        by (apply Z.pow_le_mono_r; lia).
      change (10 ^ 3) with 1000 in *.
      assert (0 < 10 ^ (Z.of_nat k - 1)) by (apply Z.pow_pos_nonneg; lia).
      lia.
    + assert (Z.of_nat k = places) by lia.
      rewrite Hd, H. reflexivity.
Qed.

Lemma write_number_digits_spec (k : nat) :
  forall (fuel : nat) (number acc : Z) (lcd : list lcd_event),
    0 <= number < 10 ^ Z.of_nat (S k) -> (S k <= fuel)%nat ->
    exists ds : list Z,
      write_number_digits nibble_to_ascii fuel number (10 ^ Z.of_nat k) lcd =
        Ok (lcd ++ map (fun d => Data (nibble_to_ascii d)) ds) /\
      length ds = S k /\
      Forall (fun d => 0 <= d <= 9) ds /\
      fold_left (fun a d => 10 * a + d) ds acc =
        acc * 10 ^ Z.of_nat (S k) + number.
Proof.
  induction k as [|k IH]; intros fuel number acc lcd Hn Hf;
    (destruct fuel as [|fuel]; [lia|]); cbn [write_number_digits].
  - change (10 ^ Z.of_nat 0) with 1. change (10 ^ Z.of_nat 1) with 10 in *.
    cbn [Z.gtb Z.compare]. rewrite Z.div_1_r, Z.mod_1_r.
    change (1 / 10) with 0.
    rewrite u8_small by lia.
    exists [number]. split.
    + destruct fuel; reflexivity.
    + split; [reflexivity|]. split; [constructor; [lia|constructor]|].
      cbn [fold_left]. lia.
  - assert (Hpow : 0 < 10 ^ Z.of_nat (S k)) by (apply Z.pow_pos_nonneg; lia).
    assert (Hpow' : 10 ^ Z.of_nat (S (S k)) = 10 * 10 ^ Z.of_nat (S k)).
    { rewrite (Nat2Z.inj_succ (S k)), Z.pow_succ_r by lia. reflexivity. }
    destruct (Z.gtb_spec (10 ^ Z.of_nat (S k)) 0) as [_|]; [|lia].
    assert (Hq : 0 <= number / 10 ^ Z.of_nat (S k) <= 9).
    { split; [apply Z.div_pos; lia|].
      apply Z.lt_succ_r. apply Z.div_lt_upper_bound; lia. }
    assert (Hr : 0 <= number mod 10 ^ Z.of_nat (S k) < 10 ^ Z.of_nat (S k))
      by (apply Z.mod_pos_bound; lia).
    rewrite u8_small by lia.
    assert (Hdiv : 10 ^ Z.of_nat (S k) / 10 = 10 ^ Z.of_nat k).
    { rewrite Nat2Z.inj_succ, Z.pow_succ_r by lia.
      rewrite Z.mul_comm, Z.div_mul by lia. reflexivity. }
    rewrite Hdiv.
    destruct (IH fuel (number mod 10 ^ Z.of_nat (S k))
                (10 * acc + number / 10 ^ Z.of_nat (S k))
                (write_byte (nibble_to_ascii (number / 10 ^ Z.of_nat (S k))) lcd)
                Hr ltac:(lia))
      as (ds & E & Hl & Hd & Hv).
    exists (number / 10 ^ Z.of_nat (S k) :: ds).
    rewrite E. unfold write_byte. rewrite <- app_assoc.
    split; [reflexivity|]. split; [cbn [length]; lia|].
    split; [constructor; assumption|].
    cbn [fold_left]. rewrite Hv, Hpow'.
    pose proof (Z.div_mod number (10 ^ Z.of_nat (S k)) ltac:(lia)). nia.
Qed.

(** X8: [write_number] writes the decimal digits.  For a field of one to
    five places and a number that fits it, the call sends exactly
    [places] characters, each the [nibble_to_ascii] of a digit 0..9, and
    the digits, most significant first, are those of the number, with
    leading zeros. *)
Theorem write_number_decimal
    (number places : Z) (lcd : list lcd_event) :
  1 <= places <= 5 -> 0 <= number < 10 ^ places -> number <= 32767 ->
  exists ds : list Z,
    write_number nibble_to_ascii number places lcd =
      Ok (lcd ++ map (fun d => Data (nibble_to_ascii d)) ds) /\
    Z.of_nat (length ds) = places /\
    Forall (fun d => 0 <= d <= 9) ds /\
    digits_value ds = number.
Proof.
  intros Hp Hn Hi. unfold write_number.
  change 1 with (Z.of_nat 1) at 1.
  rewrite (write_number_div_spec places 256 1 1 Hp) by (try reflexivity; lia).
  cbn [bind]. unfold u16. rewrite Z.mod_small by lia.
  replace (places - 1) with (Z.of_nat (Z.to_nat (places - 1))) by lia.
  destruct (write_number_digits_spec (Z.to_nat (places - 1)) 16 number 0 lcd)
    as (ds & E & Hl & Hd & Hv).
  { replace (Z.of_nat (S (Z.to_nat (places - 1)))) with places by lia. lia. }
  { lia. }
  exists ds. split; [exact E|]. split; [lia|]. split; [exact Hd|].
  unfold digits_value. rewrite Hv. lia.
Qed.

End DisplayFacts.

(** * Worked runs

    The runs below take the exposure counters to be eight bits wide. *)

(** C7 at N = 3. *)
Lemma pps_countdown_fires_on_nth_edge_witness :
  (3 < 256) /\
  pps_edges 256 1 armed_three = set_exposure_count 2 armed_three /\
  pps_edges 256 2 armed_three = set_exposure_count 1 armed_three /\
  pps_edges 256 3 armed_three =
    emit TriggerDownload (set_gps_record_synctime true armed_three).
Proof.
  pose proof (pps_countdown_fires_on_nth_edge 256 2 armed_three
                eq_refl eq_refl eq_refl eq_refl ltac:(vm_compute; reflexivity))
    as (Hk & Hn & _).
  split; [lia|]. split; [exact (Hk 1%nat ltac:(lia))|].
  split; [exact (Hk 2%nat ltac:(lia))|exact Hn].
Defined.


(** C6, against the claim: a PPS edge takes the mode from Enabled to
    Triggered, and a further edge leaves it Triggered: no edge advances
    the mode from Triggered to Enabled.  In the mode Enabled, which the
    claim takes for the mode in which the edge has come, a timestamp does
    force a tick (the counter goes from 5 to 4) and logs the warning. *)
Lemma timestamp_in_enabled_mode_forces_tick :
  countdown_mode enabled_five_of_ten = COUNTDOWN_ENABLED /\
  countdown_mode (pps_edge 256 enabled_five_of_ten) = COUNTDOWN_TRIGGERED /\
  countdown_mode triggered_five_of_ten = COUNTDOWN_TRIGGERED /\
  countdown_mode (pps_edge 256 triggered_five_of_ten) = COUNTDOWN_TRIGGERED /\
  exposure_count enabled_five_of_ten = 5 /\
  exists s',
    set_time 256 timestamp_1630 enabled_five_of_ten = Ok s' /\
    exposure_count s' = 4 /\
    count_events event_eqb_missed_pps (trace s') = 1%nat /\
    trace s' = [DebugString gps_msg_missed_pps; SendTimestamp].
Proof.
  repeat (split; [reflexivity|]).
  eexists. split; [vm_compute; reflexivity|].
  repeat split.
Qed.

(** C8: two overflows in a row, then the byte 0x41. *)
Lemma watchdog_then_byte_keeps_partial_packet_witness :
  0 <= gps_input_write partial_trimble
    < Z.of_nat (length (gps_input_buffer partial_trimble)) /\
  exists s',
    USART1_RX_vect 0x41 (watchdog_overflows 2 partial_trimble) = Ok s' /\
    gps_state s' = GPS_SYNCING /\
    gps_packet_type s' = TRIMBLE_PACKET /\
    gps_packet_length s' = 5.
Proof.
  assert (Hw : 0 <= gps_input_write partial_trimble
               < Z.of_nat (length (gps_input_buffer partial_trimble)))
    by (vm_compute; split; [discriminate | reflexivity]).
  split; [exact Hw|].
  destruct (watchdog_then_byte_keeps_partial_packet 1 0x41 partial_trimble Hw)
    as (_ & _ & s' & Hrx & Hst & _ & _ & _ & _ & Hty & Hlen & _).
  exists s'. repeat split; assumption.
Defined.

(** C8, against the claim: bytes of a Trimble packet arrive and are
    accumulated, the link falls silent and the watchdog fires, then one
    more byte arrives.  The link state goes to Syncing, but the five
    accumulated bytes are still there, and the next call appends the new
    byte to them. *)
Lemma rx_after_silence_keeps_partial_packet :
  exists s1 s2 s3 c1 c3,
    (s <- receive (trimble_previous_end ++ [0x10; 0x8F; 0xAB; 0x01; 0x02])
            initial_state ;;
     process 256 0 1 s) = Ok (s1, c1) /\
    gps_packet_type s1 = TRIMBLE_PACKET /\ gps_packet_length s1 = 5 /\
    gps_state (TIMER1_OVF_vect s1) = GPS_UNAVAILABLE /\
    USART1_RX_vect 0x03 (TIMER1_OVF_vect s1) = Ok s2 /\
    gps_state s2 = GPS_SYNCING /\
    gps_packet_type s2 <> UNKNOWN_PACKET /\
    gps_packet_length s2 <> 0 /\
    process 256 0 1 s2 = Ok (s3, c3) /\
    gps_packet_length s3 = 6 /\
    firstn 6 (gps_packet s3) = [0x10; 0x8F; 0xAB; 0x01; 0x02; 0x03].
Proof.
  do 5 eexists.
  split; [vm_compute; reflexivity|].
  split; [reflexivity|]. split; [reflexivity|]. split; [reflexivity|].
  split; [vm_compute; reflexivity|].
  split; [reflexivity|]. split; [discriminate|]. split; [discriminate|].
  split; [vm_compute; reflexivity|].
  split; reflexivity.
Qed.

(** C5 on a status sentence with the right checksum byte. *)
Lemma magellan_checksum_covers_type_byte_witness :
  (5 <= gps_packet_length (sentence_complete MAGELLAN_STATUS_PACKET
                             (status_sentence 79))
     <= Z.of_nat (length (gps_packet (sentence_complete MAGELLAN_STATUS_PACKET
                                        (status_sentence 79))))) /\
  magellan_checksum (status_sentence 79) 16 = 79 /\
  magellan_complete 256 0
    (sentence_complete MAGELLAN_STATUS_PACKET (status_sentence 79)) =
  Ok (set_gps_magellan_locked true
        (sentence_complete MAGELLAN_STATUS_PACKET (status_sentence 79)), true).
Proof.
  assert (Hl : 5 <= gps_packet_length (sentence_complete MAGELLAN_STATUS_PACKET
                                         (status_sentence 79))
               <= Z.of_nat (length (gps_packet
                    (sentence_complete MAGELLAN_STATUS_PACKET
                       (status_sentence 79)))))
    by (vm_compute; split; discriminate).
  split; [exact Hl|]. split; [reflexivity|].
  exact (proj2 (proj2 (proj2
           (magellan_checksum_covers_type_byte 256 0
              (sentence_complete MAGELLAN_STATUS_PACKET (status_sentence 79))
              Hl eq_refl))) eq_refl eq_refl).
Defined.

(** C5, against the claim: the XOR of the span strictly between the
    sentence-type byte and the checksum byte of this status sentence is 7,
    the decoder computes 79 (7 XOR 'H'), and a sentence that stores 7 is
    rejected with "got 79, expected 7". *)
Lemma checksum_exclusive_span_rejected :
  checksum_exclusive (status_sentence 7) 16 = 7 /\
  magellan_checksum (status_sentence 7) 16 = 79 /\
  magellan_checksum (status_sentence 7) 16 <>
    checksum_exclusive (status_sentence 7) 16 /\
  magellan_complete 256 0
    (sentence_complete MAGELLAN_STATUS_PACKET (status_sentence 7)) =
  Ok (emit (DebugRaw (status_sentence 7))
        (emit (DebugChecksumFailed 79 7)
           (sentence_complete MAGELLAN_STATUS_PACKET (status_sentence 7))),
      false).
Proof.
  split; [reflexivity|]. split; [reflexivity|].
  split; [vm_compute; discriminate|]. vm_compute; reflexivity.
Qed.

(** C4 on a status sentence whose checksum byte is 73 instead of 79,
    received whole after start-up: one call recognises the sentence,
    completes it and rejects it. *)
Lemma magellan_corrupt_sentence_rejected_witness :
  decoder_ok (sentence_buffered 256 (status_sentence 73)) /\
  exists s1,
    sync_loop 256
      (gps_input_write (sentence_buffered 256 (status_sentence 73)))
      (sentence_buffered 256 (status_sentence 73)) = Ok s1 /\
    gps_packet_type s1 = MAGELLAN_STATUS_PACKET /\
    completes_sentence
      (gps_input_write (sentence_buffered 256 (status_sentence 73))) s1 = true /\
    firstn 16 (gps_packet (completed s1)) = status_sentence 73 /\
    magellan_checksum (list_set (gps_packet (completed s1)) 5 0xFF) 16 <>
      magellan_checksum (gps_packet (completed s1)) 16 /\
    exists s',
      gps_process_buffer 256 0 (sentence_buffered 256 (status_sentence 73)) =
        Ok (s', false) /\
      gps_last_timestamp s' = no_timestamp /\
      gps_magellan_locked s' = false /\
      gps_state s' = GPS_SYNCING /\
      timestamps_sent s' = 0%nat /\
      gps_packet_type s' = UNKNOWN_PACKET /\
      gps_packet_length s' = 0.
Proof.
  assert (Hd : decoder_ok (sentence_buffered 256 (status_sentence 73)))
    by (unfold decoder_ok, buffers_ok; vm_compute; repeat split; congruence).
  split; [exact Hd|].
  assert (E : exists s1,
            sync_loop 256
              (gps_input_write (sentence_buffered 256 (status_sentence 73)))
              (sentence_buffered 256 (status_sentence 73)) = Ok s1 /\
            gps_packet_type s1 = MAGELLAN_STATUS_PACKET /\
            completes_sentence
              (gps_input_write (sentence_buffered 256 (status_sentence 73)))
              s1 = true /\
            firstn 16 (gps_packet (completed s1)) = status_sentence 73 /\
            gps_magellan_length s1 = 16 /\
            0xFF <> idx (gps_packet (completed s1)) 5 /\
            idx (gps_packet (completed s1)) (gps_magellan_length s1 - 2) <>
              magellan_checksum (gps_packet (completed s1))
                (gps_magellan_length s1)).
  { eexists. split; [vm_compute; reflexivity|].
    split; [vm_compute; reflexivity|]. split; [vm_compute; reflexivity|].
    split; [vm_compute; reflexivity|]. split; [vm_compute; reflexivity|].
    split; vm_compute; discriminate. }
  destruct E as (s1 & E & T & C & P & M & V & Hbad).
  exists s1. split; [exact E|]. split; [exact T|]. split; [exact C|].
  split; [exact P|].
  destruct (magellan_corrupt_sentence_rejected 256 0
              (sentence_buffered 256 (status_sentence 73)) s1
              Hd E (or_intror T)) as (Hcomp & _).
  destruct (Hcomp C) as (Hmut & Hrej).
  split.
  - pose proof (Hmut 5 0xFF) as H. rewrite M in H.
    apply H; [lia|exact V].
  - exact (Hrej (or_intror Hbad)).
Defined.

(** C10 on a time sentence that passes both checks, received whole after
    start-up and decoded by one call while the remembered lock flag is
    FALSE. *)
Lemma magellan_timestamp_lock_flag_witness :
  decoder_ok (sentence_buffered 256 (time_sentence 157)) /\
  exists s1,
    sync_loop 256
      (gps_input_write (sentence_buffered 256 (time_sentence 157)))
      (sentence_buffered 256 (time_sentence 157)) = Ok s1 /\
    gps_packet_type s1 = MAGELLAN_TIME_PACKET /\
    exists s' tr,
      gps_process_buffer 256 64 (sentence_buffered 256 (time_sentence 157)) =
        Ok (s', true) /\
      gps_last_timestamp s' = mkTimestamp 12 30 0 17 8 2012 false /\
      gps_magellan_locked s' = false /\
      timestamps_sent s' = 1%nat /\
      trace s' = trace s1 ++ tr ++ [SendTimestamp].
Proof.
  assert (Hd : decoder_ok (sentence_buffered 256 (time_sentence 157)))
    by (unfold decoder_ok, buffers_ok; vm_compute; repeat split; congruence).
  split; [exact Hd|].
  assert (E : exists s1,
            sync_loop 256
              (gps_input_write (sentence_buffered 256 (time_sentence 157)))
              (sentence_buffered 256 (time_sentence 157)) = Ok s1 /\
            gps_packet_type s1 = MAGELLAN_TIME_PACKET /\
            completes_sentence
              (gps_input_write (sentence_buffered 256 (time_sentence 157)))
              s1 = true /\
            sentence_valid (gps_packet (completed s1))
              (gps_magellan_length s1) = true /\
            epoch_correction 64
              (be16 (idx (gps_packet (completed s1)) 9)
                    (idx (gps_packet (completed s1)) 10))
              (idx (gps_packet (completed s1)) 8)
              (idx (gps_packet (completed s1)) 7) = Ok (2012, 8, 17) /\
            idx (gps_packet (completed s1)) 4 = 12 /\
            idx (gps_packet (completed s1)) 5 = 30 /\
            idx (gps_packet (completed s1)) 6 = 0).
  { eexists. split; [vm_compute; reflexivity|].
    repeat split; vm_compute; reflexivity. }
  destruct E as (s1 & E & T & C & V & He & B4 & B5 & B6).
  exists s1. split; [exact E|]. split; [exact T|].
  destruct (proj1 (proj2
              (magellan_timestamp_lock_flag 256 64
                 (sentence_buffered 256 (time_sentence 157)) s1 Hd E C V))
              T 2012 8 17 He ltac:(intros H; vm_compute in H; discriminate H))
    as (s' & tr & Hrun & Hts & Hlk & Hn & Htr).
  exists s', tr. rewrite B4, B5, B6 in Hts.
  split; [exact Hrun|]. split; [exact Hts|]. split; [exact Hlk|].
  split; [exact Hn|exact Htr].
Defined.

(** C1: the packet for 16:30:00 on the 16th is decoded when all of it is
    unread at one call, and is lost when the
    main loop calls [gps_process_buffer] after every received byte: the
    hour and the day collapse into one byte, the packet only fills up with
    the first byte of the next packet and is rejected. *)
Lemma trimble_packet_lost_bytewise :
  (exists s c,
     (s0 <- receive (trimble_previous_end ++ trimble_1630_on_16th)
              initial_state ;;
      process 256 0 1 s0) = Ok (s, c) /\
     gps_last_timestamp s = timestamp_1630 /\
     trace s = [SendTimestamp]) /\
  (exists s c,
     receive_and_process 256 0
       (trimble_previous_end ++ trimble_1630_on_16th ++ [0x10])
       initial_state = Ok (s, c) /\
     gps_last_timestamp s = no_timestamp /\
     trace s =
       [DebugString gps_msg_bad_packet;
        DebugRaw [0x10; 0x8F; 0xAB; 0x00; 0x04; 0xE2; 0x64; 0x06; 0x8D; 0x00;
                  0x0F; 0x03; 0x00; 0x1E; 0x10; 0x03; 0x07; 0xDC; 0x10; 0x03;
                  0x10]]).
Proof.
  split; do 2 eexists; (split; [vm_compute; reflexivity|]); split; reflexivity.
Qed.

(** C3: a packet whose last data byte is 0x10.  When the doubled pair and
    the terminator arrive in one call the packet is decoded; when the
    first 0x10 of the pair is the last unread byte of one call and the
    second the only unread byte of the next, the 0x10 of the terminator is
    skipped as if it were padding, and the packet stays one byte short
    with 0x10, 0x03 as its last bytes. *)
Lemma trimble_third_dle_swallowed :
  (exists s c,
     (s0 <- receive (trimble_previous_end ++ trimble_2064_head ++ [0x10])
              initial_state ;;
      ' (s1, _) <- process 256 0 1 s0 ;;
      s2 <- receive [0x10; 0x10; 0x03] s1 ;;
      process 256 0 1 s2) = Ok (s, c) /\
     gps_last_timestamp s = mkTimestamp 12 30 0 15 3 2064 true /\
     trace s = [SendTimestamp]) /\
  (exists s c,
     (s0 <- receive (trimble_previous_end ++ trimble_2064_head ++ [0x10])
              initial_state ;;
      ' (s1, _) <- process 256 0 1 s0 ;;
      s2 <- receive [0x10] s1 ;;
      ' (s3, _) <- process 256 0 1 s2 ;;
      s4 <- receive [0x10; 0x03] s3 ;;
      process 256 0 1 s4) = Ok (s, c) /\
     gps_packet_type s = TRIMBLE_PACKET /\
     gps_packet_length s = 20 /\
     firstn 3 (skipn 17 (gps_packet s)) = [0x08; 0x10; 0x03] /\
     trace s = []).
Proof.
  split; do 2 eexists; (split; [vm_compute; reflexivity|]);
    repeat split; reflexivity.
Qed.

(** C2: the correction of the raw date 15 January 1980 ends on 25 January
    2001, and that of 1 February 1980 on 16 September 1999; nineteen
    years and 229 days after them are 1 September 1999 and 18 September
    1999. *)
Lemma epoch_correction_is_not_229_days :
  epoch_correction 2000 1980 1 15 = Ok (2001, 1, 25) /\
  advance_19_years_229_days 1980 1 15 = (1999, 9, 1) /\
  epoch_correction 2000 1980 2 1 = Ok (1999, 9, 16) /\
  advance_19_years_229_days 1980 2 1 = (1999, 9, 18) /\
  exists s c,
    (s0 <- receive ([0x0A] ++ time_sentence_1980) initial_state ;;
     process 256 2000 1 s0) = Ok (s, c) /\
    gps_last_timestamp s = mkTimestamp 12 30 0 25 1 2001 false /\
    trace s = [SendTimestamp].
Proof.
  do 4 (split; [vm_compute; reflexivity|]).
  do 2 eexists. split; [vm_compute; reflexivity|]. split; reflexivity.
Qed.

(** C9: two Trimble packets in a row.  The scan skips four bytes before
    the first preamble and three before the second; the counter stands at
    7 after the second resynchronisation and nothing was logged about
    skipped bytes.  The same scan over Magellan sentences leaves it at 0. *)
Lemma trimble_resync_keeps_skip_counter :
  (exists s c,
     (s0 <- receive (trimble_previous_end ++ trimble_1630_on_16th
                     ++ [0x10; 0x8F; 0xAB]) initial_state ;;
      process 256 0 2 s0) = Ok (s, c) /\
     gps_packet_type s = TRIMBLE_PACKET /\
     bytes_to_sync s = 7 /\
     trace s = [SendTimestamp]) /\
  (exists s c,
     (s0 <- receive ([0x0A] ++ status_sentence 79 ++ [0x24; 0x24; 0x48])
              initial_state ;;
      process 256 0 2 s0) = Ok (s, c) /\
     gps_packet_type s = MAGELLAN_STATUS_PACKET /\
     bytes_to_sync s = 0).
Proof.
  split; do 2 eexists; (split; [vm_compute; reflexivity|]);
    repeat split; reflexivity.
Qed.

(** The packet for 16:30:00 on the 16th, all of it unread at one call
    after the previous packet: an instance of
    [trimble_packet_decoded_after_previous]. *)
Lemma trimble_1630_decoded_in_one_call :
  exists s',
    gps_process_buffer 256 0 packet_1630_unread = Ok (s', true) /\
    gps_last_timestamp s' = timestamp_1630 /\
    gps_packet_type s' = UNKNOWN_PACKET /\
    gps_packet_length s' = 0.
Proof.
  destruct (trimble_packet_decoded_after_previous 256 0 packet_1630_unread
              data_1630_on_16th) as (s' & Hrun & Hts & _ & Hty & Hlen & _).
  - unfold buffers_ok. vm_compute. repeat split; congruence.
  - reflexivity.
  - reflexivity.
  - reflexivity.
  - reflexivity.
  - intros i Hi.
    do 24 (destruct i as [|i]; [reflexivity|]).
    vm_compute in Hi. lia.
  - vm_compute. discriminate.
  - intros H; discriminate H.
  - exists s'. repeat split; assumption.
Qed.

(** A status sentence with byte 13 equal to 6 followed by a time sentence:
    the published timestamp is locked, though no byte of the time
    sentence says so. *)
Lemma magellan_lock_follows_status_sentence :
  exists s c,
    (s0 <- receive ([0x0A] ++ status_sentence 79 ++ time_sentence 157)
             initial_state ;;
     process 256 64 2 s0) = Ok (s, c) /\
    gps_last_timestamp s = mkTimestamp 12 30 0 17 8 2012 true /\
    trace s = [SendTimestamp].
Proof.
  do 2 eexists. split; [vm_compute; reflexivity|]. split; reflexivity.
Qed.

(** * Worked runs of the transmit side, the display routines and the
      receive ring *)

(** X1 on three hundred bytes, each queued and then sent: more bytes
    than the queue holds, never more than one at a time. *)
Lemma transmit_queue_is_fifo_witness :
  tx_ok tx_idle /\ tx_idle_or_sending 5 tx_idle /\
  has_room tx_pairs (queued tx_idle) = true /\
  length (queued_bytes tx_pairs) = 300%nat /\
  exists tx',
    tx_run 5 tx_pairs tx_idle = Ok tx' /\
    UDR1 tx' ++ pending tx' = repeat 0x41 300 /\
    tx_idle_or_sending 5 tx'.
Proof.
  assert (H5 : 0 <= 5 < 8) by lia.
  assert (Hok : tx_ok tx_idle)
    by (unfold tx_ok; vm_compute; repeat split; congruence).
  assert (Hidle : tx_idle_or_sending 5 tx_idle) by reflexivity.
  assert (Hroom : has_room tx_pairs (queued tx_idle) = true)
    by (vm_compute; reflexivity).
  split; [exact Hok|]. split; [exact Hidle|]. split; [exact Hroom|].
  split; [vm_compute; reflexivity|].
  destruct (transmit_queue_is_fifo 5 H5 tx_pairs tx_idle Hok Hidle Hroom)
    as (tx' & E & F & _ & I & _).
  exists tx'. split; [exact E|]. split; [|exact I].
  rewrite F. vm_compute. reflexivity.
Defined.

(** X2 on two pending bytes and three data-register-empty events. *)
Lemma transmit_queue_drains_witness :
  tx_ok tx_two_pending /\ tx_idle_or_sending 5 tx_two_pending /\
  exists tx',
    tx_run 5 (repeat DataRegisterEmpty 3) tx_two_pending = Ok tx' /\
    UDR1 tx' = [0x10; 0x8E] /\
    pending tx' = [] /\
    udrie 5 tx' = false /\
    UCSR1B tx' = 0x98.
Proof.
  assert (H5 : 0 <= 5 < 8) by lia.
  assert (Hok : tx_ok tx_two_pending)
    by (unfold tx_ok; vm_compute; repeat split; congruence).
  assert (Hidle : tx_idle_or_sending 5 tx_two_pending) by reflexivity.
  split; [exact Hok|]. split; [exact Hidle|].
  destruct (transmit_queue_drains 5 H5 3 tx_two_pending Hok Hidle
              ltac:(vm_compute; discriminate))
    as (tx' & E & F & Q & U & C).
  exists tx'. split; [exact E|]. split; [exact F|]. split; [exact Q|].
  split; [exact U|exact C].
Defined.

(** X3 on a queue of 255 bytes with the read cursor at 1. *)
Lemma queue_send_byte_waits_when_full_witness :
  tx_ok tx_full_at_1 /\ queued tx_full_at_1 = 255 /\
  queue_send_byte 5 0x41 tx_full_at_1 = Fuel /\
  exists tx1 tx2,
    USART1_UDRE_vect 5 tx_full_at_1 = Ok tx1 /\
    queue_send_byte 5 0x41 tx1 = Ok tx2 /\
    UDR1 tx2 = [7] /\
    queued tx2 = 255.
Proof.
  assert (H5 : 0 <= 5 < 8) by lia.
  assert (Hok : tx_ok tx_full_at_1)
    by (unfold tx_ok; vm_compute; repeat split; congruence).
  split; [exact Hok|]. split; [reflexivity|].
  destruct (queue_send_byte_waits_when_full 5 H5 0x41 tx_full_at_1 Hok
              eq_refl ltac:(vm_compute; discriminate))
    as (W & tx1 & tx2 & E1 & E2 & U & _ & Q).
  split; [exact W|]. exists tx1, tx2.
  split; [exact E1|]. split; [exact E2|]. split; [exact U|exact Q].
Defined.

(** X4 on a queue of 255 bytes with the read cursor at 0. *)
Lemma queue_send_byte_full_at_zero_witness :
  tx_ok tx_full_at_0 /\
  length (pending tx_full_at_0) = 255%nat /\
  exists tx' tx'',
    queue_send_byte 5 0x41 tx_full_at_0 = Ok tx' /\
    pending tx' = [] /\
    USART1_UDRE_vect 5 tx' = Ok tx'' /\
    UDR1 tx'' = [] /\
    udrie 5 tx'' = false.
Proof.
  assert (H5 : 0 <= 5 < 8) by lia.
  assert (Hok : tx_ok tx_full_at_0)
    by (unfold tx_ok; vm_compute; repeat split; congruence).
  split; [exact Hok|].
  destruct (queue_send_byte_full_at_zero 5 H5 0x41 tx_full_at_0 Hok
              eq_refl eq_refl)
    as (L & tx' & tx'' & E1 & P & _ & E2 & U & _ & D).
  split; [exact L|]. exists tx', tx''.
  split; [exact E1|]. split; [exact P|]. split; [exact E2|].
  split; [exact U|exact D].
Defined.

(** X5 on the idle queue. *)
Lemma send_gps_config_queues_config_witness :
  tx_ok tx_idle /\ queued tx_idle <= 56 /\
  exists tx',
    send_gps_config 5 tx_idle = Ok tx' /\
    pending tx' = gps_config_bytes /\
    firstn 12 (pending tx') =
      [0x10; 0x8E; 0xA5; 0x00; 0x01; 0x00; 0x00; 0x10; 0x03;
       0x24; 0x50; 0x4D] /\
    gps_output_write tx' = 199.
Proof.
  assert (H5 : 0 <= 5 < 8) by lia.
  assert (Hok : tx_ok tx_idle)
    by (unfold tx_ok; vm_compute; repeat split; congruence).
  assert (Hq : queued tx_idle <= 56) by (vm_compute; discriminate).
  split; [exact Hok|]. split; [exact Hq|].
  destruct (send_gps_config_queues_config 5 H5 tx_idle Hok Hq)
    as (_ & tx' & E & P & _ & _ & W & _).
  exists tx'. split; [exact E|]. split; [exact P|].
  split; [rewrite P; reflexivity|exact W].
Defined.

(** X6 from the initial state, with 199 data-register-empty events. *)
Lemma gps_config_reaches_the_wire_witness :
  tx_ok tx_idle /\ queued tx_idle = 0 /\
  exists tx1 tx2,
    send_gps_config 5 (snd (gps_init 4 3 7 initial_state tx_idle)) = Ok tx1 /\
    tx_run 5 (repeat DataRegisterEmpty 199) tx1 = Ok tx2 /\
    UDR1 tx2 = gps_config_bytes /\
    UCSR1B tx2 = 0x98.
Proof.
  assert (H5 : 0 <= 5 < 8) by lia.
  assert (Hok : tx_ok tx_idle)
    by (unfold tx_ok; vm_compute; repeat split; congruence).
  split; [exact Hok|]. split; [reflexivity|].
  destruct (gps_config_reaches_the_wire 5 H5 4 3 7 199 initial_state tx_idle
              ltac:(lia) ltac:(lia) ltac:(lia)
              ltac:(discriminate) ltac:(discriminate) ltac:(discriminate)
              Hok eq_refl (le_n _))
    as (tx1 & tx2 & E1 & E2 & U & _ & C & _).
  exists tx1, tx2. split; [exact E1|]. split; [exact E2|].
  split; [exact U|exact C].
Defined.

(** X7 on the header "SYNCING TO GPS" and a queue full of 0xFF. *)
Lemma write_string_truncates_witness :
  length (repeat 0xFF 16) = 16%nat /\
  write_string (repeat 0xFF 16) header_syncing [] =
  Ok (map Data [0x53; 0x59; 0x4E; 0x43; 0x49; 0x4E; 0x47; 0x20; 0x54; 0x4F;
                0x20; 0x47; 0x50; 0x53]).
Proof.
  split; [reflexivity|].
  exact (write_string_truncates (repeat 0xFF 16) header_syncing [] eq_refl).
Defined.

(** X8 on the number 42 in a field of four places. *)
Lemma write_number_decimal_witness :
  (1 <= 4 <= 5) /\ (0 <= 42 < 10 ^ 4) /\
  exists ds,
    write_number digit_to_ascii 42 4 [] =
      Ok (map (fun d => Data (digit_to_ascii d)) ds) /\
    Z.of_nat (length ds) = 4 /\
    digits_value ds = 42.
Proof.
  assert (H1 : 1 <= 4 <= 5) by lia.
  assert (H2 : 0 <= 42 < 10 ^ 4) by (vm_compute; split; [discriminate|reflexivity]).
  split; [exact H1|]. split; [exact H2|].
  destruct (write_number_decimal digit_to_ascii 42 4 [] H1 H2
              ltac:(vm_compute; discriminate))
    as (ds & E & L & _ & V).
  exists ds. split; [exact E|]. split; [exact L|exact V].
Defined.

(** X10 on a status sentence, two polls, a watchdog overflow and a
    pulse, from the initial state. *)
Lemma decoder_invariant_witness :
  decoder_ok initial_state /\ sync_safe initial_state /\
  exists s',
    run 256 64 status_run initial_state = Ok s' /\
    decoder_ok s' /\ sync_safe s'.
Proof.
  assert (Hd : decoder_ok initial_state)
    by (unfold decoder_ok, buffers_ok; vm_compute; repeat split; congruence).
  assert (Hs : sync_safe initial_state) by (intros H; discriminate H).
  split; [exact Hd|]. split; [exact Hs|].
  assert (E : exists s', run 256 64 status_run initial_state = Ok s')
    by (eexists; vm_compute; reflexivity).
  destruct E as (s' & E). exists s'. split; [exact E|].
  exact (decoder_invariant 256 64 status_run initial_state s' Hd Hs E).
Defined.


(** X12 on a time sentence with the day byte 32. *)
Lemma run_hangs_only_in_epoch_correction_witness :
  run 256 64 (time_run time_sentence_day_32) initial_state = Fuel /\
  exists (pre post : list stimulus) (sk s1 : State),
    time_run time_sentence_day_32 = pre ++ Poll :: post /\
    run 256 64 pre initial_state = Ok sk /\
    gps_process_buffer 256 64 sk = Fuel /\
    sync_loop 256 (gps_input_write sk) sk = Ok s1 /\
    gps_packet_type s1 = MAGELLAN_TIME_PACKET /\
    completes_sentence (gps_input_write sk) s1 = true /\
    sentence_valid (gps_packet (completed s1)) 13 = true /\
    epoch_correction 64
      (be16 (idx (gps_packet (completed s1)) 9)
            (idx (gps_packet (completed s1)) 10))
      (idx (gps_packet (completed s1)) 8)
      (idx (gps_packet (completed s1)) 7) = Fuel.
Proof.
  assert (Hd : decoder_ok initial_state)
    by (unfold decoder_ok, buffers_ok; vm_compute; repeat split; congruence).
  assert (Hs : sync_safe initial_state) by (intros H; discriminate H).
  assert (E : run 256 64 (time_run time_sentence_day_32) initial_state = Fuel)
    by (vm_compute; reflexivity).
  split; [exact E|].
  exact (run_hangs_only_in_epoch_correction 256 64
           (time_run time_sentence_day_32) initial_state Hd Hs E).
Defined.

(** X13 on the call that completes a time sentence. *)
Lemma gps_process_buffer_publishes_at_most_once_witness :
  decoder_ok (sentence_unread MAGELLAN_TIME_PACKET (time_sentence 157)) /\
  exists s',
    gps_process_buffer 256 64
      (sentence_unread MAGELLAN_TIME_PACKET (time_sentence 157)) =
      Ok (s', true) /\
    (timestamps_sent s' = 0%nat /\
     gps_last_timestamp s' = no_timestamp /\ gps_state s' = GPS_SYNCING \/
     timestamps_sent s' = 1%nat /\ gps_state s' = GPS_ACTIVE /\ true = true).
Proof.
  assert (Hd : decoder_ok
                 (sentence_unread MAGELLAN_TIME_PACKET (time_sentence 157)))
    by (unfold decoder_ok, buffers_ok; vm_compute; repeat split; congruence).
  split; [exact Hd|].
  assert (E : exists s',
            gps_process_buffer 256 64
              (sentence_unread MAGELLAN_TIME_PACKET (time_sentence 157)) =
            Ok (s', true))
    by (eexists; vm_compute; reflexivity).
  destruct E as (s' & E). exists s'. split; [exact E|].
  exact (gps_process_buffer_publishes_at_most_once 256 64 _ s' true Hd
           ltac:(intros H; discriminate H) E).
Defined.

(** X14 on a time sentence with the day byte 32, received whole after
    start-up, with a bound of 4096 passes. *)
Lemma magellan_day_out_of_range_hangs_witness :
  decoder_ok (sentence_buffered 256 time_sentence_day_32) /\
  exists s1,
    sync_loop 256
      (gps_input_write (sentence_buffered 256 time_sentence_day_32))
      (sentence_buffered 256 time_sentence_day_32) = Ok s1 /\
    gps_packet_type s1 = MAGELLAN_TIME_PACKET /\
    firstn 13 (gps_packet (completed s1)) = time_sentence_day_32 /\
    gps_process_buffer 256 4096
      (sentence_buffered 256 time_sentence_day_32) = Fuel.
Proof.
  assert (Hd : decoder_ok (sentence_buffered 256 time_sentence_day_32))
    by (unfold decoder_ok, buffers_ok; vm_compute; repeat split; congruence).
  split; [exact Hd|].
  assert (E : exists s1,
            sync_loop 256
              (gps_input_write (sentence_buffered 256 time_sentence_day_32))
              (sentence_buffered 256 time_sentence_day_32) = Ok s1 /\
            gps_packet_type s1 = MAGELLAN_TIME_PACKET /\
            completes_sentence
              (gps_input_write (sentence_buffered 256 time_sentence_day_32))
              s1 = true /\
            firstn 13 (gps_packet (completed s1)) = time_sentence_day_32 /\
            sentence_valid (gps_packet (completed s1)) 13 = true /\
            1 <= idx (gps_packet (completed s1)) 8 <= 12 /\
            32 <= idx (gps_packet (completed s1)) 7).
  { eexists. split; [vm_compute; reflexivity|].
    split; [vm_compute; reflexivity|]. split; [vm_compute; reflexivity|].
    split; [vm_compute; reflexivity|]. split; [vm_compute; reflexivity|].
    split; [vm_compute; split; discriminate|vm_compute; discriminate]. }
  destruct E as (s1 & E & T & C & P & V & Hm & Hday).
  exists s1. split; [exact E|]. split; [exact T|]. split; [exact P|].
  exact (magellan_day_out_of_range_hangs 256 4096
           (sentence_buffered 256 time_sentence_day_32) s1
           Hd E T C V Hm Hday).
Defined.

(** X15 on five bytes of noise. *)
Lemma sync_skips_noise_witness :
  decoder_ok (ring_state [1; 2; 3; 4; 5] 0 5 UNKNOWN_PACKET) /\
  gps_process_buffer 256 0 (ring_state [1; 2; 3; 4; 5] 0 5 UNKNOWN_PACKET) =
  Ok (set_bytes_to_sync 5
        (set_gps_input_read 5 (ring_state [1; 2; 3; 4; 5] 0 5 UNKNOWN_PACKET)),
      false).
Proof.
  assert (Hd : decoder_ok (ring_state [1; 2; 3; 4; 5] 0 5 UNKNOWN_PACKET))
    by (unfold decoder_ok, buffers_ok; vm_compute; repeat split; congruence).
  split; [exact Hd|].
  refine (sync_skips_noise 256 0 (ring_state [1; 2; 3; 4; 5] 0 5 UNKNOWN_PACKET)
            Hd eq_refl _).
  change (unread
            (gps_input_write (ring_state [1; 2; 3; 4; 5] 0 5 UNKNOWN_PACKET))
            (ring_state [1; 2; 3; 4; 5] 0 5 UNKNOWN_PACKET)) with 5.
  intros i Hi.
  assert (Hc : i = 0 \/ i = 1 \/ i = 2 \/ i = 3 \/ i = 4) by lia.
  destruct Hc as [->|[->|[->|[->| ->]]]]; vm_compute; split; discriminate.
Defined.


(** X17 on three bytes received by the initial state. *)
Lemma receive_fills_ring_witness :
  decoder_ok initial_state /\
  exists s',
    receive [0x10; 0x8F; 0xAB] initial_state = Ok s' /\
    gps_input_read s' = 0 /\
    gps_input_write s' = 3 /\
    ring_holds s' [0x10; 0x8F; 0xAB].
Proof.
  assert (Hd : decoder_ok initial_state)
    by (unfold decoder_ok, buffers_ok; vm_compute; repeat split; congruence).
  split; [exact Hd|].
  destruct (receive_fills_ring [0x10; 0x8F; 0xAB] initial_state Hd
              ltac:(cbn [length]; lia))
    as (s' & E & R & W & _ & H).
  exists s'. split; [exact E|]. split; [exact R|]. split; [exact W|].
  exact (H eq_refl).
Defined.

(** X18 on 256 bytes 0x55 received by the initial state. *)
Lemma receive_overrun_looks_empty_witness :
  decoder_ok initial_state /\
  exists s',
    receive (repeat 0x55 256) initial_state = Ok s' /\
    gps_input_read s' = gps_input_write s' /\
    gps_process_buffer 256 0 s' = Ok (s', false).
Proof.
  assert (Hd : decoder_ok initial_state)
    by (unfold decoder_ok, buffers_ok; vm_compute; repeat split; congruence).
  split; [exact Hd|].
  destruct (receive_overrun_looks_empty 256 0 (repeat 0x55 256) initial_state
              Hd eq_refl eq_refl)
    as (s' & E & R & _ & P).
  exists s'. split; [exact E|]. split; [exact R|exact P].
Defined.

(** X20 on the year 2012. *)
Lemma be16_big_endian_witness :
  (0 <= 0x07 < 256) /\ (0 <= 0xDC < 256) /\ be16 0x07 0xDC = 2012.
Proof.
  assert (H1 : 0 <= 0x07 < 256) by lia.
  assert (H2 : 0 <= 0xDC < 256) by lia.
  split; [exact H1|]. split; [exact H2|].
  exact (proj1 (be16_big_endian 0x07 0xDC H1 H2)).
Defined.

(** X21 on the packet for 16:30:00 on 16 March 2012, whose hour byte and
    day byte are doubled on the wire. *)
Lemma trimble_packet_received_whole_is_decoded_witness :
  decoder_ok (ring_state trimble_previous_end 1 2 UNKNOWN_PACKET) /\
  trimble_wire (0x8F :: 0xAB :: data_1630_on_16th) = trimble_1630_on_16th /\
  exists s1 s2,
    receive trimble_1630_on_16th
      (ring_state trimble_previous_end 1 2 UNKNOWN_PACKET) = Ok s1 /\
    gps_process_buffer 256 0 s1 = Ok (s2, true) /\
    gps_last_timestamp s2 = timestamp_1630 /\
    gps_state s2 = GPS_ACTIVE.
Proof.
  assert (Hd : decoder_ok (ring_state trimble_previous_end 1 2 UNKNOWN_PACKET))
    by (unfold decoder_ok, buffers_ok; vm_compute; repeat split; congruence).
  split; [exact Hd|]. split; [reflexivity|].
  destruct (trimble_packet_received_whole_is_decoded 256 0
              (ring_state trimble_previous_end 1 2 UNKNOWN_PACKET)
              data_1630_on_16th Hd ltac:(intros H; discriminate H)
              eq_refl eq_refl eq_refl eq_refl eq_refl)
    as (s1 & s2 & E1 & E2 & T & G & _).
  exists s1, s2. split; [exact E1|]. split; [exact E2|].
  split; [exact T|exact G].
Defined.


(** X23 at N = 3: seven pulses are two exposures and one pulse. *)
Lemma pps_countdown_is_periodic_witness :
  (3 < 256) /\
  count_events event_eqb_trigger (trace (pps_edges 256 7 armed_three)) = 2%nat /\
  exposure_count (pps_edges 256 7 armed_three) = 2.
Proof.
  split; [lia|].
  exact (pps_countdown_is_periodic 256 3 2 1 armed_three
           eq_refl eq_refl eq_refl eq_refl
           ltac:(vm_compute; reflexivity) ltac:(lia)).
Defined.

(** X24 on a timestamp at a full minute and an exposure of ten seconds. *)
Lemma set_time_starts_countdown_on_multiple_witness :
  countdown_mode syncing_ten = COUNTDOWN_SYNCING /\
  exists s',
    set_time 256 timestamp_1630 syncing_ten = Ok s' /\
    countdown_mode s' = COUNTDOWN_ENABLED /\
    exposure_count s' = 10.
Proof.
  split; [reflexivity|].
  destruct (proj2 (set_time_starts_countdown_on_multiple 256 timestamp_1630
                     syncing_ten eq_refl) ltac:(vm_compute; discriminate))
    as (s' & E & M & C & _).
  exists s'. split; [exact E|]. split; [exact M|exact C].
Defined.

(** X25 on a time sentence for 12:30:00 on the raw date 1 January 1993,
    received whole after start-up. *)
Lemma magellan_time_sentence_publishes_calendar_date_witness :
  decoder_ok (sentence_buffered 256 (time_sentence 157)) /\
  sync_safe (sentence_buffered 256 (time_sentence 157)) /\
  exists s1 s',
    sync_loop 256
      (gps_input_write (sentence_buffered 256 (time_sentence 157)))
      (sentence_buffered 256 (time_sentence 157)) = Ok s1 /\
    gps_packet_type s1 = MAGELLAN_TIME_PACKET /\
    gps_process_buffer 256 3000 (sentence_buffered 256 (time_sentence 157)) =
      Ok (s', true) /\
    hours (gps_last_timestamp s') = 12 /\
    minutes (gps_last_timestamp s') = 30 /\
    seconds (gps_last_timestamp s') = 0 /\
    valid_date (year (gps_last_timestamp s'),
                month (gps_last_timestamp s'),
                day (gps_last_timestamp s')) /\
    timestamps_sent s' = 1%nat.
Proof.
  assert (Hd : decoder_ok (sentence_buffered 256 (time_sentence 157)))
    by (unfold decoder_ok, buffers_ok; vm_compute; repeat split; congruence).
  assert (Hs : sync_safe (sentence_buffered 256 (time_sentence 157)))
    by (intros H; vm_compute in H; discriminate H).
  split; [exact Hd|]. split; [exact Hs|].
  assert (E : exists s1,
            sync_loop 256
              (gps_input_write (sentence_buffered 256 (time_sentence 157)))
              (sentence_buffered 256 (time_sentence 157)) = Ok s1 /\
            gps_packet_type s1 = MAGELLAN_TIME_PACKET /\
            completes_sentence
              (gps_input_write (sentence_buffered 256 (time_sentence 157)))
              s1 = true /\
            sentence_valid (gps_packet (completed s1)) 13 = true /\
            1980 <= be16 (idx (gps_packet (completed s1)) 9)
                         (idx (gps_packet (completed s1)) 10) <= 2099 /\
            1 <= idx (gps_packet (completed s1)) 8 <= 12 /\
            1 <= idx (gps_packet (completed s1)) 7 <= 31 /\
            idx (gps_packet (completed s1)) 4 = 12 /\
            idx (gps_packet (completed s1)) 5 = 30 /\
            idx (gps_packet (completed s1)) 6 = 0).
  { eexists. split; [vm_compute; reflexivity|].
    split; [vm_compute; reflexivity|]. split; [vm_compute; reflexivity|].
    split; [vm_compute; reflexivity|].
    split; [vm_compute; split; discriminate|].
    split; [vm_compute; split; discriminate|].
    split; [vm_compute; split; discriminate|].
    repeat split; vm_compute; reflexivity. }
  destruct E as (s1 & E & T & C & V & Hy & Hm & Hday & B4 & B5 & B6).
  destruct (magellan_time_sentence_publishes_calendar_date 256
              (sentence_buffered 256 (time_sentence 157)) s1
              Hd Hs E T C V Hy Hm Hday)
    as (s' & Hrun & Hh & Hmi & Hse & Hv & _ & Hn).
  exists s1, s'. split; [exact E|]. split; [exact T|]. split; [exact Hrun|].
  rewrite B4 in Hh. rewrite B5 in Hmi. rewrite B6 in Hse.
  split; [exact Hh|]. split; [exact Hmi|]. split; [exact Hse|].
  split; [exact Hv|exact Hn].
Defined.

(** X26 after the third pulse of an exposure of three seconds. *)
Lemma set_time_records_download_time_once_witness :
  gps_record_synctime (pps_edges 256 3 counting_three) = true /\
  exists s' s'',
    set_time 256 timestamp_1630 (pps_edges 256 3 counting_three) = Ok s' /\
    gps_last_synctime s' = timestamp_1630 /\
    trace s' = [TriggerDownload; SendDownloadTimestamp; SendTimestamp] /\
    set_time 256 no_timestamp s' = Ok s'' /\
    gps_last_synctime s'' = timestamp_1630.
Proof.
  split; [reflexivity|].
  destruct (set_time_records_download_time_once 256 timestamp_1630
              no_timestamp (pps_edges 256 3 counting_three) eq_refl eq_refl)
    as (s' & s'' & E1 & L1 & _ & T1 & E2 & L2 & _).
  exists s', s''. split; [exact E1|]. split; [exact L1|]. split; [exact T1|].
  split; [exact E2|exact L2].
Defined.
